(* ===== verification/_CoqProject ===== *)
-Q . S2P
Prelude.v
Pieces.v
Movement.v
Legality.v
Board.v
Render.v
Sync.v
Room.v
Auth.v
Effects.v
RoomInfo.v
Shell.v
