(* ===== verification/Prelude.v ===== *)
(** * Verification of the Chess-ts board engine

    Chess-ts ([src/src]) is a two-player chess board. Two browsers share
    one Firestore document per room. Almost all of the behaviour is in the
    React component [Board] of [src/src/chessboard.tsx]. [src/src/room.tsx]
    creates and joins rooms. [main.tsx], the routes and
    [context/auth-provider.tsx] put the pieces together behind a login;
    [fire-basesetting.tsx] is the Firebase set-up.

    ** Parts of the program and how they interact

    - Piece names and the initial layout ([chessboard.tsx] 21-92): the
      string union [Piece] and the object [initialPositions]. The colour of
      a piece is never stored: the code asks [name.includes('black')].
    - Movement tables ([./movement], imported at [chessboard.tsx] 3-16):
      one object of offsets per piece type. That module is not part of the
      sources, so it is modelled from the specification (section 3): one
      unit step per direction for the queen, rook and bishop ("camel"), the
      eight neighbours for the king, the eight L jumps for the knight
      ("horse"), one step forward for the pawn. The client code
      ([pieceMovementMap], 98-131) is modelled from the source.
    - Legality ([handlePieceClick] 133-147, [isPathBlocked] 187-236): the
      candidate squares of a piece, and a [while] walk that looks for a
      piece strictly between two squares.
    - Board component state and handlers ([useState] 94-96,
      [handlePieceClick], [handleMove] 238-284, the click dispatch of the
      rendered cells 288-349): a selected piece, highlighted squares and the
      positions object, changed by the handlers through React state setters.
    - Synchronisation ([updatePositionInDatabase] 149-161, the
      [onSnapshot] subscription 163-185): every local move is pushed as a
      partial update of the room document [lobbyName/data]; every snapshot
      of that document is spread over the local positions. Several clients
      share the document; there is no transaction.
    - Rooms ([room.tsx]): [createRoom] writes the room document
      [groups/name] and the board document; [joinRoom] subscribes to the
      room document and decides on every snapshot (password, membership,
      capacity of two) and [addUserToGroup] adds the user; [Lobby] passes
      the room name to [Board] as [lobbyName]; [RoomInfromation] watches the
      room and queries its members' profiles.
    - Authentication ([context/auth-provider.tsx], [routes/login.tsx],
      [routes/_authenticated.tsx]): the provider's user state, its
      Firebase listener, sign-in and sign-out, and the two route guards.
    - The application shell ([main.tsx], [routes/_authenticated/index.tsx]):
      [<StrictMode>] around the provider and the router; the page [/]
      renders [Lobby], [Board] with [Lobby]'s room name, and the sign-out
      button. Three [useEffect]s open Firestore listeners: the provider's,
      [Board]'s (with [unsubscribe] as cleanup) and [RoomInfromation]'s
      (with no cleanup).

    ** Files of this development, in dependency order

    - [Prelude] (this file): positions, a small outcome monad for code that
      throws or loops ([Ok], [Thrown], [OutOfFuel]), JavaScript objects as
      association lists kept in insertion order ([obj_get], [obj_set] for
      [{...o, [k]: v}], [obj_delete] for [delete o[k]], [obj_spread] for
      [{...o, ...d}]), their map equivalence [obj_equiv] with [Proper]
      instances, the substring test [str_includes], the hint database
      [jsobj] and the shared lemmas.
    - [Pieces]: the inductive [Piece] with the source's 32 names, the
      tagged reading (colour, archetype) the specification asks for, and
      [initialPositions].
    - [Movement]: the typeclass [MovementTables] (the interface the board
      code relies on), the spec-modelled instance [spec_tables], and
      [pieceMovementMap] / [movement_of].
    - [Legality]: candidate generation and the two loops of [isPathBlocked],
      modelled with fuel; a reference definition of "blocked" and the
      theorems relating them.
    - [Board]: the component state, the handlers as lists of React state
      updates applied in order, the snapshot merge, the dispatch of a click
      on a rendered cell ([cell_click]), sessions of one client's clicks and
      snapshots ([session]) and the room seed of [createRoom].
    - [Render]: the grid [Board] draws ([render_board], [render_cell]): the
      colour and highlight of each cell, and the button of the piece found
      on it with its colour class and glyph ([pieceGlyph]).
    - [Sync]: several clients sharing the board document. The state
      [Sys] holds the server document and, per client, its board, the queue
      of snapshots sent to its listener, its handlers in flight and what it
      has shown; [sys_step] is one click, one action of a handler, or one
      delivery, so deliveries interleave with the [await]s; a write updates
      the server and is queued to every listener. Store and event loop are
      modelled from sections 5-6 of the specification.
    - [Room]: [createRoom], [joinRoomCallback], [addUserToGroup] on a store
      of rooms ([gmap]), a lobby of clients whose [joinRoom] listeners have
      their own snapshot queues ([lobby_step]), and the two dialogs of
      [Lobby] ([createDialog_step], [joinDialog_submit]) with their form
      state. The store's acceptance of each write is a parameter
      [accepts].
    - [Auth]: [AuthProvider]'s state, its [onAuthStateChanged] listener,
      [signIn] on the [users] collection, [signOut], and the route guards.
    - [Effects]: React's lifecycle of an effect that opens a listener
      (mount, [StrictMode]'s body-cleanup-body, a render with new
      dependencies, unmount), against the interface [SubscriptionEffect]
      (when the body opens a listener, whether it returns the cleanup).
      The semantics of React is modelled from its documentation.
    - [RoomInfo]: [RoomInfromation] ([room.tsx] 252-331): its effect as a
      [SubscriptionEffect] without cleanup, its snapshot callbacks, the
      member queries it opens, and what it renders.
    - [Shell]: the state of one browser ([App]: provider state and
      listener, route, [roomName], [lobbyName], [Board]'s listener, the
      card), [app_step] for a Firebase report, a sign-out, a room chosen
      or a snapshot of the card, with [RootPage] mounting and unmounting as
      the guards navigate; and [room_step], which adds to [Sync] a second
      [createRoom] of the room's name and a [Board] mounting late.

    ** Theorems, by group

    - Legality: candidates are exactly the table offsets that land on the
      board, every one with both coordinates in [0, 7] (C19), or the [TypeError] of a key with no table; [isPathBlocked]
      terminates on every move with distinct ends and equals the reference
      [path_blocked_ref]; a knight's jump or an adjacent step is never
      blocked; on a square and itself the second loop diverges.
    - Board moves: a capture deletes exactly the captured key and pushes
      the sentinel; a quiet move updates one key; landing on an own piece
      leaves two pieces on one square; a blocked move changes nothing.
    - Synchronisation: a snapshot overwrites exactly the keys it mentions,
      the echo of a local move changes nothing, disjoint snapshots commute
      up to [obj_equiv], a missing document only toasts.
    - Rendering ([Render]): a click selects only the piece drawn in the
      clicked cell (C18); after a move onto an own piece, the piece under
      the other is drawn nowhere and no click can select it (C7); the black
      pawns are drawn with the white pawn symbol.
    - Sessions: a highlight that a snapshot made stale hangs the next click
      (C8); the keys written by [createRoom] ([KingPosition], ...) are not
      pieces, and clicking one throws (C9).
    - Several clients ([Sync]): an invariant of every reachable state
      ([client_inv]: what a client has not changed nor been sent is
      initial; once its queue is empty it agrees with the server, up to the
      keys it owes a write) gives the refinement of the contract of section
      4.5 (C4: a settled client holds the initial positions overwritten by
      the document) and convergence (C5); a typing invariant shows the
      document only holds squares and the sentinel (C12); two concurrent
      moves put two pieces on one square (C10); without a document every
      write fails (C23).
    - Rooms ([Room]): two simultaneous joins overfill a room and show
      "Room is packed" to a member (C11), while a decision on the current
      document keeps the capacity (C22); a creation under a taken name takes
      the room over (C16); the store of rooms stays well formed (C21); the
      error paths of [createRoom] and [addUserToGroup] (C29, C34, C35); the
      create dialog submits only filled forms and clears them only on
      success (C36).
    - Authentication ([Auth]): the guards settle after one navigation
      (C31); a Firebase report of no user does not clear the user (C30);
      sign-in never overwrites a profile.
    - The shell ([Shell]): whatever the user does, and with or without
      [StrictMode]'s double mount, the provider holds one listener and
      [Board] exactly the listener of the current room (C15), while the
      listeners of [RoomInfromation] are never closed, even by signing out
      (C24); a second [createRoom] of a room in play leaves two settled
      boards that disagree (C13), so convergence (C5) needs the room
      document never to be replaced; as long as it is not, a board that
      mounts at any time refines the document once settled (C14).

    ** Fuel

    [isPathBlocked] takes the number of loop iterations as fuel. Each loop
    of the code advances one square towards the end, so [distance s e]
    (the larger coordinate difference, at most 7 between two squares of
    the board) iterations are enough; the theorem of C1 is stated for every
    fuel at least that distance. The same-square case diverges for every
    fuel (C2), so no bound is enough there.

    ** Bounds of the system models

    The theorems on [Sync] and [Room] hold for any number of clients and
    any schedule; they quantify over reachable states ([rtc] of the step
    relation), so they need no bound; the theorems on [Shell] hold for every
    sequence of events. The counterexamples (C10, C11, C13) are explicit
    traces of 20, 7 and 13 steps evaluated by [vm_compute]. The fuel
    of [isPathBlocked] inside [Sync] is a parameter; a step whose handler
    runs out of fuel has no successor, as the page hangs.

    ** What is not modelled

    Class names and styling, sounds, and toasts beyond the fact that they
    are emitted. The opening and closing of the Radix dialogs: only their
    form state is modelled. The Leave-Room button: it has no handler.
    Firebase itself: the store is a map of documents whose writes are
    accepted according to a parameter, and whose listeners receive every
    change in order. [createRoom] is one step of [Room]: its two [await]s
    are not interleaved with other clients there. The state it leaves when
    the second write fails is covered (C34), and [Shell] composes its second
    write with the boards of [Sync] ([room_step]); a join inside the window
    between the writes would need one store shared by [Room] and [Sync],
    which are kept apart so that each stays small; the specification leaves
    rooms out of the core. [fire-basesetting.tsx] and the
    generated route tree are configuration. React is modelled only as far
    as the effects need: the order of a mount, a render with new
    dependencies and an unmount, and [StrictMode]'s double mount.
*)

From stdpp Require Import base list strings options sets.
From Stdlib Require Import ZArith Lia.

Declare Scope chess_scope.
Delimit Scope chess_scope with chess.
Open Scope Z_scope.

(** ** Board coordinates: [type PiecePosition = { x: number; y: number }] *)

Record PiecePosition := mkPos { x : Z; y : Z }.

Notation "⟨ a , b ⟩" := (mkPos a b) (format "⟨ a ,  b ⟩") : chess_scope.
Open Scope chess_scope.

#[export] Instance PiecePosition_eq_dec : EqDecision PiecePosition.
Proof. solve_decision. Defined.

(** [pos.x === a && pos.y === b] *)
Definition at_square (p : PiecePosition) (a b : Z) : bool :=
  (x p =? a) && (y p =? b).

(** [pos.x >= 0 && pos.x < 8 && pos.y >= 0 && pos.y < 8] *)
Definition on_board (p : PiecePosition) : bool :=
  (0 <=? x p) && (x p <? 8) && (0 <=? y p) && (y p <? 8).

Definition shift (o v : PiecePosition) : PiecePosition :=
  ⟨ x o + x v , y o + y v ⟩.

(** ** Outcomes of JavaScript code that may throw or run forever *)

Inductive outcome (A : Type) : Type :=
  | Ok (a : A)
  | Thrown (e : string)
  | OutOfFuel.
Arguments Ok {A} a.
Arguments Thrown {A} e.
Arguments OutOfFuel {A}.

Definition obind {A B} (c : outcome A) (k : A -> outcome B) : outcome B :=
  match c with
  | Ok a => k a
  | Thrown e => Thrown e
  | OutOfFuel => OutOfFuel
  end.

Notation "'let*' v := c 'in' k" := (obind c (fun v => k))
  (at level 10, v name, c at level 100, k at level 200) : chess_scope.

(** [Array.prototype.map] with a callback that may throw. *)
Fixpoint list_mapM {A B} (f : A -> outcome B) (l : list A) : outcome (list B) :=
  match l with
  | [] => Ok []
  | a :: l' => let* b := f a in let* bs := list_mapM f l' in Ok (b :: bs)
  end.

(** ** [String.prototype.includes] *)

Fixpoint str_includes (s sub : string) : bool :=
  String.prefix sub s ||
  match s with
  | EmptyString => false
  | String _ s' => str_includes s' sub
  end.

(** ** JavaScript objects with string keys

    An object is the list of its entries in insertion order, which is the
    order [Object.entries] and [Object.values] report for non-numeric keys.
    Order matters to the code: [Object.entries(...).find] returns the first
    entry at a square. *)

Definition jsobj (V : Type) := list (string * V).

Section JsObject.
Context {V : Type}.
Implicit Types (o d : jsobj V) (k : string) (v : V).

(** [o[k]], [undefined] as [None]. *)
Fixpoint obj_get k o : option V :=
  match o with
  | [] => None
  | (k', v) :: o' => if decide (k = k') then Some v else obj_get k o'
  end.

(** [{ ...o, [k]: v }]: an existing key keeps its place, a new key goes
    last. *)
Fixpoint obj_set k v o : jsobj V :=
  match o with
  | [] => [(k, v)]
  | (k', v') :: o' =>
      if decide (k = k') then (k, v) :: o' else (k', v') :: obj_set k v o'
  end.

(** [delete o[k]] *)
Fixpoint obj_delete k o : jsobj V :=
  match o with
  | [] => []
  | (k', v') :: o' =>
      if decide (k = k') then o' else (k', v') :: obj_delete k o'
  end.

(** [{ ...o, ...d }]: the entries of [d] assigned one after the other. *)
Definition obj_spread o d : jsobj V :=
  fold_left (fun acc kv => obj_set kv.1 kv.2 acc) d o.

Definition obj_keys o : list string := map fst o.
Definition obj_values o : list V := map snd o.

(** [Object.entries(o).find(([k, v]) => p k v)] *)
Definition obj_find (p : string -> V -> bool) o : option (string * V) :=
  List.find (fun kv => p kv.1 kv.2) o.

(** A JavaScript object never has a key twice. *)
Definition obj_wf o : Prop := NoDup (obj_keys o).

(** Two objects are equivalent as maps when every key reads the same. *)
Definition obj_equiv o1 o2 : Prop := forall k, obj_get k o1 = obj_get k o2.
End JsObject.

Arguments jsobj V : clear implicits.

(** ** Lemmas on objects *)

Section JsObjectLemmas.
Context {V : Type}.
Implicit Types (o d : jsobj V) (k : string) (v : V).

Lemma obj_get_set_eq k v o : obj_get k (obj_set k v o) = Some v.
Proof.
  induction o as [|[k' v'] o IH]; simpl; [by rewrite decide_True|].
  case_decide; simpl; [by rewrite decide_True | by rewrite decide_False].
Qed.

Lemma obj_get_set_ne k k' v o :
  k <> k' -> obj_get k' (obj_set k v o) = obj_get k' o.
Proof.
  intros Hne. induction o as [|[j w] o IH]; simpl.
  - case_decide; congruence.
  - destruct (decide (k = j)) as [->|Hkj]; simpl.
    + by rewrite !decide_False by congruence.
    + by case_decide.
Qed.

Lemma obj_get_delete_ne k k' o :
  k <> k' -> obj_get k' (obj_delete k o) = obj_get k' o.
Proof.
  intros Hne. induction o as [|[j w] o IH]; simpl; [done|].
  destruct (decide (k = j)) as [->|Hkj]; simpl.
  - by rewrite decide_False by congruence.
  - by case_decide.
Qed.

Lemma obj_get_None_keys k o : obj_get k o = None <-> k ∉ obj_keys o.
Proof.
  induction o as [|[j w] o IH]; simpl; [set_solver|].
  case_decide; subst; [set_solver|]. rewrite IH. set_solver.
Qed.

Lemma obj_get_delete_eq k o : obj_wf o -> obj_get k (obj_delete k o) = None.
Proof.
  unfold obj_wf. induction o as [|[j w] o IH]; simpl; [done|].
  intros Hnd. apply NoDup_cons in Hnd as [Hn Hnd].
  case_decide; subst; simpl.
  - by apply obj_get_None_keys.
  - rewrite decide_False by done. by apply IH.
Qed.

Lemma obj_keys_set k v o :
  obj_keys (obj_set k v o) =
    if decide (k ∈ obj_keys o) then obj_keys o else obj_keys o ++ [k].
Proof.
  induction o as [|[j w] o IH]; simpl; [done|].
  destruct (decide (k = j)) as [->|Hkj]; simpl.
  - by rewrite decide_True by set_solver.
  - rewrite IH. destruct (decide (k ∈ obj_keys o)).
    + by rewrite decide_True by set_solver.
    + by rewrite decide_False by set_solver.
Qed.

Lemma obj_set_wf k v o : obj_wf o -> obj_wf (obj_set k v o).
Proof.
  unfold obj_wf. rewrite obj_keys_set. case_decide; [done|].
  intros Hnd. apply NoDup_app. split; [done|split; [|apply NoDup_singleton]].
  set_solver.
Qed.

Lemma obj_keys_delete_sub k o : obj_keys (obj_delete k o) ⊆ obj_keys o.
Proof.
  induction o as [|[j w] o IH]; simpl; [done|].
  case_decide; set_solver.
Qed.

Lemma obj_delete_wf k o : obj_wf o -> obj_wf (obj_delete k o).
Proof.
  unfold obj_wf. induction o as [|[j w] o IH]; simpl; [done|].
  intros Hnd. apply NoDup_cons in Hnd as [Hn Hnd].
  case_decide; simpl; [done|].
  constructor; [|by apply IH].
  pose proof (obj_keys_delete_sub k o). set_solver.
Qed.

Lemma obj_spread_cons o kv d :
  obj_spread o (kv :: d) = obj_spread (obj_set kv.1 kv.2 o) d.
Proof. reflexivity. Qed.

Lemma obj_spread_wf o d : obj_wf o -> obj_wf (obj_spread o d).
Proof.
  revert o. induction d as [|kv d IH]; intros o Hwf; [done|].
  rewrite obj_spread_cons. apply IH, obj_set_wf, Hwf.
Qed.

(** Reading a spread: the last writer wins. *)
Lemma obj_get_spread k o d :
  obj_wf d ->
  obj_get k (obj_spread o d) =
    match obj_get k d with Some v => Some v | None => obj_get k o end.
Proof.
  unfold obj_wf. revert o. induction d as [|[j w] d IH]; intros o Hnd; [done|].
  apply NoDup_cons in Hnd as [Hn Hnd]. rewrite obj_spread_cons, IH by done.
  simpl. case_decide; subst.
  - assert (obj_get j d = None) as -> by by apply obj_get_None_keys.
    apply obj_get_set_eq.
  - destruct (obj_get k d); [done|]. by apply obj_get_set_ne.
Qed.

Lemma obj_get_In k v o : obj_get k o = Some v -> In (k, v) o.
Proof.
  induction o as [|[j w] o IH]; simpl; [done|].
  case_decide; intros Hg; simplify_eq; auto.
Qed.

Lemma obj_In_get k v o : obj_wf o -> In (k, v) o -> obj_get k o = Some v.
Proof.
  unfold obj_wf. induction o as [|[j w] o IH]; simpl; [done|].
  intros Hnd Hin. apply NoDup_cons in Hnd as [Hn Hnd].
  destruct Hin as [Heq|Hin]; simplify_eq.
  - by rewrite decide_True.
  - rewrite decide_False; [by apply IH|].
    intros ->. apply Hn, list_elem_of_In, in_map_iff. by exists (j, v).
Qed.

Lemma obj_values_In v o : In v (obj_values o) <-> exists k, In (k, v) o.
Proof.
  unfold obj_values. rewrite in_map_iff. split.
  - intros [[k w] [<- Hin]]. by exists k.
  - intros [k Hin]. by exists (k, v).
Qed.

(** Under [obj_wf], an object is determined by its keys in order and the
    reads of these keys. *)
Lemma obj_set_get_id k v o :
  obj_wf o -> obj_get k o = Some v -> obj_set k v o = o.
Proof.
  unfold obj_wf. induction o as [|[j w] o IH]; simpl; [done|].
  intros Hnd. apply NoDup_cons in Hnd as [Hn Hnd].
  case_decide; subst; intros Hg; simplify_eq; [done|]. by rewrite IH.
Qed.

Lemma obj_spread_id o d :
  obj_wf o -> Forall (fun kv => obj_get kv.1 o = Some kv.2) d ->
  obj_spread o d = o.
Proof.
  intros Hwf Hall. induction Hall as [|[k v] d Hkv Hall IH]; [done|].
  rewrite obj_spread_cons. simpl in *. by rewrite obj_set_get_id.
Qed.
End JsObjectLemmas.

(** ** Map equivalence and its morphisms *)

Section JsObjectEquiv.
Context {V : Type}.

#[export] Instance obj_equiv_Equivalence : Equivalence (@obj_equiv V).
Proof.
  split.
  - intros o k. done.
  - intros o1 o2 H k. by rewrite H.
  - intros o1 o2 o3 H1 H2 k. by rewrite H1, H2.
Qed.

#[export] Instance obj_get_Proper k :
  Proper (obj_equiv ==> eq) (@obj_get V k).
Proof. intros o1 o2 H. apply H. Qed.

#[export] Instance obj_set_Proper k v :
  Proper (obj_equiv ==> obj_equiv) (@obj_set V k v).
Proof.
  intros o1 o2 H j. destruct (decide (k = j)) as [->|Hne].
  - by rewrite !obj_get_set_eq.
  - by rewrite !obj_get_set_ne.
Qed.

#[export] Instance obj_spread_Proper :
  Proper (obj_equiv ==> eq ==> obj_equiv) (@obj_spread V).
Proof.
  intros o1 o2 H d ? <-. revert o1 o2 H.
  induction d as [|kv d IH]; intros o1 o2 H; [done|].
  rewrite !obj_spread_cons. apply IH. by rewrite H.
Qed.

(** [delete] removes the first entry of a key only, so it respects the
    equivalence on objects without repeated keys. *)
Lemma obj_delete_equiv k (o1 o2 : jsobj V) :
  obj_wf o1 -> obj_wf o2 -> obj_equiv o1 o2 ->
  obj_equiv (obj_delete k o1) (obj_delete k o2).
Proof.
  intros W1 W2 H j. destruct (decide (k = j)) as [->|Hne].
  - by rewrite !obj_get_delete_eq.
  - by rewrite !obj_get_delete_ne.
Qed.
End JsObjectEquiv.

(** ** Automation *)

Create HintDb jsobj discriminated.
#[export] Hint Resolve @obj_set_wf @obj_delete_wf @obj_spread_wf : jsobj.
#[export] Hint Rewrite @obj_get_set_eq @obj_spread_cons : jsobj.
#[export] Hint Rewrite @obj_get_set_ne @obj_get_delete_ne using congruence : jsobj.

(** Close a well-formedness goal built from [obj_set], [obj_delete] and
    [obj_spread]. *)
Ltac solve_obj_wf := repeat (assumption || eauto with jsobj).

(** ** The outcome monad *)

Lemma obind_Ok {A B} (c : outcome A) (k : A -> outcome B) b :
  obind c k = Ok b -> exists a, c = Ok a /\ k a = Ok b.
Proof. destruct c; simpl; [eauto|discriminate..]. Qed.

Lemma list_mapM_Ok {A B} (f : A -> B) (l : list A) :
  list_mapM (fun a => Ok (f a)) l = Ok (map f l).
Proof. induction l as [|a l IH]; simpl; [done|]. by rewrite IH. Qed.

Section JsObjectLength.
Context {V : Type}.
Implicit Types (o : jsobj V) (k : string) (v : V).

Lemma obj_set_length k v o :
  obj_get k o <> None -> length (obj_set k v o) = length o.
Proof.
  induction o as [|[j w] o IH]; simpl; intros Hg; [done|].
  destruct (decide (k = j)); simpl; [done|]. by rewrite IH.
Qed.

Lemma obj_delete_length k o :
  obj_get k o <> None -> length (obj_delete k o) = pred (length o).
Proof.
  induction o as [|[j w] o IH]; simpl; intros Hg; [done|].
  destruct (decide (k = j)); simpl; [done|].
  rewrite IH by done. destruct o; simpl in *; [done|lia].
Qed.

Lemma obj_get_delete k k' o :
  obj_wf o -> obj_get k' (obj_delete k o) = if decide (k' = k) then None else obj_get k' o.
Proof.
  intros Hwf. case_decide; subst; [by apply obj_get_delete_eq|].
  apply obj_get_delete_ne. congruence.
Qed.

Lemma obj_get_set k k' v o :
  obj_get k' (obj_set k v o) = if decide (k' = k) then Some v else obj_get k' o.
Proof.
  case_decide; subst; [apply obj_get_set_eq|]. apply obj_get_set_ne. congruence.
Qed.

Lemma obj_find_Some p o k v :
  obj_find p o = Some (k, v) -> In (k, v) o /\ p k v = true.
Proof. unfold obj_find. intros Hf. by apply List.find_some in Hf. Qed.
End JsObjectLength.

Lemma obj_get_Some_keys {V} k (v : V) (o : jsobj V) :
  obj_get k o = Some v -> k ∈ obj_keys o.
Proof.
  intros Hg%obj_get_In. apply list_elem_of_In, in_map_iff. by exists (k, v).
Qed.

Section JsObjectKeys.
Context {V : Type}.
Implicit Types (o d : jsobj V) (k : string) (v : V).

Lemma elem_of_obj_keys_set j k v o :
  j ∈ obj_keys (obj_set k v o) <-> j = k \/ j ∈ obj_keys o.
Proof. rewrite obj_keys_set. case_decide; set_solver. Qed.

Lemma obj_keys_set_sub k v o : obj_keys o ⊆ obj_keys (obj_set k v o).
Proof. intros j. rewrite elem_of_obj_keys_set. auto. Qed.

(** A key that the spread object does not carry keeps its value. *)
Lemma obj_get_spread_notin k o d :
  k ∉ obj_keys d -> obj_get k (obj_spread o d) = obj_get k o.
Proof.
  revert o. induction d as [|[j w] d IH]; intros o Hk; [done|].
  rewrite obj_spread_cons, IH by set_solver. simpl.
  apply obj_get_set_ne. set_solver.
Qed.

(** A key the spread object carries reads as in that object. *)
Lemma obj_get_spread_in k o d :
  obj_wf d -> k ∈ obj_keys d -> obj_get k (obj_spread o d) = obj_get k d.
Proof.
  intros Hwf Hk. rewrite obj_get_spread by done.
  destruct (obj_get k d) eqn:E; [done|]. by apply obj_get_None_keys in E.
Qed.
(** A property of every value survives the assignment of a value that
    has it. *)
Lemma obj_values_set_Forall (P : V -> Prop) k v o :
  Forall P (obj_values o) -> P v -> Forall P (obj_values (obj_set k v o)).
Proof.
  induction o as [|[j w] o IH]; simpl; intros Ho Hv; [by constructor|].
  apply Forall_cons in Ho as [Hw Ho].
  case_decide; simpl; constructor; auto.
Qed.
End JsObjectKeys.

#[export] Hint Resolve obj_keys_set_sub : jsobj.
