(* ===== verification/Pieces.v ===== *)
(** * Pieces and the initial layout

    The string union [Piece] of [src/src/chessboard.tsx] (lines 21-53) as an
    inductive type with one constructor per name, the names themselves, the
    parse of a key back to a piece (what indexing a [Record<Piece, _>] with
    an arbitrary string does), the colour test the code performs with
    [includes('black')], and [initialPositions] (lines 59-92).

    The specification asks for a tagged reading of a piece (colour,
    archetype); [piece_color] and [piece_archetype] give it, and the
    theorems of this file show that the string tests of the code agree with
    it on every piece. *)

From stdpp Require Import base list strings options sets finite.
From Stdlib Require Import ZArith Lia.
From S2P Require Import Prelude.

Open Scope Z_scope.
Open Scope chess_scope.

Inductive Piece : Type :=
  | king | queen | rook | rook2 | horse | horse2 | camel | camel2
  | pawn1 | pawn2 | pawn3 | pawn4 | pawn5 | pawn6 | pawn7 | pawn8
  | blackKing | blackQueen | blackRook1 | blackRook2
  | blackHorse1 | blackHorse2 | blackCamel1 | blackCamel2
  | blackPawn1 | blackPawn2 | blackPawn3 | blackPawn4
  | blackPawn5 | blackPawn6 | blackPawn7 | blackPawn8.

#[export] Instance Piece_eq_dec : EqDecision Piece.
Proof. solve_decision. Defined.

(** The 32 members of the union, in the order of the source. *)
Definition all_pieces : list Piece :=
  [king; queen; rook; rook2; horse; horse2; camel; camel2;
   pawn1; pawn2; pawn3; pawn4; pawn5; pawn6; pawn7; pawn8;
   blackKing; blackQueen; blackRook1; blackRook2;
   blackHorse1; blackHorse2; blackCamel1; blackCamel2;
   blackPawn1; blackPawn2; blackPawn3; blackPawn4;
   blackPawn5; blackPawn6; blackPawn7; blackPawn8].

#[export] Program Instance Piece_finite : Finite Piece :=
  {| enum := all_pieces |}.
Next Obligation. vm_compute. repeat constructor; set_solver. Qed.
Next Obligation. intros p. destruct p; vm_compute; set_solver. Qed.

(** The string each member of the union stands for. *)
Definition piece_name (p : Piece) : string :=
  match p with
  | king => "king" | queen => "queen" | rook => "rook" | rook2 => "rook2"
  | horse => "horse" | horse2 => "horse2" | camel => "camel" | camel2 => "camel2"
  | pawn1 => "pawn1" | pawn2 => "pawn2" | pawn3 => "pawn3" | pawn4 => "pawn4"
  | pawn5 => "pawn5" | pawn6 => "pawn6" | pawn7 => "pawn7" | pawn8 => "pawn8"
  | blackKing => "blackKing" | blackQueen => "blackQueen"
  | blackRook1 => "blackRook1" | blackRook2 => "blackRook2"
  | blackHorse1 => "blackHorse1" | blackHorse2 => "blackHorse2"
  | blackCamel1 => "blackCamel1" | blackCamel2 => "blackCamel2"
  | blackPawn1 => "blackPawn1" | blackPawn2 => "blackPawn2"
  | blackPawn3 => "blackPawn3" | blackPawn4 => "blackPawn4"
  | blackPawn5 => "blackPawn5" | blackPawn6 => "blackPawn6"
  | blackPawn7 => "blackPawn7" | blackPawn8 => "blackPawn8"
  end%string.

(** Indexing a [Record<Piece, _>] with a key: the key is a member of the
    union or the read gives [undefined]. *)
Definition piece_of_string (s : string) : option Piece :=
  List.find (fun p => bool_decide (piece_name p = s)) all_pieces.

(** [name.includes('black')], the only colour test of the code (lines
    257-260 and 315). *)
Definition is_black_name (s : string) : bool := str_includes s "black".

(** ** The tagged reading of the specification (section 9) *)

Inductive Color := White | Black.
Inductive Archetype := King | Queen | Rook | Knight | Bishop | Pawn.

#[export] Instance Color_eq_dec : EqDecision Color.
Proof. solve_decision. Defined.
#[export] Instance Archetype_eq_dec : EqDecision Archetype.
Proof. solve_decision. Defined.

Definition piece_color (p : Piece) : Color :=
  match p with
  | king | queen | rook | rook2 | horse | horse2 | camel | camel2
  | pawn1 | pawn2 | pawn3 | pawn4 | pawn5 | pawn6 | pawn7 | pawn8 => White
  | _ => Black
  end.

Definition piece_archetype (p : Piece) : Archetype :=
  match p with
  | king | blackKing => King
  | queen | blackQueen => Queen
  | rook | rook2 | blackRook1 | blackRook2 => Rook
  | horse | horse2 | blackHorse1 | blackHorse2 => Knight
  | camel | camel2 | blackCamel1 | blackCamel2 => Bishop
  | _ => Pawn
  end.

(** ** [initialPositions] (lines 59-92), in the source's key order *)

Definition initialPositions : jsobj PiecePosition :=
  [("king", ⟨7, 4⟩); ("queen", ⟨7, 3⟩); ("rook", ⟨7, 0⟩); ("rook2", ⟨7, 7⟩);
   ("horse", ⟨7, 1⟩); ("horse2", ⟨7, 6⟩); ("camel", ⟨7, 2⟩); ("camel2", ⟨7, 5⟩);
   ("pawn1", ⟨6, 0⟩); ("pawn2", ⟨6, 1⟩); ("pawn3", ⟨6, 2⟩); ("pawn4", ⟨6, 3⟩);
   ("pawn5", ⟨6, 4⟩); ("pawn6", ⟨6, 5⟩); ("pawn7", ⟨6, 6⟩); ("pawn8", ⟨6, 7⟩);
   ("blackKing", ⟨0, 4⟩); ("blackQueen", ⟨0, 3⟩);
   ("blackRook1", ⟨0, 0⟩); ("blackRook2", ⟨0, 7⟩);
   ("blackHorse1", ⟨0, 1⟩); ("blackHorse2", ⟨0, 6⟩);
   ("blackCamel1", ⟨0, 2⟩); ("blackCamel2", ⟨0, 5⟩);
   ("blackPawn1", ⟨1, 0⟩); ("blackPawn2", ⟨1, 1⟩);
   ("blackPawn3", ⟨1, 2⟩); ("blackPawn4", ⟨1, 3⟩);
   ("blackPawn5", ⟨1, 4⟩); ("blackPawn6", ⟨1, 5⟩);
   ("blackPawn7", ⟨1, 6⟩); ("blackPawn8", ⟨1, 7⟩)]%string.

(** ** Theorems *)

(** The string test [name.includes('black')] the code uses for colour
    answers [true] on exactly the black members of the union. *)
Theorem is_black_name_piece (p : Piece) :
  is_black_name (piece_name p) = bool_decide (piece_color p = Black).
Proof. destruct p; vm_compute; reflexivity. Qed.

Lemma initialPositions_wf : obj_wf initialPositions.
Proof. apply (bool_decide_unpack _). vm_compute. reflexivity. Qed.
