(* ===== verification/Movement.v ===== *)
(** * Movement tables

    [chessboard.tsx] imports twelve objects of offsets from [./movement]
    (lines 3-16) and reads them with [Object.values] in [pieceMovementMap]
    (lines 98-131). The module [./movement] is not among the sources, so
    its contents are an interface here: the typeclass [MovementTables]
    holds the twelve offset lists, and every theorem of [Legality] and
    [Board] that does not name [spec_tables] holds for any instance.

    [spec_tables] is the instance the specification describes (sections 3
    and 4.1): one unit step per direction for queen, rook and bishop
    ("camel"), the eight neighbours for the king, the eight L jumps for the
    knight ("horse"), one step towards the opponent for the pawn (white
    pawns start on rank 6 and move to smaller ranks). *)

From stdpp Require Import base list strings options sets.
From Stdlib Require Import ZArith Lia.
From S2P Require Import Prelude Pieces.

Open Scope Z_scope.
Open Scope chess_scope.

(** What [./movement] exports, as the value lists [Object.values] returns. *)
Class MovementTables := {
  KingMovement : list PiecePosition;
  QueenMovement : list PiecePosition;
  RookMovement : list PiecePosition;
  HorseMovement : list PiecePosition;
  CamelMovement : list PiecePosition;
  PawnMovement : list PiecePosition;
  BlackKingMovement : list PiecePosition;
  BlackHorseMovement : list PiecePosition;
  BlackCamelMovement : list PiecePosition;
  BlackPawnMovement : list PiecePosition;
  BlackQueenMovement : list PiecePosition;
  BlackRookMovement : list PiecePosition
}.

Section PieceMovementMap.
Context `{MovementTables}.

(** [pieceMovementMap] (lines 98-131). *)
Definition pieceMovementMap (p : Piece) : list PiecePosition :=
  match p with
  | king => KingMovement
  | queen => QueenMovement
  | rook | rook2 => RookMovement
  | horse | horse2 => HorseMovement
  | camel | camel2 => CamelMovement
  | pawn1 | pawn2 | pawn3 | pawn4 | pawn5 | pawn6 | pawn7 | pawn8 => PawnMovement
  | blackKing => BlackKingMovement
  | blackQueen => BlackQueenMovement
  | blackRook1 | blackRook2 => BlackRookMovement
  | blackHorse1 | blackHorse2 => BlackHorseMovement
  | blackCamel1 | blackCamel2 => BlackCamelMovement
  | _ => BlackPawnMovement
  end.

(** [pieceMovementMap[piece]] for a key read from the positions object:
    [undefined] unless the key names a member of the union. *)
Definition movement_of (s : string) : option (list PiecePosition) :=
  pieceMovementMap <$> piece_of_string s.
End PieceMovementMap.

(** ** The tables the specification describes *)

Definition king_steps : list PiecePosition :=
  [⟨-1, -1⟩; ⟨-1, 0⟩; ⟨-1, 1⟩; ⟨0, -1⟩; ⟨0, 1⟩; ⟨1, -1⟩; ⟨1, 0⟩; ⟨1, 1⟩].
Definition rook_steps : list PiecePosition := [⟨-1, 0⟩; ⟨1, 0⟩; ⟨0, -1⟩; ⟨0, 1⟩].
Definition camel_steps : list PiecePosition := [⟨-1, -1⟩; ⟨-1, 1⟩; ⟨1, -1⟩; ⟨1, 1⟩].
Definition horse_jumps : list PiecePosition :=
  [⟨-2, -1⟩; ⟨-2, 1⟩; ⟨-1, -2⟩; ⟨-1, 2⟩; ⟨1, -2⟩; ⟨1, 2⟩; ⟨2, -1⟩; ⟨2, 1⟩].

#[export] Instance spec_tables : MovementTables := {
  KingMovement := king_steps;
  QueenMovement := rook_steps ++ camel_steps;
  RookMovement := rook_steps;
  HorseMovement := horse_jumps;
  CamelMovement := camel_steps;
  PawnMovement := [⟨-1, 0⟩];
  BlackKingMovement := king_steps;
  BlackHorseMovement := horse_jumps;
  BlackCamelMovement := camel_steps;
  BlackPawnMovement := [⟨1, 0⟩];
  BlackQueenMovement := rook_steps ++ camel_steps;
  BlackRookMovement := rook_steps
}.

(** No table of [spec_tables] holds the zero offset, so a candidate square
    is never the square the piece stands on. *)
Lemma spec_tables_nonzero (p : Piece) :
  Forall (fun v => v <> ⟨0, 0⟩) (@pieceMovementMap spec_tables p).
Proof. destruct p; repeat constructor; discriminate. Qed.
