(* ===== verification/Legality.v ===== *)
(** * Candidate squares and path obstruction

    The two computations of [src/src/chessboard.tsx] that decide where a
    piece may go:
    - [candidate_moves]: the body of [handlePieceClick] that maps the
      piece's offsets over its position and keeps the squares on the board
      (lines 139-144);
    - [isPathBlocked] (lines 187-236): two [while] loops that walk from the
      start towards the end square and answer [true] at the first occupied
      square. [walk] is one such loop with fuel: one unit of fuel per test of
      the loop condition, [OutOfFuel] when the fuel runs out.

    [squares_between] and [path_blocked_ref] are the reference definition
    (the squares strictly between two aligned squares, and whether one of
    them is occupied). The theorems show that the loops terminate on every
    pair of distinct squares with fuel at least their distance, and compute
    the reference; and that they never terminate when the two squares
    coincide and the diagonal below-left of the square is empty. *)

From stdpp Require Import base list strings options sets.
From Stdlib Require Import ZArith Lia.
From S2P Require Import Prelude Pieces Movement.

Open Scope Z_scope.
Open Scope chess_scope.

(** [Object.values(piecePositions).some((pos) => pos.x === cx && pos.y === cy)] *)
Definition occupied (pp : jsobj PiecePosition) (cx cy : Z) : bool :=
  existsb (fun pos => at_square pos cx cy) (obj_values pp).

Section Candidates.
Context `{MovementTables}.

(** Lines 139-144. [pieceMovementMap[piece].map(...)] throws when the key
    is not a piece; the callback reads [piecePositions[piece].x], which
    throws when the piece has no entry. *)
Definition candidate_moves (pp : jsobj PiecePosition) (piece : string)
    : outcome (list PiecePosition) :=
  match movement_of piece with
  | None => Thrown "TypeError: pieceMovementMap[piece] is undefined"
  | Some moves =>
      let* targets :=
        list_mapM (fun move =>
          match obj_get piece pp with
          | Some o => Ok (shift o move)
          | None => Thrown "TypeError: piecePositions[piece] is undefined"
          end) moves in
      Ok (List.filter on_board targets)
  end%string.
End Candidates.

(** One [while] loop of [isPathBlocked]:
    [while (x !== endPos.x || y !== endPos.y) {
       if (<occupied x y>) return true; x += stepX; y += stepY; }]
    [Ok false] is the normal exit of the loop, [Ok true] the [return true]. *)
Fixpoint walk (fuel : nat) (pp : jsobj PiecePosition) (cx cy stepX stepY : Z)
    (endPos : PiecePosition) : outcome bool :=
  match fuel with
  | O => OutOfFuel
  | S fuel' =>
      if negb (cx =? x endPos) || negb (cy =? y endPos) then
        if occupied pp cx cy then Ok true
        else walk fuel' pp (cx + stepX) (cy + stepY) stepX stepY endPos
      else Ok false
  end.

(** [isPathBlocked(piece, startPos, endPos)] (lines 187-236). The piece is
    not used by the code. *)
Definition isPathBlocked (fuel : nat) (pp : jsobj PiecePosition) (piece : string)
    (startPos endPos : PiecePosition) : outcome bool :=
  let dx := x endPos - x startPos in
  let dy := y endPos - y startPos in
  let* straight :=
    if (dx =? 0) || (dy =? 0) then
      let stepX := if dx =? 0 then 0 else if dx >? 0 then 1 else -1 in
      let stepY := if dy =? 0 then 0 else if dy >? 0 then 1 else -1 in
      walk fuel pp (x startPos + stepX) (y startPos + stepY) stepX stepY endPos
    else Ok false in
  if straight then Ok true
  else if Z.abs dx =? Z.abs dy then
    let stepX := if dx >? 0 then 1 else -1 in
    let stepY := if dy >? 0 then 1 else -1 in
    walk fuel pp (x startPos + stepX) (y startPos + stepY) stepX stepY endPos
  else Ok false.

(** ** Reference definition *)

(** The [n] squares from [(cx, cy)] on, [(stepX, stepY)] apart. *)
Fixpoint ray (cx cy stepX stepY : Z) (n : nat) : list PiecePosition :=
  match n with
  | O => []
  | S n' => ⟨cx, cy⟩ :: ray (cx + stepX) (cy + stepY) stepX stepY n'
  end.

Definition aligned (s e : PiecePosition) : bool :=
  let dx := x e - x s in
  let dy := y e - y s in
  (dx =? 0) || (dy =? 0) || (Z.abs dx =? Z.abs dy).

Definition distance (s e : PiecePosition) : Z :=
  Z.max (Z.abs (x e - x s)) (Z.abs (y e - y s)).

(** The squares strictly between two squares on one line. *)
Definition squares_between (s e : PiecePosition) : list PiecePosition :=
  let sx := Z.sgn (x e - x s) in
  let sy := Z.sgn (y e - y s) in
  ray (x s + sx) (y s + sy) sx sy (Z.to_nat (distance s e) - 1).

Definition path_blocked_ref (pp : jsobj PiecePosition) (s e : PiecePosition) : bool :=
  aligned s e && existsb (fun q => occupied pp (x q) (y q)) (squares_between s e).

(** ** Lemmas *)

Lemma occupied_spec pp a b :
  occupied pp a b = true <-> exists k, In (k, ⟨a, b⟩) pp.
Proof.
  unfold occupied. rewrite existsb_exists. split.
  - intros [[px py] [Hin Hat]]. unfold at_square in Hat. simpl in Hat.
    apply andb_prop in Hat as [Ha Hb]. apply Z.eqb_eq in Ha, Hb. subst.
    by apply obj_values_In.
  - intros Hk. exists ⟨a, b⟩. split; [by apply obj_values_In|].
    unfold at_square. simpl. by rewrite !Z.eqb_refl.
Qed.

Lemma step_sgn d : (if d =? 0 then 0 else if d >? 0 then 1 else -1) = Z.sgn d.
Proof. destruct (Z.eqb_spec d 0), (Z.gtb_spec d 0); lia. Qed.

Lemma step_sgn_nz d : d <> 0 -> (if d >? 0 then 1 else -1) = Z.sgn d.
Proof. intros. destruct (Z.gtb_spec d 0); lia. Qed.

Lemma pos_neq s e : s <> e <-> x e - x s <> 0 \/ y e - y s <> 0.
Proof.
  destruct s as [a b], e as [c d]; simpl. split.
  - intros Hne. destruct (decide (c - a = 0)), (decide (d - b = 0)); try tauto.
    exfalso. apply Hne. f_equal; lia.
  - intros Hd Heq. simplify_eq. lia.
Qed.

(** The loop exits after [n] steps when the end square is [n] steps away,
    and answers whether a square of the ray it walked is occupied. *)
Lemma walk_ray (n : nat) fuel pp cx cy stepX stepY e :
  (stepX <> 0 \/ stepY <> 0) ->
  x e = cx + Z.of_nat n * stepX -> y e = cy + Z.of_nat n * stepY ->
  (n < fuel)%nat ->
  walk fuel pp cx cy stepX stepY e =
    Ok (existsb (fun q => occupied pp (x q) (y q)) (ray cx cy stepX stepY n)).
Proof.
  revert fuel cx cy. induction n as [|n IH]; intros [|fuel] cx cy Hs Hx Hy Hf; try lia.
  - simpl. rewrite Hx, Hy, !Z.add_0_r, !Z.eqb_refl. reflexivity.
  - simpl. replace (negb (cx =? x e) || negb (cy =? y e)) with true
      by (destruct (Z.eqb_spec cx (x e)), (Z.eqb_spec cy (y e)); simpl; nia).
    destruct (occupied pp cx cy); [reflexivity|].
    apply IH; lia.
Qed.

(** On two distinct aligned squares, the unit step in the sign of each
    coordinate reaches the end square after [distance] steps. *)
Lemma walk_between fuel pp s e :
  s <> e -> aligned s e = true -> (Z.to_nat (distance s e) <= fuel)%nat ->
  walk fuel pp (x s + Z.sgn (x e - x s)) (y s + Z.sgn (y e - y s))
    (Z.sgn (x e - x s)) (Z.sgn (y e - y s)) e =
  Ok (existsb (fun q => occupied pp (x q) (y q)) (squares_between s e)).
Proof.
  intros Hne%pos_neq Hal Hf. unfold squares_between, aligned, distance in *.
  destruct (Z.sgn_spec (x e - x s)) as [[? ->]|[[? ->]|[? ->]]],
           (Z.sgn_spec (y e - y s)) as [[? ->]|[[? ->]|[? ->]]];
    apply orb_prop in Hal as [Hal|Hal]; try apply orb_prop in Hal as [Hal|Hal];
    apply Z.eqb_eq in Hal; apply walk_ray; lia.
Qed.

(** ** Theorems on [isPathBlocked] *)

(** The loops of [isPathBlocked] on two distinct squares compute the
    reference. *)
Lemma isPathBlocked_reference (fuel : nat) pp piece s e :
  s <> e -> (Z.to_nat (distance s e) <= fuel)%nat ->
  isPathBlocked fuel pp piece s e = Ok (path_blocked_ref pp s e).
Proof.
  intros Hne Hf. pose proof Hne as Hd%pos_neq.
  unfold isPathBlocked, path_blocked_ref. cbv zeta. rewrite !step_sgn.
  destruct ((x e - x s =? 0) || (y e - y s =? 0)) eqn:Hst.
  - assert (Hal : aligned s e = true) by (unfold aligned; by rewrite Hst).
    rewrite walk_between by done. rewrite Hal. simpl.
    destruct (existsb _ _); [done|].
    apply orb_prop in Hst as [H1|H1]; apply Z.eqb_eq in H1;
      replace (Z.abs (x e - x s) =? Z.abs (y e - y s)) with false
        by (symmetry; apply Z.eqb_neq; lia); done.
  - simpl. apply orb_false_iff in Hst as [H1 H2]. apply Z.eqb_neq in H1, H2.
    destruct (Z.abs (x e - x s) =? Z.abs (y e - y s)) eqn:Hdg.
    + rewrite !step_sgn_nz by done.
      assert (Hal : aligned s e = true) by (unfold aligned; by rewrite Hdg, orb_true_r).
      rewrite walk_between by done. by rewrite Hal.
    + unfold aligned. cbv zeta. apply Z.eqb_neq in H1, H2. by rewrite H1, H2, Hdg.
Qed.

(** C1: On two distinct squares, [isPathBlocked] terminates as soon as the
    fuel reaches the distance between them (at most 7 on the board), and
    answers the reference: the squares are on one rank, file or diagonal
    and a piece stands strictly between them. *)
Theorem isPathBlocked_correct (fuel : nat) pp piece s e :
  s <> e -> (Z.to_nat (distance s e) <= fuel)%nat ->
  isPathBlocked fuel pp piece s e = Ok (path_blocked_ref pp s e).
Proof. apply isPathBlocked_reference. Qed.

(** C32: A move that is not along a rank, file or diagonal (a knight's jump)
    is never reported blocked, whatever the fuel. *)
Theorem isPathBlocked_not_aligned (fuel : nat) pp piece s e :
  aligned s e = false -> isPathBlocked fuel pp piece s e = Ok false.
Proof.
  unfold aligned, isPathBlocked. cbv zeta. intros Hal.
  apply orb_false_iff in Hal as [Hst Hdg]. by rewrite Hst, Hdg.
Qed.

(** C33: A move to an adjacent square is never blocked. *)
Corollary isPathBlocked_adjacent (fuel : nat) pp piece s e :
  distance s e = 1 -> (1 <= fuel)%nat -> isPathBlocked fuel pp piece s e = Ok false.
Proof.
  intros Hd Hf. rewrite isPathBlocked_reference.
  - unfold path_blocked_ref, squares_between. rewrite Hd. simpl. by rewrite andb_false_r.
  - intros ->. unfold distance in Hd. lia.
  - lia.
Qed.

Lemma walk_at_end fuel pp sx sy e :
  walk (S fuel) pp (x e) (y e) sx sy e = Ok false.
Proof. simpl. by rewrite !Z.eqb_refl. Qed.

(** The walk below-left of a square never meets that square. *)
Lemma walk_down_left fuel pp s (k : Z) :
  1 <= k -> (forall j, k <= j -> occupied pp (x s - j) (y s - j) = false) ->
  walk fuel pp (x s - k) (y s - k) (-1) (-1) s = OutOfFuel.
Proof.
  revert k. induction fuel as [|fuel IH]; intros k Hk Hfree; [done|].
  simpl. replace (x s - k =? x s) with false by (symmetry; apply Z.eqb_neq; lia).
  rewrite Hfree by lia. simpl.
  replace (x s - k + -1) with (x s - (k + 1)) by lia.
  replace (y s - k + -1) with (y s - (k + 1)) by lia.
  apply IH; [lia|]. intros j Hj. apply Hfree. lia.
Qed.

(** The walk below-left of a square never exits normally. *)
Lemma walk_down_left_not_false fuel pp s (k : Z) :
  1 <= k -> walk fuel pp (x s - k) (y s - k) (-1) (-1) s <> Ok false.
Proof.
  revert k. induction fuel as [|fuel IH]; intros k Hk; [done|].
  simpl. replace (x s - k =? x s) with false by (symmetry; apply Z.eqb_neq; lia).
  simpl. destruct (occupied pp (x s - k) (y s - k)); [done|].
  replace (x s - k + -1) with (x s - (k + 1)) by lia.
  replace (y s - k + -1) with (y s - (k + 1)) by lia.
  apply IH. lia.
Qed.

(** [isPathBlocked] never answers "not blocked" on a square and itself. *)
Lemma isPathBlocked_same_not_false fuel pp piece s :
  isPathBlocked fuel pp piece s s <> Ok false.
Proof.
  unfold isPathBlocked. cbv zeta. rewrite !Z.sub_diag.
  destruct fuel as [|fuel]; [done|]. cbn -[walk].
  rewrite !Z.add_0_r, walk_at_end. cbn -[walk].
  replace (x s + -1) with (x s - 1) by lia. replace (y s + -1) with (y s - 1) by lia.
  apply walk_down_left_not_false. lia.
Qed.

(** The second loop of [isPathBlocked] on a square and itself. *)
Lemma isPathBlocked_same_square_loops (fuel : nat) pp piece s :
  (forall k, 1 <= k -> occupied pp (x s - k) (y s - k) = false) ->
  isPathBlocked fuel pp piece s s = OutOfFuel.
Proof.
  intros Hfree. unfold isPathBlocked. cbv zeta. rewrite !Z.sub_diag.
  destruct fuel as [|fuel]; [reflexivity|]. cbn -[walk].
  rewrite !Z.add_0_r, walk_at_end. cbn -[walk].
  replace (x s + -1) with (x s - 1) by lia. replace (y s + -1) with (y s - 1) by lia.
  apply walk_down_left; [lia|]. intros j Hj. apply Hfree. lia.
Qed.

(** C2: When the end square is the start square, the first loop exits at
    once, the diagonal test [Math.abs(0) === Math.abs(0)] holds and the
    second loop walks below-left for ever unless it meets a piece: with no
    piece on that diagonal, no amount of fuel is enough. *)
Theorem isPathBlocked_same_square_diverges (fuel : nat) pp piece s :
  (forall k, 1 <= k -> occupied pp (x s - k) (y s - k) = false) ->
  isPathBlocked fuel pp piece s s = OutOfFuel.
Proof. apply isPathBlocked_same_square_loops. Qed.

(** ** Theorems on candidate squares *)

Section CandidateTheorems.
Context `{MovementTables}.

(** The candidates of a piece with a position [o] are its offsets added to
    [o] that pass the filter, in the order of its table. *)
Lemma candidate_moves_eq pp piece o moves :
  movement_of piece = Some moves -> obj_get piece pp = Some o ->
  candidate_moves pp piece = Ok (List.filter on_board (map (shift o) moves)).
Proof.
  intros Hm Ho. unfold candidate_moves. rewrite Hm, Ho.
  by rewrite (list_mapM_Ok (shift o)).
Qed.

(** A successful [handlePieceClick] keeps only the targets on the board. *)
Lemma candidate_moves_Ok_filter pp piece ms :
  candidate_moves pp piece = Ok ms -> exists targets, ms = List.filter on_board targets.
Proof.
  unfold candidate_moves. destruct (movement_of piece); [|discriminate].
  intros (targets & _ & Hk)%obind_Ok. injection Hk as <-. by exists targets.
Qed.

(** C19: For a piece with a table and a position [o], candidate
    generation succeeds; every candidate has both coordinates in [0, 7]
    (specification 4.2 and 8); and every offset [v] of the table whose
    target [(x o + x v, y o + y v)] has both coordinates in [0, 7] is a
    candidate: nothing on the board is dropped. *)
Theorem candidate_moves_bounds pp piece o moves :
  movement_of piece = Some moves -> obj_get piece pp = Some o ->
  exists ms, candidate_moves pp piece = Ok ms /\
    (forall q, In q ms -> 0 <= x q <= 7 /\ 0 <= y q <= 7) /\
    (forall v, In v moves -> 0 <= x o + x v <= 7 -> 0 <= y o + y v <= 7 ->
       In ⟨x o + x v, y o + y v⟩ ms).
Proof.
  intros Hm Ho.
  assert (Hb : forall p, on_board p = true <-> 0 <= x p <= 7 /\ 0 <= y p <= 7).
  { intros p. unfold on_board. rewrite !andb_true_iff, !Z.leb_le, !Z.ltb_lt. lia. }
  eexists. split; [by apply candidate_moves_eq|]. split.
  - intros q [_ Hq]%filter_In. by apply Hb.
  - intros v Hv Hx Hy. apply filter_In. split.
    + apply (in_map (shift o)) in Hv. exact Hv.
    + by apply Hb.
Qed.


(** A key that is not a piece name makes [handlePieceClick] throw,
    and so does a piece with offsets but no entry in the positions. *)
Theorem candidate_moves_errors pp piece :
  (movement_of piece = None \/
   (exists moves, movement_of piece = Some moves /\ moves <> [] /\
                  obj_get piece pp = None)) ->
  exists err, candidate_moves pp piece = Thrown err.
Proof.
  unfold candidate_moves. intros [->|(moves & -> & Hne & ->)]; [by eexists|].
  destruct moves; [done|]. by eexists.
Qed.
End CandidateTheorems.

(** The scenario of the specification: from the initial layout the
    king at (7,4) has exactly the squares (6,3), (6,4), (6,5), (7,3) and
    (7,5); the three offsets towards rank 8 are dropped. *)
Example king_candidates_initial :
  obj_get "king" initialPositions = Some ⟨7, 4⟩ /\
  candidate_moves initialPositions "king" = Ok [⟨6, 3⟩; ⟨6, 4⟩; ⟨6, 5⟩; ⟨7, 3⟩; ⟨7, 5⟩].
Proof. split; vm_compute; reflexivity. Qed.

(** On a board whose pieces all have a non-negative second coordinate, no
    square with a negative one is occupied. *)
Lemma occupied_neg_y pp a b :
  Forall (fun p => 0 <= y p) (obj_values pp) -> b < 0 -> occupied pp a b = false.
Proof.
  intros Hall Hb. destruct (occupied pp a b) eqn:E; [|done].
  apply occupied_spec in E as [k Hin].
  rewrite Forall_forall in Hall.
  assert (0 <= y ⟨a, b⟩); [|simpl in *; lia].
  apply Hall, list_elem_of_In, obj_values_In. by exists k.
Qed.

(** ** Witnesses: the theorems above at concrete inputs *)

Lemma isPathBlocked_correct_witness :
  isPathBlocked 8 initialPositions "rook" ⟨7, 0⟩ ⟨0, 0⟩ =
    Ok (path_blocked_ref initialPositions ⟨7, 0⟩ ⟨0, 0⟩).
Proof. apply isPathBlocked_correct; [discriminate | vm_compute; lia]. Defined.

Lemma isPathBlocked_same_square_diverges_witness :
  isPathBlocked 20 initialPositions "rook" ⟨5, 0⟩ ⟨5, 0⟩ = OutOfFuel.
Proof.
  apply isPathBlocked_same_square_diverges. intros k Hk.
  apply occupied_neg_y; [apply (bool_decide_unpack _); vm_compute; reflexivity | simpl; lia].
Defined.

Lemma candidate_moves_bounds_witness :
  movement_of "king" = Some king_steps /\ obj_get "king" initialPositions = Some ⟨7, 4⟩ /\
  exists ms, candidate_moves initialPositions "king" = Ok ms /\
    (forall q, In q ms -> 0 <= x q <= 7 /\ 0 <= y q <= 7) /\
    (forall v, In v king_steps -> 0 <= 7 + x v <= 7 -> 0 <= 4 + y v <= 7 ->
       In ⟨7 + x v, 4 + y v⟩ ms).
Proof.
  assert (Hm : movement_of "king" = Some king_steps) by (vm_compute; reflexivity).
  assert (Ho : obj_get "king" initialPositions = Some ⟨7, 4⟩) by (vm_compute; reflexivity).
  split; [exact Hm|split; [exact Ho|]].
  exact (candidate_moves_bounds initialPositions "king" ⟨7, 4⟩ king_steps Hm Ho).
Defined.

Lemma isPathBlocked_not_aligned_witness :
  isPathBlocked 8 initialPositions "horse" ⟨7, 1⟩ ⟨5, 2⟩ = Ok false.
Proof. apply isPathBlocked_not_aligned. vm_compute. reflexivity. Defined.

Lemma isPathBlocked_adjacent_witness :
  isPathBlocked 1 initialPositions "king" ⟨7, 4⟩ ⟨6, 4⟩ = Ok false.
Proof. apply isPathBlocked_adjacent; [vm_compute; reflexivity | lia]. Defined.

Lemma candidate_moves_errors_witness :
  exists err, candidate_moves initialPositions "KingPosition" = Thrown err.
Proof. apply candidate_moves_errors. left. vm_compute. reflexivity. Defined.
