(* ===== verification/Board.v ===== *)
(** * The [Board] component

    The state of [Board] in [src/src/chessboard.tsx] (lines 94-96) is the
    record [BoardState]. Its handlers do not change the state directly:
    they enqueue React state updates ([Update]) and perform effects
    ([Effect]: toasts, the capture sound, the Firestore writes of
    [updatePositionInDatabase]). A handler is modelled as the function
    from the state it was rendered with (its closure) to the list of
    [Action]s it performs, in program order; [run] applies them to the
    current state. Functional updates ([setPiecePositions(prev => ...)])
    read the state they are applied to, not the closure.

    - [handlePieceClick] (lines 133-147), [handleMove] (238-284),
      [updatePositionInDatabase] (149-161) and the [onSnapshot] callback
      (171-181) are modelled from the source;
    - [cell_click] is the dispatch of a click on a rendered cell (288-349):
      a click on the piece button runs [handlePieceClick], then bubbles to
      the cell, whose handler runs [handleMove] when the cell is
      highlighted. Both handlers read the same rendered state. We model a
      throw in the first handler as aborting the click.

    The property "the move, when it completes, is committed as one step"
    is what [run] of the whole list gives; snapshots are separate events
    of a [session], between clicks. *)

From stdpp Require Import base list strings options sets.
From Stdlib Require Import ZArith Lia.
From S2P Require Import Prelude Pieces Movement Legality.

Open Scope Z_scope.
Open Scope chess_scope.

(** [useState] of lines 94-96. *)
Record BoardState := mkBoard {
  piecePositions : jsobj PiecePosition;
  selectedPiece : option string;
  availableMoves : list PiecePosition
}.

Definition initialBoard : BoardState := mkBoard initialPositions None [].

(** The state updates the handlers enqueue. *)
Inductive Update :=
  | SetSelected (p : option string)       (** [setSelectedPiece(p)] *)
  | SetMoves (ms : list PiecePosition)    (** [setAvailableMoves(ms)] *)
  | DeletePiece (k : string)              (** [prev => { copy; delete copy[k] }] *)
  | PutPiece (k : string) (p : PiecePosition)  (** [prev => ({...prev, [k]: p})] *)
  | MergeRemote (d : jsobj PiecePosition).     (** [prev => ({...prev, ...d})] *)

(** What the component does outside its state. *)
Inductive Effect :=
  | Toast (msg : string)
  | PlayCapture
  | Push (k : string) (p : PiecePosition).  (** [updateDoc(..., {[`playerPosition.${k}`]: p})] *)

Inductive Action :=
  | Upd (u : Update)
  | Eff (e : Effect).

Definition apply_update (s : BoardState) (u : Update) : BoardState :=
  match u with
  | SetSelected p => mkBoard (piecePositions s) p (availableMoves s)
  | SetMoves ms => mkBoard (piecePositions s) (selectedPiece s) ms
  | DeletePiece k => mkBoard (obj_delete k (piecePositions s)) (selectedPiece s) (availableMoves s)
  | PutPiece k p => mkBoard (obj_set k p (piecePositions s)) (selectedPiece s) (availableMoves s)
  | MergeRemote d => mkBoard (obj_spread (piecePositions s) d) (selectedPiece s) (availableMoves s)
  end.

(** Perform actions in order: the final state and the effects emitted. *)
Fixpoint run (s : BoardState) (acts : list Action) : BoardState * list Effect :=
  match acts with
  | [] => (s, [])
  | Upd u :: acts' => run (apply_update s u) acts'
  | Eff e :: acts' => let '(s', es) := run s acts' in (s', e :: es)
  end.

(** A room document: the field [playerPosition] may be absent. *)
Record RoomDoc := mkRoomDoc { playerPosition : option (jsobj PiecePosition) }.

(** [{x: -1, y: -1}], the position written for a captured piece. *)
Definition sentinel : PiecePosition := ⟨-1, -1⟩.

Section Handlers.
Context `{MovementTables}.
(** The prop [lobbyName]; [""] is the value before a room is joined. *)
Context (lobbyName : string).

(** [updatePositionInDatabase] (lines 149-161): nothing without a lobby.
    The failure toast of the [catch] belongs to the document store, which
    is not modelled: a push is an effect. *)
Definition updatePositionInDatabase (piece : string) (newPosition : PiecePosition)
    : list Action :=
  if bool_decide (lobbyName = "") then [] else [Eff (Push piece newPosition)].

(** [handlePieceClick] (lines 133-147). *)
Definition handlePieceClick (s : BoardState) (piece : string) : outcome (list Action) :=
  if bool_decide (selectedPiece s = Some piece) then
    Ok [Upd (SetSelected None); Upd (SetMoves [])]
  else
    let* moves := candidate_moves (piecePositions s) piece in
    Ok [Upd (SetSelected (Some piece)); Upd (SetMoves moves)].

(** The colour test of lines 255-260. *)
Definition opposite_colors (a b : string) : bool :=
  (is_black_name a && negb (is_black_name b)) ||
  (negb (is_black_name a) && is_black_name b).

(** [Object.entries(piecePositions).find(([piece, pos]) => pos.x === e.x && pos.y === e.y)] *)
Definition piece_at (pp : jsobj PiecePosition) (e : PiecePosition) : option (string * PiecePosition) :=
  obj_find (fun _ pos => at_square pos (x e) (y e)) pp.

(** [handleMove] (lines 238-284), with [fuel] for the loops of
    [isPathBlocked]. *)
Definition handleMove (fuel : nat) (s : BoardState) (position : PiecePosition)
    : outcome (list Action) :=
  match selectedPiece s with
  | None => Ok []
  | Some selected =>
      match obj_get selected (piecePositions s) with
      | None => Thrown "TypeError: Cannot read properties of undefined (reading 'x')"%string
      | Some startPos =>
          let* blocked := isPathBlocked fuel (piecePositions s) selected startPos position in
          if blocked then Ok [Eff (Toast "Move blocked by another piece"%string)]
          else
            let capture :=
              match piece_at (piecePositions s) position with
              | Some (captured, _) =>
                  if opposite_colors selected captured then
                    [Eff PlayCapture; Upd (DeletePiece captured)] ++
                    updatePositionInDatabase captured sentinel
                  else []
              | None => []
              end in
            Ok (capture ++ [Upd (PutPiece selected position)] ++
                updatePositionInDatabase selected position ++ [Upd (SetMoves [])])
      end
  end.

(** The [onSnapshot] callback (lines 171-181); [None] is a snapshot of a
    document that does not exist. *)
Definition onSnapshotCallback (snap : option RoomDoc) : list Action :=
  match snap with
  | None => [Eff (Toast "Lobby data not found")]
  | Some d => [Upd (MergeRemote (default [] (playerPosition d)))]
  end%string.

(** [isHighlighted] (lines 292-294). *)
Definition isHighlighted (s : BoardState) (r c : Z) : bool :=
  existsb (fun pos => at_square pos r c) (availableMoves s).

(** A click on the cell [(r, c)]; [on_piece] when it lands on the piece
    button the cell renders (lines 295-313). *)
Definition cell_click (fuel : nat) (s : BoardState) (r c : Z) (on_piece : bool)
    : outcome (list Action) :=
  let* first :=
    match on_piece, piece_at (piecePositions s) ⟨r, c⟩ with
    | true, Some (k, _) => handlePieceClick s k
    | _, _ => Ok []
    end in
  let* second :=
    if isHighlighted s r c then handleMove fuel s ⟨r, c⟩ else Ok [] in
  Ok (first ++ second).

(** A handler run against the current state. *)
Definition react (s : BoardState) (h : outcome (list Action))
    : outcome (BoardState * list Effect) :=
  let* acts := h in Ok (run s acts).
End Handlers.

(** ** Sessions: the events one client processes, one at a time

    The browser runs one handler at a time: a click on a cell or the
    delivery of a snapshot. [session] runs a sequence of them from a state
    and stops at the first handler that throws or loops. *)

Inductive Event :=
  | ClickCell (r c : Z) (on_piece : bool)
  | Snapshot (snap : option RoomDoc).

Section Session.
Context `{MovementTables}.
Context (lobbyName : string) (fuel : nat).

Definition dispatch (s : BoardState) (ev : Event) : outcome (list Action) :=
  match ev with
  | ClickCell r c on_piece => cell_click lobbyName fuel s r c on_piece
  | Snapshot snap => Ok (onSnapshotCallback snap)
  end.

Fixpoint session (s : BoardState) (evs : list Event) : outcome (BoardState * list Effect) :=
  match evs with
  | [] => Ok (s, [])
  | ev :: evs' =>
      let* r := react s (dispatch s ev) in
      let* r' := session r.1 evs' in
      Ok (r'.1, r.2 ++ r'.2)
  end.
End Session.

(** [createRoom] (room.tsx, lines 84-90) seeds the room document with three
    keys that are not piece names. *)
Definition createRoom_seed : RoomDoc :=
  mkRoomDoc (Some [("KingPosition", ⟨7, 4⟩); ("QueenPosition", ⟨7, 3⟩);
                   ("RookPosition", ⟨7, 0⟩)]%string).

(** ** Lemmas on running actions *)

Lemma run_app s a b :
  run s (a ++ b) = let '(s1, e1) := run s a in let '(s2, e2) := run s1 b in (s2, e1 ++ e2).
Proof.
  revert s. induction a as [|[u|e] a IH]; intros s; simpl.
  - by destruct (run s b).
  - apply IH.
  - rewrite IH. destruct (run s a) as [s1 e1]. by destruct (run s1 b).
Qed.

(** The writes [updatePositionInDatabase] performs. *)
Definition pushes (lobbyName k : string) (p : PiecePosition) : list Effect :=
  if bool_decide (lobbyName = "") then [] else [Push k p].

Lemma run_updatePositionInDatabase lobbyName s k p :
  run s (updatePositionInDatabase lobbyName k p) = (s, pushes lobbyName k p).
Proof. unfold updatePositionInDatabase, pushes. by case_bool_decide. Qed.

Lemma piece_at_Some pp e k p :
  piece_at pp e = Some (k, p) -> In (k, p) pp /\ p = e.
Proof.
  unfold piece_at. intros [Hin Hat]%obj_find_Some. split; [done|].
  unfold at_square in Hat. apply andb_prop in Hat as [Ha Hb].
  apply Z.eqb_eq in Ha, Hb. destruct p, e; simpl in *; by subst.
Qed.

Lemma opposite_colors_neq a b : opposite_colors a b = true -> a <> b.
Proof.
  unfold opposite_colors. intros Ho ->.
  destruct (is_black_name b); simpl in Ho; discriminate.
Qed.

#[export] Hint Rewrite run_app run_updatePositionInDatabase : jsobj.

(** Run a list of actions built with [++] and [updatePositionInDatabase]. *)
Ltac run_simpl :=
  repeat progress (rewrite ?run_app, ?run_updatePositionInDatabase, ?app_nil_r;
                   cbn [run apply_update piecePositions selectedPiece availableMoves app]).

(** Unfold a successful [handleMove] down to the actions it performs. *)
Ltac unfold_handleMove Hsel Hstart Hblk :=
  unfold react, handleMove; rewrite Hsel, Hstart, Hblk; cbn [obind].

Section BoardTheorems.
Context `{MovementTables}.
Context (lobbyName : string).
Context (fuel : nat) (s : BoardState) (sel : string) (startPos e : PiecePosition).
Hypothesis Hwf : obj_wf (piecePositions s).
Hypothesis Hsel : selectedPiece s = Some sel.
Hypothesis Hstart : obj_get sel (piecePositions s) = Some startPos.

(** C3: Moving onto a square whose first piece [cp] has the other
    colour captures it: [cp] loses its entry (one entry fewer), the mover
    stands on the square, every other piece keeps its position; the
    sound plays and the sentinel, then the move, are pushed. The
    selection is kept and the highlights cleared. *)
Theorem handleMove_capture cp cpos :
  isPathBlocked fuel (piecePositions s) sel startPos e = Ok false ->
  piece_at (piecePositions s) e = Some (cp, cpos) ->
  opposite_colors sel cp = true ->
  exists s', react s (handleMove lobbyName fuel s e) =
               Ok (s', PlayCapture :: pushes lobbyName cp sentinel ++ pushes lobbyName sel e) /\
    (forall k, obj_get k (piecePositions s') =
       if decide (k = sel) then Some e
       else if decide (k = cp) then None else obj_get k (piecePositions s)) /\
    length (piecePositions s') = pred (length (piecePositions s)) /\
    selectedPiece s' = Some sel /\ availableMoves s' = [].
Proof using Hwf Hsel Hstart.
  intros Hblk Hat Hopp. pose proof (opposite_colors_neq _ _ Hopp) as Hne.
  unfold_handleMove Hsel Hstart Hblk. rewrite Hat, Hopp.
  apply piece_at_Some in Hat as [Hin ->].
  run_simpl. eexists; split; [reflexivity|]. cbn. split_and!; [|..|done|done].
  - intros k. by rewrite obj_get_set, obj_get_delete.
  - rewrite obj_set_length, obj_delete_length; [done| |].
    + by rewrite (obj_In_get _ _ _ Hwf Hin).
    + rewrite obj_get_delete_ne by done. by rewrite Hstart.
Qed.
(** C25: A move to an empty square changes only the mover's entry (no
    key is added or removed) and pushes the move. *)
Theorem handleMove_quiet :
  isPathBlocked fuel (piecePositions s) sel startPos e = Ok false ->
  piece_at (piecePositions s) e = None ->
  exists s', react s (handleMove lobbyName fuel s e) = Ok (s', pushes lobbyName sel e) /\
    (forall k, obj_get k (piecePositions s') =
       if decide (k = sel) then Some e else obj_get k (piecePositions s)) /\
    obj_keys (piecePositions s') = obj_keys (piecePositions s) /\
    selectedPiece s' = Some sel /\ availableMoves s' = [].
Proof using Hsel Hstart.
  intros Hblk Hat. unfold_handleMove Hsel Hstart Hblk. rewrite Hat.
  run_simpl. eexists; split; [reflexivity|]. cbn. split_and!; [|..|done|done].
  - intros k. apply obj_get_set.
  - fold (obj_keys (obj_set sel e (piecePositions s))).
    rewrite obj_keys_set, decide_True; [done|].
    apply list_elem_of_In, in_map_iff. exists (sel, startPos).
    split; [done|]. by apply obj_get_In.
Qed.

(** C6: Moving onto a square held by a piece of the same colour is not
    rejected: the mover lands on it and both entries now name that
    square, so two pieces share one square; nothing is captured and only
    the move is pushed. *)
Theorem handleMove_own_piece_overlap cp cpos :
  isPathBlocked fuel (piecePositions s) sel startPos e = Ok false ->
  piece_at (piecePositions s) e = Some (cp, cpos) ->
  opposite_colors sel cp = false ->
  exists s', react s (handleMove lobbyName fuel s e) = Ok (s', pushes lobbyName sel e) /\
    cp <> sel /\
    obj_get sel (piecePositions s') = Some e /\
    obj_get cp (piecePositions s') = Some e.
Proof using Hwf Hsel Hstart.
  intros Hblk Hat Hopp.
  assert (startPos <> e) as Hse
    by (intros ->; by apply (isPathBlocked_same_not_false fuel (piecePositions s) sel e)).
  unfold_handleMove Hsel Hstart Hblk. rewrite Hat, Hopp.
  apply piece_at_Some in Hat as [Hin ->].
  assert (cp <> sel) as Hne.
  { intros ->. apply Hse. apply (obj_In_get _ _ _ Hwf) in Hin. congruence. }
  run_simpl. eexists; split; [reflexivity|]. cbn. split_and!; [done| |].
  - apply obj_get_set_eq.
  - rewrite obj_get_set_ne by done. by apply obj_In_get.
Qed.

(** C20: A blocked move changes nothing and only shows the warning. *)
Theorem handleMove_blocked :
  isPathBlocked fuel (piecePositions s) sel startPos e = Ok true ->
  react s (handleMove lobbyName fuel s e) =
    Ok (s, [Toast "Move blocked by another piece"%string]).
Proof using Hsel Hstart.
  intros Hblk. by unfold_handleMove Hsel Hstart Hblk.
Qed.
End BoardTheorems.

(** ** The snapshot callback *)

Section SnapshotTheorems.
Context (s : BoardState).

(** C17: A snapshot whose [playerPosition] is [d] sets every key of [d]
    to its remote value and leaves every other key, the selection and
    the highlights as they were; it emits nothing. *)
Theorem onSnapshot_merge (d : jsobj PiecePosition) :
  obj_wf d ->
  exists s', run s (onSnapshotCallback (Some (mkRoomDoc (Some d)))) = (s', []) /\
    (forall k, obj_get k (piecePositions s') =
       match obj_get k d with Some v => Some v | None => obj_get k (piecePositions s) end) /\
    selectedPiece s' = selectedPiece s /\ availableMoves s' = availableMoves s.
Proof.
  intros Hd. eexists; split; [reflexivity|]. cbn [run onSnapshotCallback apply_update default playerPosition piecePositions selectedPiece availableMoves app fst id].
  split_and!; [|done|done]. intros k. by apply obj_get_spread.
Qed.

(** C26: A snapshot that agrees with the local positions on every key it
    carries (the echo of local moves) leaves the state unchanged. *)
Theorem onSnapshot_echo_noop (d : jsobj PiecePosition) :
  obj_wf (piecePositions s) ->
  Forall (fun kv => obj_get kv.1 (piecePositions s) = Some kv.2) d ->
  run s (onSnapshotCallback (Some (mkRoomDoc (Some d)))) = (s, []).
Proof.
  intros Hwf Hall. cbn [run onSnapshotCallback apply_update default playerPosition piecePositions selectedPiece availableMoves app fst id]. rewrite obj_spread_id by done. by destruct s.
Qed.

(** A snapshot of a missing document only warns; one without a
    [playerPosition] field leaves the state unchanged. *)
Theorem onSnapshot_missing :
  run s (onSnapshotCallback None) = (s, [Toast "Lobby data not found"%string]) /\
  run s (onSnapshotCallback (Some (mkRoomDoc None))) = (s, []).
Proof. split; [reflexivity|]. by destruct s. Qed.
End SnapshotTheorems.

(** C27: Two snapshots carrying disjoint sets of keys give the same
    positions, as a map, in either order. *)
Theorem onSnapshot_disjoint_commute s d1 d2 :
  obj_wf d1 -> obj_wf d2 -> (forall k, k ∈ obj_keys d1 -> k ∉ obj_keys d2) ->
  obj_equiv
    (piecePositions (fst (run s (onSnapshotCallback (Some (mkRoomDoc (Some d1))) ++
                                 onSnapshotCallback (Some (mkRoomDoc (Some d2)))))))
    (piecePositions (fst (run s (onSnapshotCallback (Some (mkRoomDoc (Some d2))) ++
                                 onSnapshotCallback (Some (mkRoomDoc (Some d1))))))).
Proof.
  intros W1 W2 Hdis k. cbn [run onSnapshotCallback apply_update default playerPosition piecePositions selectedPiece availableMoves app fst id].
  rewrite !obj_get_spread by done.
  destruct (obj_get k d1) eqn:E1, (obj_get k d2) eqn:E2; try reflexivity.
  exfalso. by apply (Hdis k); eapply obj_get_Some_keys.
Qed.

(** ** Two sessions that go wrong *)

Section SameSquare.
Context `{MovementTables}.

(** A click on a highlighted square where the selected piece already
    stands never returns, when no piece lies below-left of it. *)
Lemma cell_click_same_square lobbyName fuel s sel e :
  selectedPiece s = Some sel -> obj_get sel (piecePositions s) = Some e ->
  isHighlighted s (x e) (y e) = true ->
  (forall k, 1 <= k -> occupied (piecePositions s) (x e - k) (y e - k) = false) ->
  cell_click lobbyName fuel s (x e) (y e) false = OutOfFuel.
Proof.
  intros Hsel Hget Hhl Hfree. unfold cell_click. cbn [obind]. rewrite Hhl.
  unfold handleMove. rewrite Hsel, Hget. destruct e as [a b].
  by rewrite isPathBlocked_same_square_loops.
Qed.
End SameSquare.

(** C8: The highlights are computed when a piece is selected and are not
    recomputed when a snapshot moves that piece. If a snapshot puts the
    selected rook on one of its highlighted squares, clicking that square
    calls [isPathBlocked] with equal start and end, and the click never
    finishes, whatever the fuel. *)
Theorem stale_highlight_never_returns (fuel : nat) :
  session "room1" fuel initialBoard
    [ClickCell 7 0 true; Snapshot (Some (mkRoomDoc (Some [("rook", ⟨6, 0⟩)]%string)));
     ClickCell 6 0 false] = OutOfFuel.
Proof.
  set (r1 := mkBoard initialPositions (Some "rook"%string) [⟨6, 0⟩; ⟨7, 1⟩]).
  set (r2 := mkBoard (obj_set "rook" ⟨6, 0⟩ initialPositions) (Some "rook"%string)
                     [⟨6, 0⟩; ⟨7, 1⟩]).
  assert (E1 : react initialBoard (dispatch "room1" fuel initialBoard (ClickCell 7 0 true))
               = Ok (r1, [])) by (vm_compute; reflexivity).
  assert (E2 : react r1 (dispatch "room1" fuel r1
                 (Snapshot (Some (mkRoomDoc (Some [("rook", ⟨6, 0⟩)]%string))))) = Ok (r2, []))
    by (vm_compute; reflexivity).
  assert (E3 : cell_click "room1" fuel r2 (x ⟨6, 0⟩) (y ⟨6, 0⟩) false = OutOfFuel).
  { apply cell_click_same_square with (sel := "rook"%string); [done|reflexivity|reflexivity|].
    intros k Hk. apply occupied_neg_y; [|simpl; lia].
    apply (bool_decide_unpack _). vm_compute. reflexivity. }
  cbn [session]. rewrite E1. cbn [obind fst snd]. rewrite E2. cbn [obind fst snd].
  unfold react at 1. cbn [dispatch]. simpl in E3. by rewrite E3.
Qed.

(** C9: In a room just created by [createRoom], the first snapshot adds
    the seed keys [KingPosition], [QueenPosition] and [RookPosition] as
    extra entries. Once the king leaves (7,4) the cell renders the phantom
    [KingPosition], and clicking it throws: it has no movement table. *)
Theorem phantom_seed_piece_throws :
  session "room1" 8 initialBoard
    [Snapshot (Some createRoom_seed); ClickCell 7 4 true; ClickCell 6 4 false;
     ClickCell 7 4 true] = Thrown "TypeError: pieceMovementMap[piece] is undefined"%string.
Proof. vm_compute. reflexivity. Qed.

(** ** Witnesses: the theorems above at concrete inputs *)

Definition pawn5_selected : BoardState := mkBoard initialPositions (Some "pawn5"%string) [].
Definition king_selected : BoardState := mkBoard initialPositions (Some "king"%string) [].
Definition rook_selected : BoardState := mkBoard initialPositions (Some "rook"%string) [].

Lemma handleMove_capture_witness :
  exists s', react pawn5_selected (handleMove "room1" 8 pawn5_selected ⟨1, 4⟩) =
      Ok (s', PlayCapture :: pushes "room1" "blackPawn5" sentinel ++ pushes "room1" "pawn5" ⟨1, 4⟩) /\
    (forall k, obj_get k (piecePositions s') =
       if decide (k = "pawn5"%string) then Some ⟨1, 4⟩
       else if decide (k = "blackPawn5"%string) then None
       else obj_get k (piecePositions pawn5_selected)) /\
    length (piecePositions s') = pred (length (piecePositions pawn5_selected)) /\
    selectedPiece s' = Some "pawn5"%string /\ availableMoves s' = [].
Proof.
  apply (handleMove_capture "room1" 8 pawn5_selected "pawn5" ⟨6, 4⟩ ⟨1, 4⟩
           initialPositions_wf eq_refl eq_refl "blackPawn5" ⟨1, 4⟩);
    vm_compute; reflexivity.
Defined.

Lemma handleMove_own_piece_overlap_witness :
  exists s', react king_selected (handleMove "room1" 8 king_selected ⟨6, 4⟩) =
      Ok (s', pushes "room1" "king" ⟨6, 4⟩) /\
    "pawn5"%string <> "king"%string /\
    obj_get "king" (piecePositions s') = Some ⟨6, 4⟩ /\
    obj_get "pawn5" (piecePositions s') = Some ⟨6, 4⟩.
Proof.
  apply (handleMove_own_piece_overlap "room1" 8 king_selected "king" ⟨7, 4⟩ ⟨6, 4⟩
           initialPositions_wf eq_refl eq_refl "pawn5" ⟨6, 4⟩);
    vm_compute; reflexivity.
Defined.

Lemma handleMove_blocked_witness :
  react rook_selected (handleMove "room1" 8 rook_selected ⟨0, 0⟩) =
    Ok (rook_selected, [Toast "Move blocked by another piece"%string]).
Proof.
  apply (handleMove_blocked "room1" 8 rook_selected "rook" ⟨7, 0⟩ ⟨0, 0⟩ eq_refl eq_refl).
  vm_compute. reflexivity.
Defined.

Lemma handleMove_quiet_witness :
  exists s', react pawn5_selected (handleMove "room1" 8 pawn5_selected ⟨3, 4⟩) =
      Ok (s', pushes "room1" "pawn5" ⟨3, 4⟩) /\
    (forall k, obj_get k (piecePositions s') =
       if decide (k = "pawn5"%string) then Some ⟨3, 4⟩
       else obj_get k (piecePositions pawn5_selected)) /\
    obj_keys (piecePositions s') = obj_keys (piecePositions pawn5_selected) /\
    selectedPiece s' = Some "pawn5"%string /\ availableMoves s' = [].
Proof.
  apply (handleMove_quiet "room1" 8 pawn5_selected "pawn5" ⟨6, 4⟩ ⟨3, 4⟩ eq_refl eq_refl);
    vm_compute; reflexivity.
Defined.

Lemma onSnapshot_merge_witness :
  exists s', run initialBoard (onSnapshotCallback (Some (mkRoomDoc (Some [("rook", ⟨6, 0⟩)]%string)))) = (s', []) /\
    (forall k, obj_get k (piecePositions s') =
       match obj_get k [("rook", ⟨6, 0⟩)]%string with
       | Some v => Some v | None => obj_get k (piecePositions initialBoard) end) /\
    selectedPiece s' = selectedPiece initialBoard /\ availableMoves s' = availableMoves initialBoard.
Proof. apply onSnapshot_merge. apply (bool_decide_unpack _). vm_compute. reflexivity. Defined.

Lemma onSnapshot_echo_noop_witness :
  run initialBoard (onSnapshotCallback (Some (mkRoomDoc (Some [("king", ⟨7, 4⟩)]%string)))) =
    (initialBoard, []).
Proof.
  apply onSnapshot_echo_noop; [exact initialPositions_wf|].
  repeat constructor.
Defined.

Lemma onSnapshot_disjoint_commute_witness :
  obj_equiv
    (piecePositions (fst (run initialBoard
       (onSnapshotCallback (Some (mkRoomDoc (Some [("rook", ⟨5, 0⟩)]%string))) ++
        onSnapshotCallback (Some (mkRoomDoc (Some [("king", ⟨5, 4⟩)]%string)))))))
    (piecePositions (fst (run initialBoard
       (onSnapshotCallback (Some (mkRoomDoc (Some [("king", ⟨5, 4⟩)]%string))) ++
        onSnapshotCallback (Some (mkRoomDoc (Some [("rook", ⟨5, 0⟩)]%string))))))).
Proof.
  apply onSnapshot_disjoint_commute;
    [apply (bool_decide_unpack _); vm_compute; reflexivity..|].
  intros k H1 H2. simpl in H1, H2.
  apply list_elem_of_singleton in H1, H2. congruence.
Defined.
