(* ===== verification/Render.v ===== *)
(** * What [Board] renders

    The JSX of [Board] ([src/src/chessboard.tsx] 286-351) draws an 8 by 8
    grid: [Array.from({length: 8}).map] over the rows, and over the cells
    of each row. A cell has its colour ([isWhite], line 291), its
    highlight ([isHighlighted], 292-294) and, when
    [Object.entries(piecePositions).find] finds an entry on it (295-297),
    a button with that entry's colour class and glyph (311-342).

    [render_cell] and [render_board] are that JSX as data: the rendered
    grid is a list of rows of [Cell]s. The piece a cell shows is
    [piece_at], the same search [cell_click] uses for the piece button, so
    what can be clicked is what is drawn. *)

From stdpp Require Import base list strings options.
From Stdlib Require Import ZArith Lia.
From S2P Require Import Prelude Pieces Movement Legality Board.

Open Scope Z_scope.
Open Scope chess_scope.

Section Glyphs.
Local Open Scope string_scope.

(** [(rowIndex + cellIndex) % 2 === 0] *)
Definition isWhite (r c : Z) : bool := Z.even (r + c).

(** The class of the piece button: [pieceEntry[0].includes('black')]. *)
Definition pieceTextColor (k : string) : string :=
  if is_black_name k then "text-black" else "text-white".

(** The glyph chosen by the chain of conditionals of lines 320-342. *)
Definition pieceGlyph (k : string) : string :=
  if bool_decide (k = "king") then "♔"
  else if bool_decide (k = "queen") then "♕"
  else if str_includes k "rook" then "♖"
  else if str_includes k "horse" then "♘"
  else if str_includes k "camel" then "♗"
  else if bool_decide (k = "blackKing") then "♚"
  else if bool_decide (k = "blackQueen") then "♛"
  else if str_includes k "blackRook" then "♜"
  else if str_includes k "blackHorse" then "♞"
  else if str_includes k "blackCamel" then "♝"
  else if str_includes k "blackPawn" then "♙"
  else "♙".
End Glyphs.

(** One rendered cell: its colour, its highlight, and the piece button it
    holds, if any: the key, its colour class and its glyph. *)
Record Cell := mkCell {
  cell_white : bool;
  cell_highlighted : bool;
  cell_piece : option (string * string * string)
}.

(** The cell of row [r] and column [c] (lines 290-346). *)
Definition render_cell (s : BoardState) (r c : Z) : Cell :=
  mkCell (isWhite r c) (isHighlighted s r c)
    (match piece_at (piecePositions s) ⟨r, c⟩ with
     | Some (k, _) => Some (k, pieceTextColor k, pieceGlyph k)
     | None => None
     end).

(** The grid (lines 288-349): [Array.from({length: 8}).map((_, i) => ...)]
    is a map over [seq 0 8]. *)
Definition render_board (s : BoardState) : list (list Cell) :=
  (fun r => (fun c => render_cell s (Z.of_nat r) (Z.of_nat c)) <$> seq 0 8) <$> seq 0 8.

(** The key whose button the cell holds. *)
Definition drawn_key (cl : Cell) : option string := fst ∘ fst <$> cell_piece cl.

(** [cn('... bg-gray-900 ...', isWhite && 'bg-gray-600', isHighlighted &&
    'border-white')]: the classes that change with the state; [cn] drops
    the [false] arguments. *)
Definition cell_classes (cl : Cell) : list string :=
  ((if cell_white cl then ["bg-gray-600"%string] else []) ++
   (if cell_highlighted cl then ["border-white"%string] else []))%list.

(** The Unicode chess symbols, by colour and archetype. *)
Definition unicode_glyph (c : Color) (a : Archetype) : string :=
  match c, a with
  | White, King => "♔" | White, Queen => "♕" | White, Rook => "♖"
  | White, Knight => "♘" | White, Bishop => "♗" | White, Pawn => "♙"
  | Black, King => "♚" | Black, Queen => "♛" | Black, Rook => "♜"
  | Black, Knight => "♞" | Black, Bishop => "♝" | Black, Pawn => "♟"
  end%string.

(** The actions that change the selection. *)
Definition sets_selection (a : Action) : bool :=
  match a with Upd (SetSelected _) => true | _ => false end.

(** ** Lemmas *)

Lemma run_fst_app s a b : (run s (a ++ b)).1 = (run (run s a).1 b).1.
Proof. rewrite run_app. destruct (run s a). by destruct (run _ b). Qed.

Lemma run_keeps_selected s acts :
  Forall (fun a => sets_selection a = false) acts ->
  selectedPiece (run s acts).1 = selectedPiece s.
Proof.
  revert s. induction acts as [|[u|e] acts IH]; intros s Hf; [done| |];
    apply Forall_cons in Hf as [Ha Hf]; simpl.
  - rewrite IH by done. by destruct u.
  - destruct (run s acts) as [s' es] eqn:E. simpl. by rewrite <- (IH s Hf), E.
Qed.

Lemma updatePositionInDatabase_no_select lobbyName k p :
  Forall (fun a => sets_selection a = false) (updatePositionInDatabase lobbyName k p).
Proof. unfold updatePositionInDatabase. case_bool_decide; repeat constructor. Qed.

#[local] Hint Resolve updatePositionInDatabase_no_select : core.

(** [handleMove] never changes the selection. *)
Lemma handleMove_no_select `{MovementTables} lobbyName fuel s e acts :
  handleMove lobbyName fuel s e = Ok acts -> Forall (fun a => sets_selection a = false) acts.
Proof.
  unfold handleMove. intros Hm.
  destruct (selectedPiece s) as [sel|]; [|by injection Hm as <-].
  destruct (obj_get sel _) as [st|]; [|done].
  destruct (isPathBlocked _ _ _ _ _) as [[]| |]; simpl in Hm; try discriminate.
  - injection Hm as <-. by repeat constructor.
  - injection Hm as <-.
    repeat match goal with
    | |- Forall _ (_ ++ _) => apply Forall_app_2
    | |- Forall _ (updatePositionInDatabase _ _ _) => apply updatePositionInDatabase_no_select
    | |- Forall _ (_ :: _) => constructor
    | |- Forall _ [] => constructor
    | |- Forall _ (match ?x with _ => _ end) => destruct x
    | |- Forall _ (if ?b then _ else _) => destruct b
    | |- _ = _ => reflexivity
    end.
Qed.

Lemma render_board_lookup s (r c : nat) :
  (r < 8)%nat -> (c < 8)%nat ->
  render_board s !! r ≫= (.!! c) = Some (render_cell s (Z.of_nat r) (Z.of_nat c)).
Proof.
  intros Hr Hc. unfold render_board.
  rewrite (list_lookup_fmap _ (seq 0 8) r), (lookup_seq_lt 0 8 r) by done.
  change (((fun c0 => render_cell s (Z.of_nat r) (Z.of_nat c0)) <$> seq 0 8) !! c =
          Some (render_cell s (Z.of_nat r) (Z.of_nat c))).
  by rewrite (list_lookup_fmap _ (seq 0 8) c), (lookup_seq_lt 0 8 c) by done.
Qed.

Lemma drawn_key_render s r c k :
  drawn_key (render_cell s r c) = Some k <->
  exists p, piece_at (piecePositions s) ⟨r, c⟩ = Some (k, p).
Proof.
  unfold drawn_key, render_cell. simpl.
  destruct (piece_at _ _) as [[k' p']|]; simpl; split.
  - intros [= ->]. eauto.
  - by intros [p [= -> _]].
  - done.
  - by intros [p ?].
Qed.

(** A key drawn in a cell sits on that cell. *)
Lemma drawn_key_position s r c k :
  drawn_key (render_cell s r c) = Some k ->
  In (k, ⟨r, c⟩) (piecePositions s).
Proof.
  intros [p Hp]%drawn_key_render. apply piece_at_Some in Hp as [Hin ->]. done.
Qed.

(** ** The glyph of each piece *)

(** Each of the 32 piece names is drawn in its colour and with the
    symbol of its archetype, except the eight black pawns, which get the
    white pawn symbol; the seed key [KingPosition] of [createRoom] is drawn
    as a white pawn. (Other keys fall through the [includes] tests: a key
    containing [rook] is drawn as a rook.) *)
Theorem pieceGlyph_pieces :
  (forall p, pieceTextColor (piece_name p) =
     (if bool_decide (piece_color p = Black) then "text-black" else "text-white")%string /\
   pieceGlyph (piece_name p) =
     unicode_glyph (if bool_decide (piece_archetype p = Pawn) then White else piece_color p)
       (piece_archetype p)) /\
  pieceGlyph "KingPosition" = unicode_glyph White Pawn /\
  pieceTextColor "KingPosition" = "text-white"%string.
Proof. split; [intros []; split|]; vm_compute; auto. Qed.

(** ** What a click can select *)

Lemma handlePieceClick_selects `{MovementTables} s k acts :
  handlePieceClick s k = Ok acts ->
  selectedPiece (run s acts).1 = None \/ selectedPiece (run s acts).1 = Some k.
Proof.
  unfold handlePieceClick. case_bool_decide.
  - intros [= <-]. by left.
  - destruct (candidate_moves _ _) as [ms| |]; simpl; try discriminate.
    intros [= <-]. by right.
Qed.

Section Selection.
Context `{MovementTables}.
Context (lobbyName : string) (fuel : nat).

(** C18: A click selects only what the grid shows: after a click on the
    cell [(r, c)], the selected piece is the one selected before or the
    piece whose button that cell draws. The piece button and the grid use
    the same search, so a piece hidden under another one on the same
    square cannot be selected. *)
Theorem select_only_drawn s r c on_piece acts k :
  cell_click lobbyName fuel s r c on_piece = Ok acts ->
  selectedPiece (run s acts).1 = Some k ->
  selectedPiece s = Some k \/ drawn_key (render_cell s r c) = Some k.
Proof.
  unfold cell_click.
  assert (Hsecond : forall a2, (if isHighlighted s r c then handleMove lobbyName fuel s ⟨r, c⟩
                                else Ok []) = Ok a2 ->
            Forall (fun a => sets_selection a = false) a2).
  { intros a2. destruct (isHighlighted s r c); [apply handleMove_no_select|by intros [= <-]]. }
  destruct on_piece; [destruct (piece_at _ _) as [[k' p]|] eqn:Hp|]; simpl;
    [destruct (handlePieceClick s k') as [a1| |] eqn:Ha; simpl; try discriminate| |];
    (destruct (if isHighlighted s r c then _ else _) as [a2| |] eqn:Hm; simpl; try discriminate);
    intros [= <-]; rewrite ?run_fst_app, run_keeps_selected by (by apply Hsecond); try by left.
  destruct (handlePieceClick_selects _ _ _ Ha) as [->| ->]; [done|].
  intros [= <-]. right. apply drawn_key_render. eauto.
Qed.
End Selection.

(** ** A piece hidden under another *)

Section Hidden.
Local Open Scope string_scope.

(** Outside a room, the king is selected and moved onto the square of
    [pawn5] by a click on the cell next to the pawn's button: a move onto
    a piece of its own colour (C6). *)
Definition overlap_state : BoardState :=
  match session "" 8 initialBoard [ClickCell 7 4 true; ClickCell 6 4 false] with
  | Ok (s, _) => s
  | _ => initialBoard
  end.

(** C7: After a move onto a piece of the same colour, the two pieces
    share a square but only the first of them in the positions object is
    drawn: [pawn5] is on the board, no cell of the grid shows it, and no
    click on any cell can select it. *)
Theorem hidden_piece_unselectable :
  obj_get "pawn5" (piecePositions overlap_state) = Some ⟨6, 4⟩ /\
  obj_get "king" (piecePositions overlap_state) = Some ⟨6, 4⟩ /\
  Forall (Forall (fun cl => drawn_key cl <> Some "pawn5")) (render_board overlap_state) /\
  forall fuel r c on_piece acts,
    cell_click "" fuel overlap_state r c on_piece = Ok acts ->
    selectedPiece (run overlap_state acts).1 <> Some "pawn5".
Proof.
  split_and!; [vm_compute; reflexivity|vm_compute; reflexivity
              |apply (bool_decide_unpack _); vm_compute; reflexivity|].
  intros fuel r c on_piece acts Hc Hsel.
  destruct (select_only_drawn "" fuel _ _ _ _ _ _ Hc Hsel) as [Hk|Hd];
    [vm_compute in Hk; discriminate|].
  pose proof Hd as Hdrawn. apply drawn_key_position, obj_In_get in Hd;
    [|apply (bool_decide_unpack _); vm_compute; reflexivity].
  vm_compute in Hd. injection Hd as <- <-. vm_compute in Hdrawn. discriminate.
Qed.
End Hidden.

(** ** Witnesses *)

Section RenderWitnesses.
Local Open Scope string_scope.

(** A click on the button of [pawn5] in the initial position. *)
Definition pawn5_click : list Action :=
  match cell_click "" 8 initialBoard 6 4 true with Ok a => a | _ => [] end.

Lemma select_only_drawn_witness :
  cell_click "" 8 initialBoard 6 4 true = Ok pawn5_click /\
  selectedPiece (run initialBoard pawn5_click).1 = Some "pawn5" /\
  (selectedPiece initialBoard = Some "pawn5" \/
   drawn_key (render_cell initialBoard 6 4) = Some "pawn5").
Proof.
  assert (Hc : cell_click "" 8 initialBoard 6 4 true = Ok pawn5_click)
    by (vm_compute; reflexivity).
  assert (Hs : selectedPiece (run initialBoard pawn5_click).1 = Some "pawn5")
    by (vm_compute; reflexivity).
  split; [exact Hc|split; [exact Hs|]].
  exact (select_only_drawn "" 8 initialBoard 6 4 true pawn5_click "pawn5" Hc Hs).
Defined.
End RenderWitnesses.
