(* ===== verification/Sync.v ===== *)
(** * Several boards sharing one room document

    [Board] models one client. Here several clients run the component
    [Board] of [src/src/chessboard.tsx] with the same [lobbyName] and share
    the document [doc(data, lobbyName, 'data')] of the store:

    - the server holds the document ([server], [None] when it does not
      exist);
    - every client has its board state, the queue of snapshots its
      [onSnapshot] listener has been sent and has not yet run ([inbox]),
      the handlers it has started and not finished ([inflight]), and the
      effects it has shown ([shown]);
    - a click computes the handler's actions from the board as it is
      ([cell_click] of [Board]) and adds them to [inflight]; each action is
      then a step of its own, so snapshots can be delivered between any two
      of them, at the [await]s of [handleMove] and elsewhere;
    - a write [updateDoc(..., {[`playerPosition.${k}`]: p})] changes the
      server document at once and sends the new document to every
      listener; it is rejected when the document does not exist, and the
      [catch] of [updatePositionInDatabase] shows a toast.

    The step function [sys_step] is executable; [sys_rel] is the step
    relation and reachability is stdpp's [rtc]. *)

From stdpp Require Import base list strings options sets relations.
From Stdlib Require Import ZArith Lia.
From S2P Require Import Prelude Pieces Movement Legality Board.

Open Scope Z_scope.
Open Scope chess_scope.

(** [groupSnap.data().playerPosition], [{}] when the field is absent (the
    spread of [undefined] adds nothing). *)
Definition doc_positions (r : RoomDoc) : jsobj PiecePosition :=
  default [] (playerPosition r).

(** [updateDoc(doc(data, lobbyName, 'data'), {[`playerPosition.${k}`]: p})]
    (lines 154-156): the dot path sets one key of the map field, creating
    the field if needed; the store rejects an update of a document that
    does not exist. *)
Definition set_position (k : string) (p : PiecePosition) (r : RoomDoc) : RoomDoc :=
  mkRoomDoc (Some (obj_set k p (doc_positions r))).

Definition updateDoc_position (k : string) (p : PiecePosition) (d : option RoomDoc)
    : option RoomDoc :=
  match d with
  | None => None
  | Some r => Some (set_position k p r)
  end.

(** The toast of the [catch] of [updatePositionInDatabase] (line 159). *)
Definition update_failed (k : string) : Effect :=
  Toast ("Failed to update " +:+ k +:+ " position").

(** The [useEffect] of lines 163-185: without a lobby, a toast and no
    listener; with one, a listener whose first snapshot is the document as
    it is when it subscribes. *)
Definition boardSubscription (lobbyName : string) (d : option RoomDoc)
    : list (option RoomDoc) * list Effect :=
  if bool_decide (lobbyName = "") then ([], [Toast "You are not in a lobby"])
  else ([d], []).

Record Client := mkClient {
  board : BoardState;
  inbox : list (option RoomDoc);
  inflight : list (list Action);
  shown : list Effect
}.

Record Sys := mkSys { server : option RoomDoc; clients : list Client }.

(** A client when the component mounts. *)
Definition client_init (lobbyName : string) (d : option RoomDoc) : Client :=
  let '(q, es) := boardSubscription lobbyName d in mkClient initialBoard q [] es.

Definition sys_init (lobbyName : string) (n : nat) (d : option RoomDoc) : Sys :=
  mkSys d (replicate n (client_init lobbyName d)).

(** The events of the system: a click on a cell of client [c], the next
    action of the [i]-th handler of client [c], the delivery of the next
    snapshot to the listener of client [c]. *)
Inductive Label :=
  | Click (c : nat) (r col : Z) (on_piece : bool)
  | Exec (c i : nat)
  | Deliver (c : nat).

Definition set_client (s : Sys) (c : nat) (cl : Client) : Sys :=
  mkSys (server s) (<[c := cl]> (clients s)).

(** Every listener is sent the new document. *)
Definition notify (d : RoomDoc) (cls : list Client) : list Client :=
  map (fun cl => mkClient (board cl) (inbox cl ++ [Some d]) (inflight cl) (shown cl)) cls.

(** One action of client [c], whose record is [cl]. *)
Definition exec_action (s : Sys) (c : nat) (cl : Client) (a : Action) : Sys :=
  match a with
  | Upd u =>
      set_client s c (mkClient (apply_update (board cl) u) (inbox cl) (inflight cl) (shown cl))
  | Eff (Push k p) =>
      match updateDoc_position k p (server s) with
      | Some d =>
          mkSys (Some d)
            (notify d (<[c := mkClient (board cl) (inbox cl) (inflight cl)
                                       (shown cl ++ [Push k p])]> (clients s)))
      | None =>
          set_client s c (mkClient (board cl) (inbox cl) (inflight cl)
                                   (shown cl ++ [Push k p; update_failed k]))
      end
  | Eff e => set_client s c (mkClient (board cl) (inbox cl) (inflight cl) (shown cl ++ [e]))
  end.

Section System.
Context `{MovementTables}.
Context (lobbyName : string) (fuel : nat).

(** A click that throws is reported by React and changes nothing; a click
    whose handler loops for ever hangs the page: there is no next step. *)
Definition sys_step (s : Sys) (l : Label) : option Sys :=
  match l with
  | Click c r col on_piece =>
      cl ← clients s !! c;
      match cell_click lobbyName fuel (board cl) r col on_piece with
      | Ok acts =>
          Some (set_client s c (mkClient (board cl) (inbox cl) (inflight cl ++ [acts]) (shown cl)))
      | Thrown _ => Some s
      | OutOfFuel => None
      end
  | Exec c i =>
      cl ← clients s !! c;
      match inflight cl !! i with
      | Some (a :: rest) =>
          Some (exec_action s c (mkClient (board cl) (inbox cl) (<[i := rest]> (inflight cl))
                                          (shown cl)) a)
      | _ => None
      end
  | Deliver c =>
      cl ← clients s !! c;
      match inbox cl with
      | [] => None
      | snap :: q =>
          let '(b, es) := run (board cl) (onSnapshotCallback snap) in
          Some (set_client s c (mkClient b q (inflight cl) (shown cl ++ es)))
      end
  end.

Definition sys_rel (s s' : Sys) : Prop := exists l, sys_step s l = Some s'.

Fixpoint sys_run (s : Sys) (ls : list Label) : option Sys :=
  match ls with
  | [] => Some s
  | l :: ls' => s' ← sys_step s l; sys_run s' ls'
  end.
End System.

(** ** Local changes paired with their writes *)

(** An action list in which every change of a position is immediately
    followed by the write of the same position (of the sentinel for a
    deletion), and which never merges a snapshot: the shape of the lists
    [handleMove] and [handlePieceClick] produce in a lobby. *)
Fixpoint paired (l : list Action) : bool :=
  match l with
  | [] => true
  | Upd (PutPiece k p) :: Eff (Push k' p') :: l' =>
      bool_decide (k' = k /\ p' = p) && paired l'
  | Upd (DeletePiece k) :: Eff (Push k' p') :: l' =>
      bool_decide (k' = k /\ p' = sentinel) && paired l'
  | Upd (PutPiece _ _ | DeletePiece _ | MergeRemote _) :: _ => false
  | Upd _ :: l' => paired l'
  | Eff (Push _ _) :: _ => false
  | Eff _ :: l' => paired l'
  end.

(** What is left of such a list after some of its actions: possibly a
    write whose local change has already been made. *)
Definition pending_ok (l : list Action) : bool :=
  match l with
  | Eff (Push _ _) :: l' => paired l'
  | _ => paired l
  end.

(** Client [cl] has changed key [j] locally and not yet written it. *)
Definition owes (cl : Client) (j : string) : Prop :=
  exists i v rest, inflight cl !! i = Some (Eff (Push j v) :: rest).

Lemma paired_app a b : paired a = true -> paired b = true -> paired (a ++ b) = true.
Proof.
  remember (length a) as n eqn:Hn. revert a Hn.
  induction n as [n IH] using lt_wf_ind. intros a -> Ha Hb.
  destruct a as [|[[]|[]] a]; simpl in *; try done;
    try (apply (IH (length a)); [simpl; lia|done..]).
  all: destruct a as [|[|[]] a]; simpl in *; try done;
    try (apply (IH (length (_ :: a))); [simpl; lia|done..]).
  all: apply andb_prop in Ha as [Ha1 Ha2]; rewrite Ha1;
    apply (IH (length a)); [simpl; lia|done..].
Qed.

Lemma paired_pending_ok l : paired l = true -> pending_ok l = true.
Proof. by destruct l as [|[u|[]] l]. Qed.

Lemma pending_ok_tail a l : pending_ok (a :: l) = true -> pending_ok l = true.
Proof.
  destruct a as [[]|[]]; simpl; try apply paired_pending_ok; try done.
  all: destruct l as [|[u|[]] l]; simpl; try done.
  all: try (intros Hp; apply andb_prop in Hp as [_ Hp]; done).
  all: destruct u; done.
Qed.

#[export] Hint Resolve paired_app paired_pending_ok pending_ok_tail : jsobj.

Section HandlerPairing.
Context `{MovementTables}.
Context (lobbyName : string) (fuel : nat).
Hypothesis Hlobby : lobbyName <> "".

Lemma updatePositionInDatabase_lobby k p :
  updatePositionInDatabase lobbyName k p = [Eff (Push k p)].
Proof using Hlobby. unfold updatePositionInDatabase. by rewrite bool_decide_false. Qed.

Lemma handlePieceClick_paired s k acts :
  handlePieceClick s k = Ok acts -> paired acts = true.
Proof.
  unfold handlePieceClick. case_bool_decide; [by intros [= <-]|].
  destruct (candidate_moves _ _); simpl; by intros [= <-].
Qed.

Lemma handleMove_paired s e acts :
  handleMove lobbyName fuel s e = Ok acts -> paired acts = true.
Proof using Hlobby.
  unfold handleMove.
  destruct (selectedPiece s) as [sel|]; [|by intros [= <-]].
  destruct (obj_get sel _) as [st|]; [|done].
  destruct (isPathBlocked _ _ _ _ _) as [[]| |]; simpl; try done; [by intros [= <-]|].
  rewrite !updatePositionInDatabase_lobby. intros [= <-]. apply paired_app.
  - destruct (piece_at _ _) as [[cp cpos]|]; [|done].
    destruct (opposite_colors _ _); [|done].
    rewrite updatePositionInDatabase_lobby. simpl. case_bool_decide; naive_solver.
  - simpl. case_bool_decide; naive_solver.
Qed.

Lemma cell_click_paired s r c on_piece acts :
  cell_click lobbyName fuel s r c on_piece = Ok acts -> paired acts = true.
Proof using Hlobby.
  unfold cell_click. intros (a1 & H1 & (a2 & H2 & [= <-])%obind_Ok)%obind_Ok.
  apply paired_app.
  - destruct on_piece, (piece_at (piecePositions s) ⟨r, c⟩) as [[k p]|];
      inversion H1; subst; try done.
    by eapply handlePieceClick_paired.
  - destruct (isHighlighted _ _ _); [by eapply handleMove_paired|by inversion H2].
Qed.
End HandlerPairing.

(** ** The invariant of a client

    Relative to the server document [r], whose positions are [S]:
    - the board is a well-formed object and every in-flight handler is
      what is left of a paired list;
    - every queued snapshot is an existing document whose keys are keys of
      [S], and the last one is [r] itself;
    - a key [S] does not carry, and that the client has not changed
      without writing it, has its initial position on the board;
    - once the queue is empty, a key [S] carries, and that the client has
      not changed without writing it, has the position [S] gives. *)
Record client_inv (r : RoomDoc) (cl : Client) : Prop := {
  ci_wf : obj_wf (piecePositions (board cl));
  ci_pending : Forall (fun l => pending_ok l = true) (inflight cl);
  ci_inbox : Forall (fun d => exists r', d = Some r' /\ obj_wf (doc_positions r') /\
                        obj_keys (doc_positions r') ⊆ obj_keys (doc_positions r)) (inbox cl);
  ci_last : forall d, last (inbox cl) = Some d -> d = Some r;
  ci_untouched : forall j, j ∉ obj_keys (doc_positions r) -> ~ owes cl j ->
      obj_get j (piecePositions (board cl)) = obj_get j initialPositions;
  ci_synced : inbox cl = [] -> forall j, j ∈ obj_keys (doc_positions r) -> ~ owes cl j ->
      obj_get j (piecePositions (board cl)) = obj_get j (doc_positions r)
}.

Definition sys_inv (s : Sys) : Prop :=
  exists r, server s = Some r /\ obj_wf (doc_positions r) /\ Forall (client_inv r) (clients s).

(** *** Facts on [owes] *)

Lemma owes_app cl l j :
  owes cl j -> owes (mkClient (board cl) (inbox cl) (inflight cl ++ [l]) (shown cl)) j.
Proof.
  intros (i & v & rest & Hi). exists i, v, rest. simpl.
  rewrite lookup_app_l; [done|]. by apply lookup_lt_Some in Hi.
Qed.

Lemma owes_insert cl i l0 rest b q sh j :
  inflight cl !! i = Some l0 -> owes cl j ->
  (exists v r, l0 = Eff (Push j v) :: r) \/ owes (mkClient b q (<[i := rest]> (inflight cl)) sh) j.
Proof.
  intros Hl0 (i' & v & r & Hi'). destruct (decide (i = i')) as [<-|Hne].
  - left. rewrite Hl0 in Hi'. injection Hi' as ->. eauto.
  - right. exists i', v, r. simpl. by rewrite list_lookup_insert_ne.
Qed.

Lemma owes_head cl i k v rest :
  inflight cl !! i = Some (Eff (Push k v) :: rest) -> owes cl k.
Proof. intros Hi. by exists i, v, rest. Qed.

(** A client whose positions and queue are unchanged, whose handlers are
    still well formed and who owes at least what it owed, keeps the
    invariant. *)
Lemma client_inv_mono r cl cl' :
  client_inv r cl ->
  piecePositions (board cl') = piecePositions (board cl) -> inbox cl' = inbox cl ->
  Forall (fun l => pending_ok l = true) (inflight cl') ->
  (forall j, owes cl j -> owes cl' j) ->
  client_inv r cl'.
Proof.
  intros [] Hb Hq Hp Ho. split; rewrite ?Hb, ?Hq; auto.
Qed.

(** A local change of the key [k] that leaves the client owing [k]. *)
Lemma client_inv_change r cl cl' k :
  client_inv r cl ->
  obj_wf (piecePositions (board cl')) -> inbox cl' = inbox cl ->
  Forall (fun l => pending_ok l = true) (inflight cl') ->
  (forall j, j <> k ->
     obj_get j (piecePositions (board cl')) = obj_get j (piecePositions (board cl))) ->
  owes cl' k -> (forall j, owes cl j -> owes cl' j) ->
  client_inv r cl'.
Proof.
  intros [] Hw Hq Hp Hchg Hk Ho. split; rewrite ?Hq; auto.
  - intros j Hj Hno. rewrite Hchg by congruence. auto.
  - intros Hnil j Hj Hno. rewrite Hchg by congruence. auto.
Qed.

(** The write of [k] by some client, seen from a client [cl] that becomes
    [cl'] (the writer pays its debt on [k]; any other client is [cl]
    itself): the new document is queued. *)
Lemma client_inv_write r k v cl cl' :
  obj_wf (doc_positions r) -> client_inv r cl ->
  piecePositions (board cl') = piecePositions (board cl) -> inbox cl' = inbox cl ->
  Forall (fun l => pending_ok l = true) (inflight cl') ->
  (forall j, owes cl j -> j = k \/ owes cl' j) ->
  client_inv (set_position k v r)
    (mkClient (board cl') (inbox cl' ++ [Some (set_position k v r)]) (inflight cl') (shown cl')).
Proof.
  intros HwS [] Hb Hq Hp Ho. split; simpl; rewrite ?Hb, ?Hq; auto.
  - apply Forall_app. split.
    + eapply Forall_impl; [done|]. intros d (r' & -> & Hw & Hs).
      exists r'. split_and!; [done|done|]. etrans; [done|apply obj_keys_set_sub].
    + constructor; [|done]. eexists. split_and!; [done|by apply obj_set_wf|done].
  - intros d. rewrite last_snoc. congruence.
  - intros j Hj Hno.
    change (doc_positions (set_position k v r)) with (obj_set k v (doc_positions r)) in Hj.
    rewrite elem_of_obj_keys_set in Hj.
    apply ci_untouched0; [tauto|]. intros Hj'. destruct (Ho j Hj'); tauto.
  - intros Hnil. by destruct (inbox cl).
Qed.

(** Running the snapshot [snap], the head of the queue. *)
Lemma client_inv_deliver r cl snap q b es :
  client_inv r cl -> inbox cl = snap :: q ->
  run (board cl) (onSnapshotCallback snap) = (b, es) ->
  client_inv r (mkClient b q (inflight cl) (shown cl ++ es)).
Proof.
  intros [] Hq Hrun. rewrite Hq in ci_inbox0, ci_last0, ci_synced0.
  apply Forall_cons in ci_inbox0 as [(r' & -> & Hw' & Hs') Htl].
  simpl in Hrun. injection Hrun as <- <-. fold (doc_positions r').
  split; simpl; auto with jsobj.
  - intros d Hd. apply ci_last0. rewrite last_cons, Hd. done.
  - intros j Hj Hno. rewrite obj_get_spread_notin by set_solver. auto.
  - intros -> j Hj Hno. assert (r' = r) as -> by (injection (ci_last0 (Some r') eq_refl); done).
    by apply obj_get_spread_in.
Qed.

(** The [i]-th handler of the client performs its next action, a state
    update. *)
Lemma client_inv_update r cl i u rest :
  client_inv r cl -> inflight cl !! i = Some (Upd u :: rest) ->
  client_inv r (mkClient (apply_update (board cl) u) (inbox cl)
                         (<[i := rest]> (inflight cl)) (shown cl)).
Proof.
  intros Hinv Hi. pose proof (ci_pending _ _ Hinv) as Hp.
  pose proof (Forall_lookup_1 _ _ _ _ Hp Hi) as Hok. cbv beta in Hok.
  assert (Hp' : Forall (fun l => pending_ok l = true) (<[i := rest]> (inflight cl)))
    by (apply Forall_insert; eauto with jsobj).
  assert (Ho : forall j, owes cl j ->
            owes (mkClient (apply_update (board cl) u) (inbox cl)
                           (<[i := rest]> (inflight cl)) (shown cl)) j)
    by (intros j Hj; destruct (owes_insert _ _ _ rest (apply_update (board cl) u)
                                 (inbox cl) (shown cl) _ Hi Hj) as [(? & ? & ?)|];
              [congruence|done]).
  destruct u as [p|ms|k|k p|d]; simpl in Hok.
  - by eapply client_inv_mono.
  - by eapply client_inv_mono.
  - destruct rest as [|[|[| |k' p']] rest]; try done.
    apply andb_prop in Hok as [Hkp _]. apply bool_decide_eq_true in Hkp as [-> ->].
    apply (client_inv_change _ _ _ k Hinv); [|done|done| | |exact Ho].
    + apply obj_delete_wf, (ci_wf _ _ Hinv).
    + intros j Hj. apply obj_get_delete_ne. congruence.
    + eapply owes_head. simpl.
      by rewrite list_lookup_insert_eq by (by apply lookup_lt_Some in Hi).
  - destruct rest as [|[|[| |k' p']] rest]; try done.
    apply andb_prop in Hok as [Hkp _]. apply bool_decide_eq_true in Hkp as [-> ->].
    apply (client_inv_change _ _ _ k Hinv); [|done|done| | |exact Ho].
    + apply obj_set_wf, (ci_wf _ _ Hinv).
    + intros j Hj. apply obj_get_set_ne. congruence.
    + eapply owes_head. simpl.
      by rewrite list_lookup_insert_eq by (by apply lookup_lt_Some in Hi).
  - done.
Qed.

(** *** Every step keeps the invariant *)

Section Preservation.
Context `{MovementTables}.
Context (lobbyName : string) (fuel : nat).
Hypothesis Hlobby : lobbyName <> "".

Lemma sys_inv_set_client s r c cl :
  server s = Some r -> obj_wf (doc_positions r) -> Forall (client_inv r) (clients s) ->
  client_inv r cl -> sys_inv (set_client s c cl).
Proof. intros Hs Hw Hall Hcl. exists r. split_and!; [done|done|]. by apply Forall_insert. Qed.

Lemma sys_step_inv s l s' :
  sys_inv s -> sys_step lobbyName fuel s l = Some s' -> sys_inv s'.
Proof using Hlobby.
  intros (r & Hsrv & Hwf & Hall).
  destruct l as [c row col op|c i|c]; simpl;
    destruct (clients s !! c) as [cl|] eqn:Hc; simpl; try done;
    pose proof (Forall_lookup_1 _ _ _ _ Hall Hc) as Hcl.
  - destruct (cell_click _ _ _ _ _ _) as [acts| |] eqn:Hclick; intros; simplify_eq;
      [|by exists r].
    eapply sys_inv_set_client; eauto. eapply client_inv_mono; eauto; simpl.
    + apply Forall_app. split; [apply (ci_pending _ _ Hcl)|].
      constructor; [|done]. eauto using paired_pending_ok, cell_click_paired.
    + intros j. apply owes_app.
  - destruct (inflight cl !! i) as [[|a rest]|] eqn:Hi; try done. intros [= <-].
    pose proof (Forall_lookup_1 _ _ _ _ (ci_pending _ _ Hcl) Hi) as Hok. cbv beta in Hok.
    assert (Hp' : Forall (fun l => pending_ok l = true) (<[i := rest]> (inflight cl)))
      by (apply Forall_insert; [apply (ci_pending _ _ Hcl)|eauto with jsobj]).
    destruct a as [u|[msg| |k v]]; simpl.
    + eapply sys_inv_set_client; eauto using client_inv_update.
    + eapply sys_inv_set_client; eauto. eapply client_inv_mono; eauto.
      intros j Hj. destruct (owes_insert _ _ _ rest (board cl) (inbox cl)
                               (shown cl ++ [Toast msg]) _ Hi Hj) as [(? & ? & ?)|];
        [congruence|done].
    + eapply sys_inv_set_client; eauto. eapply client_inv_mono; eauto.
      intros j Hj. destruct (owes_insert _ _ _ rest (board cl) (inbox cl)
                               (shown cl ++ [PlayCapture]) _ Hi Hj) as [(? & ? & ?)|];
        [congruence|done].
    + rewrite Hsrv. simpl. exists (set_position k v r). split_and!; [done|by apply obj_set_wf|].
      apply Forall_fmap, Forall_insert.
      * eapply Forall_impl; [done|]. intros cl' Hcl'. simpl.
        apply (client_inv_write _ _ _ cl' cl'); auto. apply (ci_pending _ _ Hcl').
      * apply (client_inv_write _ _ _ cl); auto.
        intros j Hj. destruct (owes_insert _ _ _ rest (board cl) (inbox cl)
                                 (shown cl ++ [Push k v]) _ Hi Hj) as [(? & ? & Heq)|];
          [injection Heq; auto|auto].
  - destruct (inbox cl) as [|snap q] eqn:Hq; [done|].
    destruct (run (board cl) (onSnapshotCallback snap)) as [b es] eqn:Hrun. intros [= <-].
    eapply sys_inv_set_client; eauto using client_inv_deliver.
Qed.

Lemma rtc_sys_inv s s' :
  sys_inv s -> rtc (sys_rel lobbyName fuel) s s' -> sys_inv s'.
Proof using Hlobby.
  intros Hs Hr. induction Hr as [|s1 s2 s3 [l Hl] _ IH]; [done|].
  apply IH. by eapply sys_step_inv.
Qed.

(** A board that mounts on the document [r] satisfies the invariant:
    its first snapshot is [r] itself. *)
Lemma client_init_inv r :
  obj_wf (doc_positions r) -> client_inv r (client_init lobbyName (Some r)).
Proof using Hlobby.
  intros Hw. unfold client_init, boardSubscription. rewrite bool_decide_false by done.
  split; simpl.
  - apply initialPositions_wf.
  - done.
  - constructor; [|done]. eexists. split_and!; [done|done|done].
  - intros d [= <-]. done.
  - done.
  - done.
Qed.

Lemma sys_init_inv r n :
  obj_wf (doc_positions r) -> sys_inv (sys_init lobbyName n (Some r)).
Proof using Hlobby.
  intros Hw. exists r. split_and!; [done|done|]. apply Forall_replicate.
  by apply client_init_inv.
Qed.

(** A client with no snapshot waiting and no handler in flight sees the
    initial positions overwritten by the server document. *)
Lemma settled_spread s c cl :
  sys_inv s -> clients s !! c = Some cl -> inbox cl = [] ->
  Forall (fun l => l = []) (inflight cl) ->
  exists r, server s = Some r /\
    obj_equiv (piecePositions (board cl)) (obj_spread initialPositions (doc_positions r)).
Proof.
  intros (r & Hsrv & Hwf & Hall) Hc Hq Hempty. exists r. split; [done|].
  pose proof (Forall_lookup_1 _ _ _ _ Hall Hc) as Hcl.
  assert (Hno : forall j, ~ owes cl j).
  { intros j (i & v & rest & Hi). by pose proof (Forall_lookup_1 _ _ _ _ Hempty Hi). }
  intros j. destruct (decide (j ∈ obj_keys (doc_positions r))) as [Hj|Hj].
  - rewrite obj_get_spread_in by done. by apply (ci_synced _ _ Hcl).
  - rewrite obj_get_spread_notin by done. by apply (ci_untouched _ _ Hcl).
Qed.

Lemma sys_run_rtc s ls s' :
  sys_run lobbyName fuel s ls = Some s' -> rtc (sys_rel lobbyName fuel) s s'.
Proof.
  revert s. induction ls as [|l ls IH]; simpl; intros s Hr; [by injection Hr as ->|].
  destruct (sys_step lobbyName fuel s l) as [s1|] eqn:Hs; [|done].
  eapply rtc_l; [by exists l|]. by apply IH.
Qed.
End Preservation.

(** A document that does not exist is never created by the board: every
    write is rejected. *)
Lemma sys_step_server_None `{MovementTables} lobbyName fuel s l s' :
  server s = None -> sys_step lobbyName fuel s l = Some s' -> server s' = None.
Proof.
  intros Hs. destruct l as [c row col op|c i|c]; simpl;
    destruct (clients s !! c) as [cl|]; simpl; try done.
  - destruct (cell_click _ _ _ _ _ _); intros; simplify_eq; done.
  - destruct (inflight cl !! i) as [[|[u|[| |k v]] rest]|]; try done; intros [= <-];
      simpl; try done. by rewrite Hs.
  - destruct (inbox cl) as [|snap q]; [done|].
    destruct (run _ _); by intros [= <-].
Qed.

Lemma rtc_server_None `{MovementTables} lobbyName fuel s s' :
  server s = None -> rtc (sys_rel lobbyName fuel) s s' -> server s' = None.
Proof.
  intros Hs Hr. induction Hr as [|s1 s2 s3 [l Hl] _ IH]; [done|].
  apply IH. by eapply sys_step_server_None.
Qed.

(** ** Theorems *)

Section SyncTheorems.
Context `{MovementTables}.
Context (lobbyName : string) (fuel : nat).
Hypothesis Hlobby : lobbyName <> "".

(** C4: Refinement of the synchronisation contract (specification 4.5):
    in every state reachable from clients that mounted on an existing room
    document, a client with no snapshot waiting and no handler in flight
    has exactly the abstract board of the store: the initial positions
    overwritten by the keys the server document carries. Snapshots may
    have been delivered between any two actions of any handler. *)
Theorem settled_board_refines r0 n s c cl :
  obj_wf (doc_positions r0) ->
  rtc (sys_rel lobbyName fuel) (sys_init lobbyName n (Some r0)) s ->
  clients s !! c = Some cl -> inbox cl = [] -> Forall (fun l => l = []) (inflight cl) ->
  exists r, server s = Some r /\
    obj_equiv (piecePositions (board cl)) (obj_spread initialPositions (doc_positions r)).
Proof using Hlobby.
  intros Hw Hr. apply settled_spread. eapply rtc_sys_inv; [done| |done].
  by apply sys_init_inv.
Qed.

(** C5: Convergence: any two clients that have run every snapshot and
    finished every handler hold the same positions, whatever the
    interleaving of clicks, writes and deliveries that led there. *)
Theorem settled_boards_agree r0 n s c1 c2 cl1 cl2 :
  obj_wf (doc_positions r0) ->
  rtc (sys_rel lobbyName fuel) (sys_init lobbyName n (Some r0)) s ->
  clients s !! c1 = Some cl1 -> inbox cl1 = [] -> Forall (fun l => l = []) (inflight cl1) ->
  clients s !! c2 = Some cl2 -> inbox cl2 = [] -> Forall (fun l => l = []) (inflight cl2) ->
  obj_equiv (piecePositions (board cl1)) (piecePositions (board cl2)).
Proof using Hlobby.
  intros Hw Hr H1 Hq1 Hf1 H2 Hq2 Hf2.
  assert (Hinv : sys_inv s) by (eapply rtc_sys_inv; [done|by apply sys_init_inv|done]).
  destruct (settled_spread _ _ _ Hinv H1 Hq1 Hf1) as (r1 & Hs1 & E1).
  destruct (settled_spread _ _ _ Hinv H2 Hq2 Hf2) as (r2 & Hs2 & E2).
  rewrite Hs1 in Hs2. injection Hs2 as ->. by rewrite E1, E2.
Qed.

(** C23: When the room document does not exist (the second [setDoc] of
    [createRoom] failed, or the lobby name has no data document), it never
    comes to exist, and every write of a move is rejected with the toast
    of the [catch]: the move stays local to the client that made it. *)
Theorem push_without_document_fails n s c i cl k v rest s' :
  rtc (sys_rel lobbyName fuel) (sys_init lobbyName n None) s ->
  clients s !! c = Some cl -> inflight cl !! i = Some (Eff (Push k v) :: rest) ->
  sys_step lobbyName fuel s (Exec c i) = Some s' ->
  server s' = None /\
  exists cl', clients s' !! c = Some cl' /\ shown cl' = shown cl ++ [Push k v; update_failed k].
Proof.
  intros Hr Hc Hi Hs.
  assert (Hn : server s = None) by (by eapply rtc_server_None; [|done]).
  simpl in Hs. rewrite Hc in Hs. simpl in Hs. rewrite Hi in Hs. simpl in Hs.
  rewrite Hn in Hs. injection Hs as <-.
  split; [done|]. eexists. split;
    [apply list_lookup_insert_eq; by apply lookup_lt_Some in Hc|reflexivity].
Qed.
End SyncTheorems.

Section Race.
Local Open Scope string_scope.

(** C10: The store has no transaction spanning "the square is free, then
    write": two clients that each see the square (5, 5) empty move the
    knight [horse2] (client 0) and the pawn [pawn6] (client 1) onto it at
    the same time. Both writes succeed, and once everything is delivered
    both boards, like the server, hold two pieces on one square. *)
Theorem concurrent_moves_share_square :
  exists s,
    rtc (sys_rel "lobby" 8) (sys_init "lobby" 2 (Some createRoom_seed)) s /\
    length (clients s) = 2%nat /\
    Forall (fun cl => inbox cl = [] /\ Forall (fun l => l = []) (inflight cl) /\
                      obj_get "horse2" (piecePositions (board cl)) = Some ⟨5, 5⟩ /\
                      obj_get "pawn6" (piecePositions (board cl)) = Some ⟨5, 5⟩) (clients s).
Proof.
  set (tr := [Click 0 7 6 true; Exec 0 0; Exec 0 0; Click 0 5 5 false;
              Click 1 6 5 true; Exec 1 0; Exec 1 0; Click 1 5 5 false;
              Exec 0 1; Exec 1 1; Exec 0 1; Exec 1 1; Exec 0 1; Exec 1 1;
              Deliver 0; Deliver 0; Deliver 0; Deliver 1; Deliver 1; Deliver 1]).
  destruct (sys_run "lobby" 8 (sys_init "lobby" 2 (Some createRoom_seed)) tr) as [s|] eqn:E;
    [|vm_compute in E; discriminate].
  exists s. split; [by eapply sys_run_rtc|].
  vm_compute in E. injection E as <-. split; [reflexivity|].
  repeat constructor.
Qed.
End Race.

(** ** Witnesses *)

Section Witnesses.
Local Open Scope string_scope.

(** Two clients in the room ["lobby"], seeded by [createRoom]; client 0
    selects [pawn5] and moves it to (5, 4), then runs both its snapshots. *)
Definition demo_init : Sys := sys_init "lobby" 2 (Some createRoom_seed).

Definition demo_trace : list Label :=
  [Click 0 6 4 true; Exec 0 0; Exec 0 0; Click 0 5 4 false;
   Exec 0 1; Exec 0 1; Exec 0 1; Deliver 0; Deliver 0].

Definition demo_after (tr : list Label) : Sys :=
  default demo_init (sys_run "lobby" 8 demo_init tr).

Definition demo_client (s : Sys) (c : nat) : Client :=
  default (client_init "lobby" None) (clients s !! c).

Lemma createRoom_seed_wf : obj_wf (doc_positions createRoom_seed).
Proof. apply (bool_decide_unpack _). vm_compute. reflexivity. Qed.

Lemma settled_board_refines_witness :
  exists r, server (demo_after demo_trace) = Some r /\
    obj_equiv (piecePositions (board (demo_client (demo_after demo_trace) 0)))
              (obj_spread initialPositions (doc_positions r)).
Proof.
  apply (settled_board_refines "lobby" 8 ltac:(discriminate) createRoom_seed 2
           (demo_after demo_trace) 0 (demo_client (demo_after demo_trace) 0)).
  - apply createRoom_seed_wf.
  - apply (sys_run_rtc _ _ _ demo_trace). vm_compute. reflexivity.
  - vm_compute. reflexivity.
  - vm_compute. reflexivity.
  - vm_compute. repeat constructor.
Defined.

Lemma settled_boards_agree_witness :
  obj_equiv
    (piecePositions (board (demo_client (demo_after (demo_trace ++ [Deliver 1; Deliver 1])%list) 0)))
    (piecePositions (board (demo_client (demo_after (demo_trace ++ [Deliver 1; Deliver 1])%list) 1))).
Proof.
  apply (settled_boards_agree "lobby" 8 ltac:(discriminate) createRoom_seed 2
           (demo_after (demo_trace ++ [Deliver 1; Deliver 1])%list) 0 1);
    [apply createRoom_seed_wf
    |apply (sys_run_rtc _ _ _ (demo_trace ++ [Deliver 1; Deliver 1])%list); vm_compute; reflexivity
    |vm_compute; try reflexivity; repeat constructor..].
Defined.

(** One client in a room without a document; it moves [pawn5] and its
    write of (5, 4) is next. *)
Definition nodoc_init : Sys := sys_init "lobby" 1 None.

Definition nodoc_trace : list Label :=
  [Click 0 6 4 true; Exec 0 0; Exec 0 0; Click 0 5 4 false; Exec 0 1].

Definition nodoc_state : Sys := default nodoc_init (sys_run "lobby" 8 nodoc_init nodoc_trace).

Lemma push_without_document_fails_witness :
  server (default nodoc_state (sys_step "lobby" 8 nodoc_state (Exec 0 1))) = None /\
  exists cl', clients (default nodoc_state (sys_step "lobby" 8 nodoc_state (Exec 0 1))) !! 0%nat
                = Some cl' /\
    shown cl' = (shown (demo_client nodoc_state 0) ++ [Push "pawn5" ⟨5, 4⟩; update_failed "pawn5"])%list.
Proof.
  apply (push_without_document_fails "lobby" 8 1 nodoc_state 0 1 (demo_client nodoc_state 0)
           "pawn5" ⟨5, 4⟩ [Upd (SetMoves [])]).
  - apply (sys_run_rtc _ _ _ nodoc_trace). vm_compute. reflexivity.
  - vm_compute. reflexivity.
  - vm_compute. reflexivity.
  - vm_compute. reflexivity.
Defined.
End Witnesses.

(** ** The coordinates the document holds *)

(** A coordinate the document may hold: a square of the board, or the
    sentinel of a captured piece. *)
Definition pos_ok (p : PiecePosition) : bool := on_board p || bool_decide (p = sentinel).

(** What an action may write or highlight. *)
Definition action_ok (a : Action) : bool :=
  match a with
  | Eff (Push _ p) => pos_ok p
  | Upd (SetMoves ms) => forallb on_board ms
  | _ => true
  end.

(** Every coordinate of the server document is a square or the sentinel;
    every client highlights squares of the board only, and its in-flight
    handlers write and highlight nothing else. *)
Definition sys_typed (s : Sys) : Prop :=
  (forall r, server s = Some r -> Forall (fun p => pos_ok p = true) (obj_values (doc_positions r))) /\
  Forall (fun cl => forallb on_board (availableMoves (board cl)) = true /\
                    Forall (fun l => forallb action_ok l = true) (inflight cl)) (clients s).

Section Typing.
Context `{MovementTables}.
Context (lobbyName : string) (fuel : nat).

Lemma forallb_on_board_filter l : forallb on_board (List.filter on_board l) = true.
Proof. apply forallb_forall. intros q Hq. by apply filter_In in Hq as [_ ?]. Qed.

Lemma handlePieceClick_typed s k acts :
  handlePieceClick s k = Ok acts -> forallb action_ok acts = true.
Proof.
  unfold handlePieceClick. case_bool_decide; [by intros [= <-]|].
  destruct (candidate_moves _ _) as [ms| |] eqn:Hc; simpl; try done. intros [= <-].
  destruct (candidate_moves_Ok_filter _ _ _ Hc) as [t ->]. simpl.
  by rewrite forallb_on_board_filter.
Qed.

Lemma updatePositionInDatabase_typed k p :
  pos_ok p = true -> forallb action_ok (updatePositionInDatabase lobbyName k p) = true.
Proof. intros Hp. unfold updatePositionInDatabase. case_bool_decide; simpl; by rewrite ?Hp. Qed.

Lemma handleMove_typed s e acts :
  on_board e = true -> handleMove lobbyName fuel s e = Ok acts -> forallb action_ok acts = true.
Proof.
  intros He. unfold handleMove.
  destruct (selectedPiece s) as [sel|]; [|by intros [= <-]].
  destruct (obj_get sel _) as [st|]; [|done].
  destruct (isPathBlocked _ _ _ _ _) as [[]| |]; simpl; try done; [by intros [= <-]|].
  intros [= <-]. rewrite !forallb_app. apply andb_true_intro; split.
  - destruct (piece_at _ _) as [[cp cpos]|]; [|done].
    destruct (opposite_colors _ _); [|done]. cbv iota beta.
    cbn [forallb action_ok]. by rewrite updatePositionInDatabase_typed.
  - cbn [forallb action_ok]. rewrite forallb_app, updatePositionInDatabase_typed; [done|].
    unfold pos_ok. by rewrite He.
Qed.

Lemma isHighlighted_on_board s r c :
  forallb on_board (availableMoves s) = true -> isHighlighted s r c = true -> on_board ⟨r, c⟩ = true.
Proof.
  unfold isHighlighted. intros Hall (q & Hq & Hat)%existsb_exists.
  apply forallb_forall with (x := q) in Hall; [|done].
  unfold at_square in Hat. apply andb_prop in Hat as [Ha Hb].
  apply Z.eqb_eq in Ha, Hb. destruct q; simpl in *; by subst.
Qed.

Lemma cell_click_typed s r c on_piece acts :
  forallb on_board (availableMoves s) = true ->
  cell_click lobbyName fuel s r c on_piece = Ok acts -> forallb action_ok acts = true.
Proof.
  intros Hm. unfold cell_click. intros (a1 & H1 & (a2 & H2 & [= <-])%obind_Ok)%obind_Ok.
  rewrite forallb_app. apply andb_true_intro; split.
  - destruct on_piece, (piece_at (piecePositions s) ⟨r, c⟩) as [[k p]|];
      inversion H1; subst; try done.
    by eapply handlePieceClick_typed.
  - destruct (isHighlighted s r c) eqn:Hh; [|by inversion H2].
    eapply handleMove_typed; [|done]. by eapply isHighlighted_on_board.
Qed.

Lemma run_onSnapshot_moves b snap b' es :
  run b (onSnapshotCallback snap) = (b', es) -> availableMoves b' = availableMoves b.
Proof. destruct snap; simpl; by intros [= <- _]. Qed.

Lemma sys_step_typed s l s' :
  sys_typed s -> sys_step lobbyName fuel s l = Some s' -> sys_typed s'.
Proof.
  intros [Hsrv Hall].
  destruct l as [c row col op|c i|c]; simpl;
    destruct (clients s !! c) as [cl|] eqn:Hc; simpl; try done;
    pose proof (Forall_lookup_1 _ _ _ _ Hall Hc) as [Hm Hf].
  - destruct (cell_click _ _ _ _ _ _) as [acts| |] eqn:Hclick; intros; simplify_eq;
      [|done]. split; [done|]. apply Forall_insert; [done|]. simpl. split; [done|].
    apply Forall_app. split; [done|]. constructor; [|done]. by eapply cell_click_typed.
  - destruct (inflight cl !! i) as [[|a rest]|] eqn:Hi; try done. intros [= <-].
    pose proof (Forall_lookup_1 _ _ _ _ Hf Hi) as Ha. simpl in Ha.
    apply andb_prop in Ha as [Ha Hrest].
    assert (Hf' : Forall (fun l => forallb action_ok l = true) (<[i := rest]> (inflight cl)))
      by (by apply Forall_insert).
    destruct a as [u|[msg| |k v]]; simpl.
    + split; [done|]. apply Forall_insert; [done|]. simpl. split; [|done].
      destruct u; simpl in *; done.
    + split; [done|]. apply Forall_insert; [done|]. done.
    + split; [done|]. apply Forall_insert; [done|]. done.
    + destruct (server s) as [r|] eqn:Hs; simpl.
      * split.
        -- intros r' [= <-]. apply obj_values_set_Forall; [by apply Hsrv|done].
        -- apply Forall_fmap, Forall_insert; [|done].
           eapply Forall_impl; [done|]. intros cl' [? ?]. by split.
      * split; [intros r' Hr'; simpl in Hr'; congruence|].
        apply Forall_insert; [done|]. done.
  - destruct (inbox cl) as [|snap q] eqn:Hq; [done|].
    destruct (run (board cl) (onSnapshotCallback snap)) as [b es] eqn:Hrun. intros [= <-].
    split; [done|]. apply Forall_insert; [done|]. simpl.
    rewrite (run_onSnapshot_moves _ _ _ _ Hrun). by split.
Qed.

Lemma rtc_sys_typed s s' :
  sys_typed s -> rtc (sys_rel lobbyName fuel) s s' -> sys_typed s'.
Proof.
  intros Hs Hr. induction Hr as [|s1 s2 s3 [l Hl] _ IH]; [done|].
  apply IH. by eapply sys_step_typed.
Qed.

(** C12: Every coordinate ever written to the room document is a square
    of the board or the sentinel [{x: -1, y: -1}]: the destinations of
    moves come from the highlighted squares, which [handlePieceClick]
    filters to the board. Hence a remote merge never brings a coordinate
    off the board other than the captured marker. *)
Theorem server_positions_typed r0 n s r :
  Forall (fun p => pos_ok p = true) (obj_values (doc_positions r0)) ->
  rtc (sys_rel lobbyName fuel) (sys_init lobbyName n (Some r0)) s ->
  server s = Some r ->
  Forall (fun p => pos_ok p = true) (obj_values (doc_positions r)).
Proof.
  intros H0 Hr Hs. apply rtc_sys_typed in Hr as [Hsrv _]; [by apply Hsrv|]. split.
  - by intros r' [= <-].
  - apply Forall_replicate. unfold client_init, boardSubscription.
    by case_bool_decide.
Qed.
End Typing.

Lemma server_positions_typed_witness :
  Forall (fun p => pos_ok p = true)
    (obj_values (doc_positions (default createRoom_seed (server (demo_after demo_trace))))).
Proof.
  apply (server_positions_typed "lobby" 8 createRoom_seed 2 (demo_after demo_trace)).
  - vm_compute. repeat constructor.
  - apply (sys_run_rtc _ _ _ demo_trace). vm_compute. reflexivity.
  - vm_compute. reflexivity.
Defined.
