(* ===== verification/Room.v ===== *)
(** * Rooms: creating, joining and watching a room

    [src/src/room.tsx]. A room named [name] is two documents of the store:
    [groups/name], the [Group] (its password and its members' ids), and
    [name/data], the board document of [Board] and [Sync].

    - [createRoom] (lines 67-98) writes both documents, one [await] after
      the other, and sets the room name;
    - [joinRoom] (lines 156-192) subscribes to [groups/name] and decides on
      every snapshot: unknown room or wrong password, member (reconnect),
      full room, or [addUserToGroup] (lines 194-207), which adds the user
      with [arrayUnion] and does not wait for the write;
    - the forms of [CreateRoomDialog] and [JoinRoomDialog] (lines 62-137
      and 151-247): their two fields and what a submit does;
    - [RoomInfromation] (lines 252-331) is in [RoomInfo].

    No listener of [joinRoom] is ever unsubscribed. The store accepts or
    rejects each write according to [accepts], a parameter standing for the
    store's security rules and the network: the theorems hold for every
    such policy. *)

From stdpp Require Import base list strings options sets gmap relations.
From Stdlib Require Import ZArith Lia.
From S2P Require Import Prelude Pieces Board.

Open Scope nat_scope.

(** [type Group] (lines 142-147). The declared type says [users:
    GroupMember[]], objects [{id}]; the code stores [user!.id] (line 80)
    and compares [groupUser === user.id] (line 176): the members are ids. *)
Record Group := mkGroup {
  gid : string;
  gname : string;
  passwordHash : string;
  users : list string
}.

(** The two collections a room uses. *)
Record RoomStore := mkStore {
  groups : gmap string Group;    (** [doc(data, 'groups', name)] *)
  datas : gmap string RoomDoc    (** [doc(data, name, 'data')] *)
}.

(** The documents a write may target. *)
Inductive DocRef := GroupDoc (name : string) | DataDoc (name : string).

(** What the dialogs do besides writing: set the room name of [Lobby],
    toasts, clear their fields, log to the console. *)
Inductive RoomAction :=
  | SetRoomName (n : string)
  | ToastSuccess (m : string)
  | ToastError (m : string)
  | ResetName                 (** [setName('')] *)
  | ResetPassword             (** [setPassword('')] *)
  | AddUser (name uid : string)   (** [updateDoc(ref, {users: arrayUnion(uid)})] *)
  | ConsoleLog.

(** [arrayUnion(x)]: appended unless already present. *)
Definition array_union (l : list string) (x : string) : list string :=
  if bool_decide (x ∈ l) then l else l ++ [x].

Section Dialogs.
(** The store's verdict on each write. *)
Variable accepts : DocRef -> bool.

(** [createRoom] (lines 67-98) for the signed-in user [user] ([None] when
    [useAuth()] gives [null]). The two guards return before the fields are
    cleared; [user!.id] is read outside the [try]; a rejected [setDoc]
    lands in the [catch], after which the fields are cleared. *)
Definition createRoom (user : option string) (name password : string) (st : RoomStore)
    : outcome (RoomStore * list RoomAction) :=
  if bool_decide (name = "") then Ok (st, []) else
  if bool_decide (password = "") then Ok (st, []) else
  match user with
  | None => Thrown "TypeError: Cannot read properties of null (reading 'id')"
  | Some uid =>
      let groupData := mkGroup name name password [uid] in
      if accepts (GroupDoc name) then
        let st1 := mkStore (<[name := groupData]> (groups st)) (datas st) in
        if accepts (DataDoc name) then
          Ok (mkStore (groups st1) (<[name := createRoom_seed]> (datas st1)),
              [SetRoomName name; ToastSuccess "Group Created"; ResetName; ResetPassword])
        else Ok (st1, [ToastError "Something went wrong"; ResetName; ResetPassword])
      else Ok (st, [ToastError "Something went wrong"; ResetName; ResetPassword])
  end%string.

(** [addUserToGroup] (lines 194-207): the write is issued and not awaited,
    so the room name and the success toast follow whatever the store
    answers; with no user, [user!.id] throws inside the [try]. *)
Definition addUserToGroup (user : option string) (name : string) : list RoomAction :=
  match user with
  | None => [ConsoleLog; ToastError "Something went wrong"]
  | Some uid => [AddUser name uid; SetRoomName name; ToastSuccess "Room Joined"]
  end%string.

(** The [onSnapshot] callback of [joinRoom] (lines 161-188), with the
    closure's [user], [name] and [password]. *)
Definition joinRoomCallback (user : option string) (name password : string)
    (snap : option Group) : list RoomAction :=
  match snap with
  | None => [ToastError "Invalid group name or password"]
  | Some g =>
      if negb (bool_decide (passwordHash g = password)) then
        [ToastError "Invalid group name or password"]
      else
        let member :=
          match user with
          | Some uid => existsb (fun u => bool_decide (u = uid)) (users g)
          | None => false
          end in
        if member then [SetRoomName name; ToastSuccess "Reconnected"]
        else if Nat.eqb (length (users g)) 2 then [ToastError "Room is packed"]
        else addUserToGroup user name
  end%string.

(** The write of [addUserToGroup] on the store: [updateDoc] of a document
    that does not exist, or that the store refuses, changes nothing. *)
Definition apply_add_user (name uid : string) (st : RoomStore) : RoomStore :=
  match groups st !! name with
  | Some g =>
      if accepts (GroupDoc name) then
        mkStore (<[name := mkGroup (gid g) (gname g) (passwordHash g) (array_union (users g) uid)]>
                   (groups st)) (datas st)
      else st
  | None => st
  end.
End Dialogs.

(** ** The dialogs' forms (lines 62-137 and 151-247) *)

(** The two fields of a dialog, [useState('')] for [name] and [password]
    (lines 64-65 and 152-153). *)
Record DialogForm := mkForm { f_name : string; f_password : string }.

Definition form_init : DialogForm := mkForm "" "".

(** Typing in an input ([onChange], lines 115, 125, 225, 235) or pressing
    the submit button. *)
Inductive FormEvent :=
  | TypeName (v : string)
  | TypePassword (v : string)
  | Submit.

(** Both inputs are [required] (lines 117, 127, 227, 237): the browser
    fires [onSubmit] only when neither is empty. *)
Definition form_valid (f : DialogForm) : bool :=
  negb (bool_decide (f_name f = "")) && negb (bool_decide (f_password f = "")).

(** [setName('')] and [setPassword('')] of [createRoom]. *)
Definition form_action (f : DialogForm) (a : RoomAction) : DialogForm :=
  match a with
  | ResetName => mkForm "" (f_password f)
  | ResetPassword => mkForm (f_name f) ""
  | _ => f
  end.

Definition form_edit (f : DialogForm) (ev : FormEvent) : DialogForm :=
  match ev with
  | TypeName v => mkForm v (f_password f)
  | TypePassword v => mkForm (f_name f) v
  | Submit => f
  end.

Section Forms.
Variable accepts : DocRef -> bool.

(** [CreateRoomDialog] (lines 62-137): a submit of a valid form runs
    [createRoom] on the fields and applies its resets to the form. *)
Definition createDialog_step (user : option string) (f : DialogForm) (st : RoomStore)
    (ev : FormEvent) : outcome (DialogForm * RoomStore * list RoomAction) :=
  match ev with
  | Submit =>
      if form_valid f then
        obind (createRoom accepts user (f_name f) (f_password f) st)
          (fun r => Ok (foldl form_action f r.2, r.1, r.2))
      else Ok (f, st, [])
  | _ => Ok (form_edit f ev, st, [])
  end.

(** [JoinRoomDialog] (lines 151-247): a submit of a valid form registers
    the [joinRoom] listener for the typed name and password; the fields
    are never cleared. *)
Definition joinDialog_submit (f : DialogForm) : option (string * string) :=
  if form_valid f then Some (f_name f, f_password f) else None.
End Forms.

#[export] Instance Group_eq_dec : EqDecision Group.
Proof. solve_decision. Defined.

(** ** Several clients and their listeners *)

(** A listener registered by one submission of [joinRoom]: the client that
    submitted, the closure's user, name and password, and the snapshots of
    [groups/name] it has been sent and not yet run. *)
Record Listener := mkListener {
  owner : nat;
  l_user : option string;
  l_name : string;
  l_password : string;
  l_inbox : list (option Group)
}.

(** The store, every listener ever registered, the [roomName] state of
    each client's [Lobby], and what each client has shown. *)
Record Lobby := mkLobby {
  store : RoomStore;
  listeners : list Listener;
  roomNames : list string;
  shown_room : list (nat * RoomAction)
}.

Inductive LobbyLabel :=
  | Create (c : nat) (user : option string) (name password : string)
  | Join (c : nat) (user : option string) (name password : string)
  | Fire (li : nat).

(** A change of [groups/name] is sent to every listener of that document. *)
Definition notify_group (name : string) (g : option Group) (ls : list Listener) : list Listener :=
  map (fun l => if bool_decide (l_name l = name)
                then mkListener (owner l) (l_user l) (l_name l) (l_password l) (l_inbox l ++ [g])
                else l) ls.

Section LobbySystem.
Variable accepts : DocRef -> bool.

(** A new store for the lobby; the listeners of [groups/name] hear of it
    when that document changed. *)
Definition commit (name : string) (st' : RoomStore) (s : Lobby) : Lobby :=
  let ls := if bool_decide (groups st' !! name = groups (store s) !! name) then listeners s
            else notify_group name (groups st' !! name) (listeners s) in
  mkLobby st' ls (roomNames s) (shown_room s).

(** The actions of a handler of client [c], in order. *)
Definition room_action (c : nat) (s : Lobby) (a : RoomAction) : Lobby :=
  let s := mkLobby (store s) (listeners s) (roomNames s) (shown_room s ++ [(c, a)]) in
  match a with
  | SetRoomName n => mkLobby (store s) (listeners s) (<[c := n]> (roomNames s)) (shown_room s)
  | AddUser name uid => commit name (apply_add_user accepts name uid (store s)) s
  | _ => s
  end.

Definition room_actions (c : nat) (acts : list RoomAction) (s : Lobby) : Lobby :=
  foldl (room_action c) s acts.

Definition lobby_step (s : Lobby) (lbl : LobbyLabel) : option Lobby :=
  match lbl with
  | Create c user name password =>
      match createRoom accepts user name password (store s) with
      | Ok (st', acts) => Some (room_actions c acts (commit name st' s))
      | Thrown _ => Some s
      | OutOfFuel => None
      end
  | Join c user name password =>
      Some (mkLobby (store s)
              (listeners s ++ [mkListener c user name password [groups (store s) !! name]])
              (roomNames s) (shown_room s))
  | Fire li =>
      l ← listeners s !! li;
      match l_inbox l with
      | [] => None
      | snap :: q =>
          let s1 := mkLobby (store s)
                      (<[li := mkListener (owner l) (l_user l) (l_name l) (l_password l) q]>
                         (listeners s)) (roomNames s) (shown_room s) in
          Some (room_actions (owner l)
                  (joinRoomCallback (l_user l) (l_name l) (l_password l) snap) s1)
      end
  end.

Definition lobby_rel (s s' : Lobby) : Prop := exists l, lobby_step s l = Some s'.

Fixpoint lobby_run (s : Lobby) (ls : list LobbyLabel) : option Lobby :=
  match ls with
  | [] => Some s
  | l :: ls' => s' ← lobby_step s l; lobby_run s' ls'
  end.
End LobbySystem.

(** [n] clients, an empty store, nobody in a room. *)
Definition lobby_init (n : nat) : Lobby := mkLobby (mkStore ∅ ∅) [] (replicate n "") [].

(** ** Lemmas on the lobby *)

(** The documents of a room are keyed by their own name, and their members
    are distinct and never none. *)
Definition groups_wf (st : RoomStore) : Prop :=
  forall name g, groups st !! name = Some g ->
    gid g = name /\ gname g = name /\ NoDup (users g) /\ users g <> [].

Lemma array_union_NoDup l x : NoDup l -> NoDup (array_union l x).
Proof.
  unfold array_union. case_bool_decide; [done|]. intros Hnd.
  apply NoDup_app. split_and!; [done| |apply NoDup_singleton]. set_solver.
Qed.

Lemma array_union_nonempty l x : l <> [] -> array_union l x <> [].
Proof. unfold array_union. case_bool_decide; [done|]. by destruct l. Qed.

Lemma array_union_length l x : length (array_union l x) <= S (length l).
Proof. unfold array_union. case_bool_decide; rewrite ?length_app; simpl; lia. Qed.

Lemma groups_wf_insert st name g :
  groups_wf st -> gid g = name -> gname g = name -> NoDup (users g) -> users g <> [] ->
  forall ds, groups_wf (mkStore (<[name := g]> (groups st)) ds).
Proof.
  intros Hwf H1 H2 H3 H4 ds n g'. simpl. rewrite lookup_insert_Some.
  intros [[<- <-]|[_ Hn]]; [done|]. by apply Hwf.
Qed.

Section LobbyLemmas.
Variable accepts : DocRef -> bool.

Lemma apply_add_user_wf name uid st :
  groups_wf st -> groups_wf (apply_add_user accepts name uid st).
Proof.
  intros Hwf. unfold apply_add_user.
  destruct (groups st !! name) as [g|] eqn:Hg; [|done].
  destruct (accepts (GroupDoc name)); [|done].
  destruct (Hwf _ _ Hg) as (H1 & H2 & H3 & H4).
  apply groups_wf_insert; simpl; auto using array_union_NoDup, array_union_nonempty.
Qed.

Lemma room_action_store c s a :
  store (room_action accepts c s a) =
    match a with AddUser name uid => apply_add_user accepts name uid (store s) | _ => store s end.
Proof. by destruct a. Qed.

Lemma room_actions_wf c acts s :
  groups_wf (store s) -> groups_wf (store (room_actions accepts c acts s)).
Proof.
  unfold room_actions. revert s. induction acts as [|a acts IH]; intros s Hwf; [done|].
  simpl. apply IH. rewrite room_action_store. destruct a; auto using apply_add_user_wf.
Qed.

Lemma createRoom_wf user name password st st' acts :
  groups_wf st -> createRoom accepts user name password st = Ok (st', acts) -> groups_wf st'.
Proof.
  intros Hwf. unfold createRoom.
  case_bool_decide; [by intros [= <- _]|]. case_bool_decide; [by intros [= <- _]|].
  destruct user as [uid|]; [|done].
  destruct (accepts (GroupDoc name)); [|by intros [= <- _]].
  assert (Hins : forall ds, groups_wf (mkStore (<[name := mkGroup name name password [uid]]>
                                                 (groups st)) ds))
    by (apply groups_wf_insert; simpl; auto using NoDup_singleton).
  destruct (accepts (DataDoc name)); intros [= <- _]; apply Hins.
Qed.

Lemma lobby_step_wf s l s' :
  groups_wf (store s) -> lobby_step accepts s l = Some s' -> groups_wf (store s').
Proof.
  intros Hwf. destruct l as [c user name password|c user name password|li]; simpl.
  - destruct (createRoom accepts user name password (store s)) as [[st' acts]| |] eqn:Hc;
      intros [= <-]; [|done].
    apply room_actions_wf. by eapply createRoom_wf.
  - by intros [= <-].
  - destruct (listeners s !! li) as [l|]; simpl; [|done].
    destruct (l_inbox l) as [|snap q]; [done|]. intros [= <-]. by apply room_actions_wf.
Qed.

Lemma lobby_run_rtc s ls s' :
  lobby_run accepts s ls = Some s' -> rtc (lobby_rel accepts) s s'.
Proof.
  revert s. induction ls as [|l ls IH]; simpl; intros s Hr; [by injection Hr as ->|].
  destruct (lobby_step accepts s l) as [s1|] eqn:Hs; [|done].
  eapply rtc_l; [by exists l|]. by apply IH.
Qed.
End LobbyLemmas.

Section ActionLemmas.
Variable accepts : DocRef -> bool.

(** Actions without a write leave the store and the listeners alone. *)
Definition no_write (a : RoomAction) : bool :=
  match a with AddUser _ _ => false | _ => true end.

Lemma room_actions_no_write c acts s :
  forallb no_write acts = true ->
  store (room_actions accepts c acts s) = store s /\
  listeners (room_actions accepts c acts s) = listeners s.
Proof.
  unfold room_actions. revert s. induction acts as [|a acts IH]; intros s Hnw; [done|].
  simpl in Hnw. apply andb_prop in Hnw as [Ha Hnw]. simpl.
  destruct (IH (room_action accepts c s a) Hnw) as [-> ->]. by destruct a.
Qed.

Lemma notify_group_lookup name g ls li l :
  ls !! li = Some l -> l_name l = name ->
  notify_group name g ls !! li =
    Some (mkListener (owner l) (l_user l) (l_name l) (l_password l) (l_inbox l ++ [g])).
Proof.
  intros Hl Hn. unfold notify_group. rewrite list_lookup_fmap, Hl. simpl.
  by rewrite bool_decide_true.
Qed.
End ActionLemmas.

(** Replace the store after actions that write nothing. *)
Ltac no_write_store :=
  match goal with
  | |- context [store (room_actions ?a ?c ?acts ?s)] =>
      rewrite (proj1 (room_actions_no_write a c acts s eq_refl))
  end.

(** ** Theorems *)

Section RoomTheorems.
Variable accepts : DocRef -> bool.
Local Open Scope string_scope.

(** C16: Creating a room under a name that is taken takes the room over
    ([setDoc] replaces the document): whatever its members and password
    were, the room now has the creator as its only member and the new
    password, and every listener a client registered on that room by
    joining it with the old password is sent the new document, on which
    its callback answers "Invalid group name or password". *)
Theorem createRoom_takes_over_room s c uid name password g s' :
  name <> "" -> password <> "" ->
  accepts (GroupDoc name) = true -> accepts (DataDoc name) = true ->
  groups (store s) !! name = Some g -> passwordHash g <> password ->
  lobby_step accepts s (Create c (Some uid) name password) = Some s' ->
  groups (store s') !! name = Some (mkGroup name name password [uid]) /\
  forall li l, listeners s !! li = Some l -> l_name l = name -> l_password l = passwordHash g ->
    exists l', listeners s' !! li = Some l' /\
      last (l_inbox l') = Some (Some (mkGroup name name password [uid])) /\
      joinRoomCallback (l_user l') (l_name l') (l_password l') (Some (mkGroup name name password [uid]))
        = [ToastError "Invalid group name or password"].
Proof.
  intros Hn Hp Ag Ad Hg Hpw. simpl. unfold createRoom.
  rewrite !bool_decide_false by done. rewrite Ag, Ad. intros [= <-].
  simpl. rewrite lookup_insert_eq, Hg.
  rewrite bool_decide_false by (intros [= <-]; simpl in Hpw; done). split; [done|].
  intros li l Hl Hln Hlp. eexists. rewrite (notify_group_lookup _ _ _ _ _ Hl Hln).
  split; [done|]. simpl. split; [by rewrite last_snoc|].
  rewrite Hlp. unfold joinRoomCallback. simpl. by rewrite bool_decide_false by congruence.
Qed.

(** C35: [createRoom] does nothing at all, not even clear its fields, when
    the name or the password is empty; with both filled in and no
    signed-in user it throws on [user!.id] before writing anything. *)
Theorem createRoom_rejects user name password st :
  ((name = "" \/ password = "") -> createRoom accepts user name password st = Ok (st, [])) /\
  (name <> "" -> password <> "" -> user = None ->
     createRoom accepts user name password st =
       Thrown "TypeError: Cannot read properties of null (reading 'id')").
Proof.
  unfold createRoom. split.
  - intros [->| ->]; [by rewrite bool_decide_true|].
    case_bool_decide; [done|]. by rewrite bool_decide_true.
  - intros Hn Hp ->. by rewrite !bool_decide_false.
Qed.

(** C34: When the store accepts the room document and rejects the board
    document, [createRoom] leaves a room without its board document: the
    group is written, the data documents are unchanged, the user gets the
    error toast and no room name. *)
Theorem createRoom_half_written uid name password st st' acts :
  name <> "" -> password <> "" ->
  accepts (GroupDoc name) = true -> accepts (DataDoc name) = false ->
  createRoom accepts (Some uid) name password st = Ok (st', acts) ->
  groups st' !! name = Some (mkGroup name name password [uid]) /\
  datas st' = datas st /\
  acts = [ToastError "Something went wrong"; ResetName; ResetPassword].
Proof.
  intros Hn Hp Ag Ad. unfold createRoom. rewrite !bool_decide_false by done.
  rewrite Ag, Ad. intros [= <- <-]. simpl. by rewrite lookup_insert_eq.
Qed.

(** The password is checked before membership: a snapshot whose
    password differs from the one typed is refused, even for a member. *)
Theorem joinRoom_wrong_password user name password g :
  passwordHash g <> password ->
  joinRoomCallback user name password (Some g) = [ToastError "Invalid group name or password"].
Proof. intros Hpw. unfold joinRoomCallback. by rewrite bool_decide_false. Qed.

(** C28: A signed-in user who is not a member and types the right password
    for a room with fewer than two members is added with [arrayUnion], gets
    the room name and "Room Joined"; the listener stays subscribed, and on
    the snapshot of its own write it answers "Reconnected". *)
Theorem joinRoom_admits_then_reconnects uid name g :
  uid ∉ users g -> length (users g) <> 2 ->
  joinRoomCallback (Some uid) name (passwordHash g) (Some g) =
    [AddUser name uid; SetRoomName name; ToastSuccess "Room Joined"] /\
  joinRoomCallback (Some uid) name (passwordHash g)
    (Some (mkGroup (gid g) (gname g) (passwordHash g) (array_union (users g) uid))) =
    [SetRoomName name; ToastSuccess "Reconnected"].
Proof.
  intros Hnot Hlen. unfold joinRoomCallback, array_union. simpl.
  rewrite bool_decide_true, bool_decide_false by done. simpl.
  replace (existsb _ (users g)) with false.
  2:{ symmetry. apply not_true_iff_false. intros (u & Hu & Hb)%existsb_exists.
      apply bool_decide_eq_true in Hb as ->. by apply Hnot, list_elem_of_In. }
  apply Nat.eqb_neq in Hlen. rewrite Hlen. split; [done|].
  replace (existsb _ (users g ++ [uid])) with true; [done|].
  symmetry. apply existsb_exists. exists uid. split; [apply in_or_app; simpl; auto|].
  by apply bool_decide_eq_true.
Qed.
(** C22: Capacity holds when the decision is taken on the current
    document: a snapshot run while it is still the stored room never takes
    a room of at most two members past two. *)
Theorem join_fresh_snapshot_capacity s c user name password g g' :
  groups (store s) !! name = Some g -> length (users g) <= 2 ->
  groups (store (room_actions accepts c (joinRoomCallback user name password (Some g)) s))
    !! name = Some g' ->
  length (users g') <= 2.
Proof.
  intros Hg Hlen. unfold joinRoomCallback.
  destruct (negb _); [no_write_store; congruence|].
  destruct (match user with Some _ => _ | None => false end);
    [no_write_store; congruence|].
  destruct (Nat.eqb_spec (length (users g)) 2) as [H2|H2];
    [no_write_store; congruence|].
  destruct user as [uid|]; [|no_write_store; congruence].
  simpl. unfold apply_add_user. rewrite Hg.
  destruct (accepts (GroupDoc name)); [|congruence].
  simpl. rewrite lookup_insert_eq. intros [= <-]. simpl.
  pose proof (array_union_length (users g) uid). lia.
Qed.

(** C11: Capacity is lost when two users join at once: both listeners are
    sent the one-member room before either write lands, both add their
    user, and the room ends with three members; the third, already a
    member, is then shown "Room is packed" by the stale snapshot still
    queued for its listener. *)
Theorem join_race_overfills_room :
  exists s g,
    rtc (lobby_rel (fun _ => true)) (lobby_init 3) s /\
    groups (store s) !! "r" = Some g /\ users g = ["a"; "b"; "c"] /\
    (2%nat, ToastError "Room is packed") ∈ shown_room s.
Proof.
  set (tr := [Create 0 (Some "a") "r" "pw"; Join 1 (Some "b") "r" "pw";
              Join 2 (Some "c") "r" "pw"; Fire 0; Fire 1; Fire 0; Fire 1]).
  destruct (lobby_run (fun _ => true) (lobby_init 3) tr) as [s|] eqn:E;
    [|vm_compute in E; discriminate].
  exists s. pose proof (lobby_run_rtc _ _ _ _ E) as Hr.
  vm_compute in E. injection E as <-.
  eexists. split_and!; [exact Hr|reflexivity|reflexivity|].
  apply list_elem_of_In. simpl. tauto.
Qed.

(** C21: Invariant of the store of rooms: in every reachable state, under
    any policy of the store, each room document is stored under its own
    name ([id] and [name] are the key), and its members are distinct
    ([arrayUnion]) and never none. *)
Theorem lobby_groups_wf n s :
  rtc (lobby_rel accepts) (lobby_init n) s -> groups_wf (store s).
Proof.
  intros Hr. assert (H0 : groups_wf (store (lobby_init n))) by done.
  induction Hr as [|s1 s2 s3 [l Hl] _ IH]; [done|].
  apply IH. by eapply lobby_step_wf.
Qed.

(** C29: [addUserToGroup] does not wait for its write: when the store
    refuses it, the room is unchanged, yet the client gets the room name
    and the toast "Room Joined". *)
Theorem addUserToGroup_ignores_store s c uid name :
  accepts (GroupDoc name) = false -> c < length (roomNames s) ->
  let s' := room_actions accepts c (addUserToGroup (Some uid) name) s in
  store s' = store s /\ roomNames s' !! c = Some name /\
  (c, ToastSuccess "Room Joined") ∈ shown_room s'.
Proof.
  intros Ha Hc. simpl. unfold apply_add_user.
  destruct (groups (store s) !! name); rewrite ?Ha; simpl;
    (split; [done|split; [by apply list_lookup_insert_eq|]]);
    apply list_elem_of_In, in_or_app; simpl; tauto.
Qed.

(** C36: The [required] inputs make the guards of [createRoom] (lines
    70-71) unreachable from its dialog: a submit with an empty field does
    nothing, and a submit of a filled form that completes has run
    [createRoom] past its guards (it answered with actions, where a guard
    answers none) and leaves both fields empty, whether the store
    accepted the writes or not. *)
Theorem createDialog_submit user f st :
  (form_valid f = false -> createDialog_step accepts user f st Submit = Ok (f, st, [])) /\
  (forall f' st' acts, form_valid f = true ->
     createDialog_step accepts user f st Submit = Ok (f', st', acts) ->
     createRoom accepts user (f_name f) (f_password f) st = Ok (st', acts) /\
     acts <> [] /\ f' = form_init).
Proof.
  split; [simpl; by intros ->|]. intros f' st' acts Hv. simpl. rewrite Hv.
  unfold form_valid in Hv. apply andb_prop in Hv as [Hn Hp].
  apply negb_true_iff, bool_decide_eq_false in Hn, Hp.
  unfold createRoom. rewrite !bool_decide_false by done.
  destruct user as [uid|]; [|done]. destruct f as [n p]. simpl in *.
  destruct (accepts (GroupDoc n)); [destruct (accepts (DataDoc n))|];
    intros [= <- <- <-]; done.
Qed.
End RoomTheorems.

(** ** Witnesses *)

Section Witnesses.
Local Open Scope string_scope.

Definition accept_all : DocRef -> bool := fun _ => true.

(** Client 0 ("a") creates the room "r" with password "pw"; client 1
    ("b") joins it. *)
Definition room_demo_trace : list LobbyLabel :=
  [Create 0 (Some "a") "r" "pw"; Join 1 (Some "b") "r" "pw"; Fire 0].

Definition room_demo : Lobby :=
  default (lobby_init 3) (lobby_run accept_all (lobby_init 3) room_demo_trace).

Definition room_demo_takeover : Lobby :=
  default room_demo (lobby_step accept_all room_demo (Create 2 (Some "z") "r" "new")).

Lemma createRoom_takes_over_room_witness :
  groups (store room_demo_takeover) !! "r" = Some (mkGroup "r" "r" "new" ["z"]) /\
  forall li l, listeners room_demo !! li = Some l -> l_name l = "r" -> l_password l = "pw" ->
    exists l', listeners room_demo_takeover !! li = Some l' /\
      last (l_inbox l') = Some (Some (mkGroup "r" "r" "new" ["z"])) /\
      joinRoomCallback (l_user l') (l_name l') (l_password l') (Some (mkGroup "r" "r" "new" ["z"]))
        = [ToastError "Invalid group name or password"].
Proof.
  apply (createRoom_takes_over_room accept_all room_demo 2 "z" "r" "new"
           (mkGroup "r" "r" "pw" ["a"; "b"])); try discriminate; vm_compute; reflexivity.
Defined.

Definition accept_groups_only : DocRef -> bool :=
  fun d => match d with GroupDoc _ => true | DataDoc _ => false end.

Lemma createRoom_half_written_witness :
  groups (mkStore (<["r" := mkGroup "r" "r" "pw" ["a"]]> ∅) ∅) !! "r" = Some (mkGroup "r" "r" "pw" ["a"]) /\
  datas (mkStore (<["r" := mkGroup "r" "r" "pw" ["a"]]> ∅) ∅) = datas (mkStore ∅ ∅) /\
  [ToastError "Something went wrong"; ResetName; ResetPassword] =
    [ToastError "Something went wrong"; ResetName; ResetPassword].
Proof.
  apply (createRoom_half_written accept_groups_only "a" "r" "pw" (mkStore ∅ ∅));
    try discriminate; vm_compute; reflexivity.
Defined.

Lemma joinRoom_wrong_password_witness :
  joinRoomCallback (Some "a") "r" "bad" (Some (mkGroup "r" "r" "pw" ["a"; "b"])) =
    [ToastError "Invalid group name or password"].
Proof. apply joinRoom_wrong_password. discriminate. Defined.

Lemma joinRoom_admits_then_reconnects_witness :
  joinRoomCallback (Some "b") "r" "pw" (Some (mkGroup "r" "r" "pw" ["a"])) =
    [AddUser "r" "b"; SetRoomName "r"; ToastSuccess "Room Joined"] /\
  joinRoomCallback (Some "b") "r" "pw"
    (Some (mkGroup "r" "r" "pw" (array_union ["a"] "b"))) =
    [SetRoomName "r"; ToastSuccess "Reconnected"].
Proof.
  apply (joinRoom_admits_then_reconnects "b" "r" (mkGroup "r" "r" "pw" ["a"])).
  - simpl. rewrite list_elem_of_singleton. discriminate.
  - simpl. lia.
Defined.

Definition room_created : Lobby :=
  default (lobby_init 3) (lobby_run accept_all (lobby_init 3) [Create 0 (Some "a") "r" "pw"]).

Lemma join_fresh_snapshot_capacity_witness :
  length (users (mkGroup "r" "r" "pw" ["a"; "b"])) <= 2.
Proof.
  apply (join_fresh_snapshot_capacity accept_all room_created 1 (Some "b") "r" "pw"
           (mkGroup "r" "r" "pw" ["a"])); vm_compute; [reflexivity|lia|reflexivity].
Defined.

Lemma lobby_groups_wf_witness : groups_wf (store room_demo).
Proof.
  apply (lobby_groups_wf accept_all 3).
  apply (lobby_run_rtc _ _ room_demo_trace). vm_compute. reflexivity.
Defined.

Lemma addUserToGroup_ignores_store_witness :
  let s' := room_actions (fun _ => false) 1 (addUserToGroup (Some "b") "r") (lobby_init 3) in
  store s' = store (lobby_init 3) /\ roomNames s' !! 1 = Some "r" /\
  (1, ToastSuccess "Room Joined") ∈ shown_room s'.
Proof.
  apply (addUserToGroup_ignores_store (fun _ => false) (lobby_init 3) 1 "b" "r");
    vm_compute; [reflexivity|lia].
Defined.
End Witnesses.
