(* ===== verification/Auth.v ===== *)
(** * Authentication: the provider and the route guards

    [src/src/context/auth-provider.tsx] keeps the signed-in [User] in the
    React state of [AuthProvider]; [src/src/routes/login.tsx] and
    [src/src/routes/_authenticated.tsx] redirect according to it.

    - [AuthState] is the state of [AuthProvider] (lines 45-46);
    - [onAuthStateChangedCallback] is the listener of lines 49-59. The
      effect has no dependencies, so the listener keeps the [isLoading] of
      the first render, [true];
    - [signIn] (lines 64-82) writes the profile document [users/uid] when it
      does not exist; [signOut] (lines 84-91) clears the user when Firebase
      signs out;
    - [route_effect] is the pair of guards: the login page sends a
      signed-in user to [/], the authenticated layout sends anyone else to
      [/login].

    Firebase's identity service is a parameter: the user it reports
    ([FbUser]), whether the popup succeeds, whether signing out succeeds;
    the store is one too: whether it answers the reads and writes of
    [signIn]. *)

From stdpp Require Import base list strings options gmap.
From S2P Require Import Prelude.

(** [type User] (lines 18-23). *)
Record User := mkUser {
  id : string;
  name : option string;
  email : option string;
  image : option string
}.

(** The user object Firebase reports. *)
Record FbUser := mkFbUser {
  uid : string;
  displayName : option string;
  fb_email : option string;
  photoURL : option string
}.

(** [{ id: user.uid, name: user.displayName, email: user.email, image:
    user.photoURL }] (lines 52-57 and 73-78). *)
Definition user_of (u : FbUser) : User :=
  mkUser (uid u) (displayName u) (fb_email u) (photoURL u).

(** [useState] of lines 45-46. *)
Record AuthState := mkAuth { user : option User; isLoading : bool }.

Definition auth_init : AuthState := mkAuth None true.

(** The listener of lines 49-59, with [closureLoading] the value of
    [isLoading] captured by the effect. A report of no user returns
    without touching [user]. *)
Definition onAuthStateChangedCallback (closureLoading : bool) (fb : option FbUser)
    (st : AuthState) : AuthState :=
  let st := if closureLoading then mkAuth (user st) false else st in
  match fb with
  | None => st
  | Some u => mkAuth (Some (user_of u)) (isLoading st)
  end.

(** The listener as registered: the effect ran once, on the first render,
    where [isLoading] is [true]. *)
Definition auth_listener (fb : option FbUser) (st : AuthState) : AuthState :=
  onAuthStateChangedCallback (isLoading auth_init) fb st.

(** [signIn] (lines 64-82) on the [users] collection: [popup] is the result
    of [signInWithPopup] ([None]: rejected, caught and logged), [store_ok]
    whether the store answers [getDoc] and accepts [setDoc] (a rejection
    is caught and logged, and writes nothing). An existing profile is left
    as it is. The provider's [user] is not set here: Firebase reports the
    new user to the listener. *)
Definition signIn (popup : option FbUser) (store_ok : bool) (profiles : gmap string User)
    : gmap string User :=
  match popup with
  | None => profiles
  | Some u =>
      match profiles !! uid u with
      | Some _ => profiles
      | None => if store_ok then <[uid u := user_of u]> profiles else profiles
      end
  end.

(** [signOut] (lines 84-91): [setUser(null)] after [firebaseSignOut]
    succeeds; a failure is logged. *)
Definition signOut (ok : bool) (st : AuthState) : AuthState :=
  if ok then mkAuth None (isLoading st) else st.

(** What [AuthProvider] renders (lines 93-107). *)
Inductive Rendered := Loader | Children.

Definition authProvider_render (st : AuthState) : Rendered :=
  if isLoading st then Loader else Children.

(** The two routes with a guard. *)
Inductive Route := LoginRoute | IndexRoute.

#[export] Instance Route_eq_dec : EqDecision Route.
Proof. solve_decision. Defined.

(** The effect of [LoginPage] (login.tsx lines 14-19) and of
    [AuthenticatedLayout] (_authenticated.tsx lines 13-18): where they
    navigate, if anywhere. *)
Definition route_effect (r : Route) (u : option User) : option Route :=
  match r, u with
  | LoginRoute, Some _ => Some IndexRoute
  | LoginRoute, None => None
  | IndexRoute, Some _ => None
  | IndexRoute, None => Some LoginRoute
  end.

Definition navigate (r : Route) (u : option User) : Route := default r (route_effect r u).

(** ** Theorems *)

(** C31: The two guards never send the user back and forth: from either
    route, after at most one navigation the guard of the page reached
    navigates no further, and that page is [/] exactly when a user is
    signed in. *)
Theorem route_settles (r : Route) (u : option User) :
  route_effect (navigate r u) u = None /\
  (navigate r u = IndexRoute <-> is_Some u).
Proof.
  destruct r, u as [u|]; simpl; (split; [done|]); split; try done;
    intros []; discriminate.
Qed.

(** C30: The provider shows its loader until Firebase first reports, and
    children after any report. A report that nobody is signed in (a
    session ended by Firebase, e.g. signed out in another tab) does not
    clear the user: the provider keeps the user it had, and the login page
    still sends it to [/]. *)
Theorem auth_listener_keeps_user (st : AuthState) (fb : FbUser) :
  authProvider_render auth_init = Loader /\
  let st' := auth_listener None (auth_listener (Some fb) st) in
  user st' = Some (user_of fb) /\ authProvider_render st' = Children /\
  navigate LoginRoute (user st') = IndexRoute.
Proof. done. Qed.

(** Signing in writes the profile only for a new user and only when the
    store answers: afterwards the profile of the signed-in user exists, an
    existing profile is never overwritten, other profiles are untouched,
    and signing in again with the same account changes nothing. *)
Theorem signIn_profile (popup : option FbUser) (profiles : gmap string User) :
  signIn popup true (signIn popup true profiles) = signIn popup true profiles /\
  (forall ok, signIn popup ok profiles = profiles \/ ok = true) /\
  forall u, popup = Some u ->
    signIn popup true profiles !! uid u = Some (default (user_of u) (profiles !! uid u)) /\
    forall k, k <> uid u -> signIn popup true profiles !! k = profiles !! k.
Proof.
  destruct popup as [u|]; simpl; [|split_and!; [done|by left|done]].
  destruct (profiles !! uid u) as [p|] eqn:Hp; simpl.
  - rewrite Hp. split_and!; [done|by left|]. intros ? [= <-]. rewrite Hp. by split.
  - rewrite lookup_insert_eq. split_and!; [done|intros []; [by right|by left]|].
    intros ? [= <-]. split.
    + by rewrite lookup_insert_eq, Hp.
    + intros k Hk. by rewrite lookup_insert_ne by congruence.
Qed.
