(* ===== verification/Effects.v ===== *)
(** * React effects that open store listeners

    Three components of the program open Firestore listeners from a
    [useEffect]: [Board] ([chessboard.tsx] 163-185, on [lobbyName]),
    [RoomInfromation] ([room.tsx] 255-307, on [roomName]) and
    [AuthProvider] ([auth-provider.tsx] 48-62, once). React runs the body of
    an effect after a render whose dependencies changed, first running the
    cleanup the previous run returned; unmounting runs the last cleanup;
    [<StrictMode>] ([main.tsx] 15) mounts every component twice in
    development: body, cleanup, body.

    [SubscriptionEffect] is what the lifecycle needs to know of an effect:
    for which dependency values its body opens a listener, and whether the
    body returns the [unsubscribe] cleanup. [EffState] counts the listeners
    it has open. The semantics of React is modelled from its documented
    behaviour. *)

From stdpp Require Import base list options.
From Stdlib Require Import Lia.
From S2P Require Import Prelude.

(** The interface one effect gives the lifecycle. *)
Record SubscriptionEffect (D : Type) := {
  opens : D -> bool;
  returns_cleanup : bool
}.
Arguments opens {D} _ _.
Arguments returns_cleanup {D} _.

(** The listeners the effect has opened and not closed, the cleanup React
    holds for it, and the dependencies of the last run ([None] when the
    component is not mounted). *)
Record EffState (D : Type) := mkEff {
  active : list D;
  pending_cleanup : option D;
  deps : option D
}.
Arguments mkEff {D} _ _ _.
Arguments active {D} _.
Arguments pending_cleanup {D} _.
Arguments deps {D} _.

Definition eff_init {D} : EffState D := mkEff [] None None.

(** The events of a component's life. *)
Inductive Lifecycle (D : Type) :=
  | Mount (strict : bool) (d : D)
  | Render (d : D)
  | Unmount.
Arguments Mount {D} _ _.
Arguments Render {D} _.
Arguments Unmount {D}.

(** Remove one occurrence: the listener an [unsubscribe] closes. *)
Fixpoint remove_one {D} `{EqDecision D} (d : D) (l : list D) : list D :=
  match l with
  | [] => []
  | x :: l' => if decide (x = d) then l' else x :: remove_one d l'
  end.

Section Lifecycle.
Context {D : Type} `{EqDecision D} (e : SubscriptionEffect D).

(** The body runs with dependencies [d]. *)
Definition body (d : D) (st : EffState D) : EffState D :=
  if opens e d then mkEff (active st ++ [d]) (if returns_cleanup e then Some d else None) (Some d)
  else mkEff (active st) None (Some d).

(** React runs the cleanup it holds, if any. *)
Definition cleanup (st : EffState D) : EffState D :=
  match pending_cleanup st with
  | Some d => mkEff (remove_one d (active st)) None (deps st)
  | None => st
  end.

(** A mount; under [StrictMode] body, cleanup, body. *)
Definition mount (strict : bool) (d : D) (st : EffState D) : EffState D :=
  let st1 := body d st in
  if strict then body d (cleanup st1) else st1.

(** A render: the effect runs again only when its dependency changed. *)
Definition rerender (d : D) (st : EffState D) : EffState D :=
  if bool_decide (deps st = Some d) then st else body d (cleanup st).

Definition unmount (st : EffState D) : EffState D :=
  let st' := cleanup st in mkEff (active st') None None.

(** A mount of a mounted component or a render of an unmounted one does
    not happen; they change nothing. *)
Definition eff_step (st : EffState D) (ev : Lifecycle D) : EffState D :=
  match ev, deps st with
  | Mount strict d, None => mount strict d st
  | Render d, Some _ => rerender d st
  | Unmount, Some _ => unmount st
  | _, _ => st
  end.

Definition eff_run (st : EffState D) (evs : list (Lifecycle D)) : EffState D :=
  foldl eff_step st evs.

(** What the listeners should be for the dependencies [dep]. *)
Definition expected (dep : option D) : list D :=
  match dep with
  | Some d => if opens e d then [d] else []
  | None => []
  end.

(** The state of an effect that cleans up: its listeners are those of
    its last dependencies, and React holds the cleanup of the open one. *)
Definition clean_state (st : EffState D) : Prop :=
  active st = expected (deps st) /\
  pending_cleanup st = match active st with [d] => Some d | _ => None end.

Lemma remove_one_singleton (d : D) : remove_one d [d] = [].
Proof. simpl. by rewrite decide_True. Qed.

Lemma clean_state_cleanup st :
  clean_state st -> active (cleanup st) = [] /\ pending_cleanup (cleanup st) = None.
Proof.
  intros [Ha Hp]. unfold cleanup. rewrite Hp.
  destruct (active st) as [|d [|d' l]] eqn:E; simpl.
  - by split.
  - split; [|done]. by rewrite decide_True.
  - exfalso. unfold expected in Ha.
    destruct (deps st); [destruct (opens e _)|]; discriminate.
Qed.

Lemma clean_state_body d st :
  returns_cleanup e = true -> active st = [] -> pending_cleanup st = None ->
  clean_state (body d st).
Proof.
  intros Hc Ha Hp. unfold body, clean_state, expected.
  destruct (opens e d) eqn:Ho; simpl; rewrite Ha, ?Ho, ?Hc; done.
Qed.

Lemma clean_state_step st ev :
  returns_cleanup e = true -> clean_state st -> clean_state (eff_step st ev).
Proof.
  intros Hc Hst. pose proof (clean_state_cleanup _ Hst) as [Ha Hp].
  destruct ev as [strict d|d|]; unfold eff_step; destruct (deps st) as [d0|] eqn:Hd; try done.
  - destruct Hst as [Hst1 Hst2]. rewrite Hd in Hst1. simpl in Hst1.
    unfold mount. destruct strict.
    + destruct (clean_state_cleanup (body d st)) as [H1 H2];
        [apply clean_state_body; [done|done|by rewrite Hst2, Hst1]|].
      by apply clean_state_body.
    + apply clean_state_body; [done|done|by rewrite Hst2, Hst1].
  - unfold rerender. case_bool_decide; [done|]. by apply clean_state_body.
  - unfold unmount, clean_state. simpl. by rewrite Ha.
Qed.

(** An effect that returns its cleanup keeps exactly the listener of its
    current dependencies, across any mounts (strict or not), renders and
    unmounts. *)
Lemma clean_state_run st evs :
  returns_cleanup e = true -> clean_state st -> clean_state (eff_run st evs).
Proof.
  intros Hc. unfold eff_run. revert st.
  induction evs as [|ev evs IH]; intros st Hst; [done|]. simpl.
  apply IH. by apply clean_state_step.
Qed.

(** An effect without cleanup only ever adds listeners. *)
Lemma eff_step_no_cleanup st ev :
  returns_cleanup e = false -> pending_cleanup st = None ->
  pending_cleanup (eff_step st ev) = None /\
  exists added, active (eff_step st ev) = active st ++ added /\
    Forall (fun d => opens e d = true) added.
Proof.
  intros Hc Hp.
  assert (Hb : forall d st', pending_cleanup (body d st') = None /\
             exists added, active (body d st') = active st' ++ added /\
               Forall (fun d => opens e d = true) added).
  { intros d st'. unfold body. rewrite Hc. destruct (opens e d) eqn:Ho; simpl.
    - split; [done|]. exists [d]. split; [done|]. by constructor.
    - split; [done|]. exists []. by rewrite app_nil_r. }
  assert (Hcl : forall st', pending_cleanup st' = None -> cleanup st' = st')
    by (intros st' H'; unfold cleanup; by rewrite H').
  destruct ev as [strict d|d|]; unfold eff_step; destruct (deps st) as [d0|] eqn:Hd;
    try (split; [done|exists []; by rewrite app_nil_r]).
  - unfold mount. destruct (Hb d st) as [Hp1 (a1 & Ha1 & Hf1)].
    destruct strict; [|eauto].
    rewrite Hcl by done. destruct (Hb d (body d st)) as [Hp2 (a2 & Ha2 & Hf2)].
    split; [done|]. exists (a1 ++ a2). rewrite Ha2, Ha1, app_assoc.
    split; [done|]. by apply Forall_app.
  - unfold rerender. case_bool_decide; [split; [done|exists []; by rewrite app_nil_r]|].
    rewrite Hcl by done. apply Hb.
  - unfold unmount. rewrite Hcl by done. simpl. split; [done|]. exists [].
    by rewrite app_nil_r.
Qed.

Lemma eff_run_no_cleanup st evs :
  returns_cleanup e = false -> pending_cleanup st = None ->
  exists added, active (eff_run st evs) = active st ++ added.
Proof.
  intros Hc. unfold eff_run. revert st.
  induction evs as [|ev evs IH]; intros st Hp; simpl; [exists []; by rewrite app_nil_r|].
  destruct (eff_step_no_cleanup st ev Hc Hp) as [Hp' (a & Ha & _)].
  destruct (IH _ Hp') as [b Hb]. exists (a ++ b). by rewrite Hb, Ha, app_assoc.
Qed.
(** *** Where the dependencies of an effect are *)

Lemma deps_cleanup st : deps (cleanup st) = deps st.
Proof. unfold cleanup. by destruct (pending_cleanup st). Qed.

Lemma deps_body d st : deps (body d st) = Some d.
Proof. unfold body. by destruct (opens e d). Qed.

Lemma deps_mount st strict d :
  deps st = None -> deps (eff_step st (Mount strict d)) = Some d.
Proof. intros Hd. unfold eff_step. rewrite Hd. unfold mount. destruct strict; apply deps_body. Qed.

Lemma deps_render st d d0 :
  deps st = Some d0 -> deps (eff_step st (Render d)) = Some d.
Proof.
  intros Hd. unfold eff_step. rewrite Hd. unfold rerender.
  case_bool_decide as Heq; [by rewrite Heq|apply deps_body].
Qed.

Lemma deps_unmount st d0 : deps st = Some d0 -> deps (eff_step st Unmount) = None.
Proof. intros Hd. unfold eff_step. by rewrite Hd. Qed.
End Lifecycle.
