(* ===== verification/RoomInfo.v ===== *)
(** * The room card: [RoomInfromation]

    [RoomInfromation] ([src/src/room.tsx] 252-331) shows the room name and
    its members. Its effect (lines 255-307) runs on every change of
    [roomName]: [fetchData] subscribes to [groups/roomName]; on every
    snapshot of an existing group it subscribes to the query of the
    [users] whose [id] is a member, and every answer of that query with at
    least one profile goes to [setMatchedUsers]. The effect returns no
    cleanup, and neither listener is ever unsubscribed.

    For [roomName = ''] the reference [doc(data, 'groups', '')] has one
    path segment; Firestore refuses it and the [catch] of [fetchData]
    logs the error: no listener is opened.

    A snapshot event is one delivered to a listener of the mounted card;
    which of its listeners it comes from is not recorded, so the card may
    be sent the members of a room it showed earlier, as in the code. *)

From stdpp Require Import base list strings options.
From Stdlib Require Import Lia.
From S2P Require Import Prelude Room Auth Effects.

(** The effect of lines 255-307, as the lifecycle of [Effects] sees it. *)
Definition roomInfo_group_effect : SubscriptionEffect string :=
  {| opens := fun roomName => negb (bool_decide (roomName = ""));
     returns_cleanup := false |}.

(** The state of the card: its group listeners, the member lists of the
    [users] queries it listens to, and [matchedUsers]. *)
Record InfoState := mkInfo {
  group_sub : EffState string;
  user_queries : list (list string);
  matchedUsers : option (list User)
}.

Definition info_init : InfoState := mkInfo eff_init [] None.

Inductive InfoEvent :=
  | InfoLife (ev : Lifecycle string)        (** mount, render with a [roomName], unmount *)
  | GroupSnapshot (snap : option Group)     (** the callback of lines 262-297 *)
  | UsersSnapshot (fetched : list User).    (** the callback of lines 279-292 *)

(** A missing group is logged; an existing one opens a new query
    [where('id', 'in', group.users)] (lines 269-277), none being closed. *)
Definition roomInfo_on_group (snap : option Group) (st : InfoState) : InfoState :=
  match snap with
  | None => st
  | Some g => mkInfo (group_sub st) (user_queries st ++ [users g]) (matchedUsers st)
  end.

(** An empty answer is logged; otherwise [setMatchedUsers(fetchedUsers)]. *)
Definition roomInfo_on_users (fetched : list User) (st : InfoState) : InfoState :=
  match fetched with
  | [] => st
  | _ => mkInfo (group_sub st) (user_queries st) (Some fetched)
  end.

Definition roomInfo_step (st : InfoState) (ev : InfoEvent) : InfoState :=
  match ev with
  | InfoLife lev =>
      mkInfo (eff_step roomInfo_group_effect (group_sub st) lev) (user_queries st) (matchedUsers st)
  | GroupSnapshot snap => roomInfo_on_group snap st
  | UsersSnapshot fetched => roomInfo_on_users fetched st
  end.

Definition roomInfo_run (st : InfoState) (evs : list InfoEvent) : InfoState :=
  foldl roomInfo_step st evs.

(** ** What the card renders (lines 309-331) *)

(** One member: [user.name], and [user.image || 'error'] as the image. *)
Definition member_view (u : User) : option string * string :=
  (name u, match image u with
           | Some src => if bool_decide (src = "") then "error" else src
           | None => "error"
           end%string).

Inductive CardBody :=
  | Members (ms : list (option string * string))
  | NoUsers.      (** "No users found in this room." *)

(** [Array.isArray(matchedUsers) && matchedUsers.length > 0 ? ... : ...] *)
Definition roomInfo_render (st : InfoState) : CardBody :=
  match matchedUsers st with
  | Some (u :: us) => Members (map member_view (u :: us))
  | _ => NoUsers
  end.
