(* ===== verification/Shell.v ===== *)
(** * The application shell: how the components are put together

    [src/src/main.tsx] renders, inside [<StrictMode>], the [AuthProvider]
    and the router. [AuthProvider] renders its loader until Firebase first
    reports, then the routes. The route [/] ([routes/_authenticated/index.tsx])
    renders [RootPage]: the [Lobby], which calls [setLobbyName(roomName)] on
    every render ([room.tsx] 45), the [Board] with that [lobbyName], and the
    sign-out button. The guards of [routes/login.tsx] and
    [routes/_authenticated.tsx] move between [/login] and [/].

    [App] is the state of one browser: the provider's state and its
    listener, the route, the [roomName] of [Lobby], the [lobbyName] of
    [RootPage], the listener of [Board] and the toasts of its effect, the
    state of [RoomInfromation] and the [users] profiles [signIn] writes.
    [app_step] is one event: a report of Firebase, a click on the sign-in
    button of the login page or on the sign-out button, a room name set by
    the dialogs of [Room], or a snapshot for the room card. After a change
    of the user, [settle] follows React's order: the router first renders
    the page of the current route ([sync_page]; [AuthenticatedLayout]
    renders its [<Outlet />] whoever is signed in), its effects run, then
    the guard navigates and the page of the new route replaces it. The
    effects follow the lifecycle of [Effects]; [strict] says whether the
    build is a development build, where [StrictMode] mounts twice.

    The section [Takeover] composes [Room] with [Sync]: the second write of
    [createRoom] replaces the board document of a room. *)

From stdpp Require Import base list strings options sets relations gmap.
From Stdlib Require Import ZArith Lia.
From S2P Require Import Prelude Pieces Movement Legality Board Sync Room Auth Effects RoomInfo.

(** The effect of [Board] (chessboard.tsx 163-185): a listener on
    [lobbyName/data] when [lobbyName] is not empty, and its
    [unsubscribe] as cleanup. *)
Definition board_effect : SubscriptionEffect string :=
  {| opens := fun lobbyName => negb (bool_decide (lobbyName = ""));
     returns_cleanup := true |}.

(** The effect of [AuthProvider] (auth-provider.tsx 48-62): one listener,
    and [unsub] as cleanup. *)
Definition auth_effect : SubscriptionEffect unit :=
  {| opens := fun _ => true; returns_cleanup := true |}.

Record App := mkApp {
  auth : AuthState;
  auth_sub : EffState unit;
  route : Route;
  roomName : string;
  lobbyName : string;
  board_sub : EffState string;
  board_shown : list Effect;      (** the toasts of [Board]'s effect *)
  info : InfoState;
  profiles : gmap string User     (** the [users] collection, as [signIn] writes it *)
}.

Inductive AppEvent :=
  | AuthReport (fb : option FbUser)     (** the [onAuthStateChanged] listener runs *)
  | SignOutClick (ok : bool)            (** index.tsx 22-29; [ok]: Firebase signed out *)
  | RoomNameSet (n : string)            (** [setRoomName] of a dialog of [Room] *)
  | CardEvent (ev : InfoEvent)          (** a snapshot for [RoomInfromation] *)
  | SignInClick (popup : option FbUser) (store_ok : bool).
      (** login.tsx 27-37; [popup]: the account chosen; [store_ok]: the store answers *)

(** Updates of one part of the state. *)
Definition with_auth (st : AuthState) (a : App) : App :=
  mkApp st (auth_sub a) (route a) (roomName a) (lobbyName a) (board_sub a) (board_shown a)
        (info a) (profiles a).
Definition with_route (r : Route) (a : App) : App :=
  mkApp (auth a) (auth_sub a) r (roomName a) (lobbyName a) (board_sub a) (board_shown a)
        (info a) (profiles a).
Definition with_info (i : InfoState) (a : App) : App :=
  mkApp (auth a) (auth_sub a) (route a) (roomName a) (lobbyName a) (board_sub a) (board_shown a)
        i (profiles a).
Definition with_profiles (p : gmap string User) (a : App) : App :=
  mkApp (auth a) (auth_sub a) (route a) (roomName a) (lobbyName a) (board_sub a) (board_shown a)
        (info a) p.

(** The toasts of one run of the body of [Board]'s effect (chessboard.tsx
    164-166): "You are not in a lobby" when [lobbyName] is empty. *)
Definition board_toasts (n : string) : list Effect := (boardSubscription n None).2.

Section App.
Variable strict : bool.

(** [AuthProvider] renders the router once it is not loading; the route
    [/] renders [AuthenticatedLayout], whose [<Outlet />] (line 20) renders
    [RootPage] whoever is signed in. *)
Definition page_mounted (a : App) : bool :=
  negb (isLoading (auth a)) && bool_decide (route a = IndexRoute).

(** The router renders [LoginPage] at [/login] once the provider is not
    loading. *)
Definition login_shown (a : App) : bool :=
  negb (isLoading (auth a)) && bool_decide (route a = LoginRoute).

(** [main.tsx] 13-21: the provider mounts with its effect; the router
    starts at the route [r0] the browser opened. *)
Definition app_init (r0 : Route) : App :=
  mkApp auth_init (eff_step auth_effect eff_init (Mount strict tt)) r0 "" ""
        eff_init [] info_init ∅.

(** [RootPage] mounts: new [useState('')] for [roomName] and [lobbyName];
    the effects of [Board] and of the card mount with [""], so the body of
    [Board]'s effect runs once, or twice under [StrictMode]. The card
    keeps the listeners an earlier instance left open. *)
Definition mount_page (a : App) : App :=
  mkApp (auth a) (auth_sub a) (route a) "" ""
        (eff_step board_effect (board_sub a) (Mount strict ""))
        (board_shown a ++ board_toasts "" ++ (if strict then board_toasts "" else []))
        (roomInfo_step (mkInfo (group_sub (info a)) (user_queries (info a)) None)
                       (InfoLife (Mount strict "")))
        (profiles a).

(** [RootPage] unmounts: React runs the cleanups it holds. *)
Definition unmount_page (a : App) : App :=
  mkApp (auth a) (auth_sub a) (route a) (roomName a) (lobbyName a)
        (eff_step board_effect (board_sub a) Unmount) (board_shown a)
        (roomInfo_step (info a) (InfoLife Unmount)) (profiles a).

(** [RootPage] is mounted or unmounted to follow what the router shows,
    given whether it was mounted. *)
Definition sync_page (was : bool) (a : App) : App :=
  if was && negb (page_mounted a) then unmount_page a
  else if negb was && page_mounted a then mount_page a
  else a.

(** After a change of the user: the router renders the page of the
    current route and its effects run, children first; then the guard of
    the route ([login.tsx] 14-19, [_authenticated.tsx] 13-18) navigates,
    and the page of the new route replaces it. *)
Definition settle (was : bool) (a : App) : App :=
  let a1 := sync_page was a in
  sync_page (page_mounted a1) (with_route (navigate (route a1) (user (auth a1))) a1).

(** A new [roomName] renders [Lobby], which sets [lobbyName] (room.tsx
    45); [Board] and the card render with it and their effects follow
    their dependencies. *)
Definition set_room (n : string) (a : App) : App :=
  mkApp (auth a) (auth_sub a) (route a) n n
        (eff_step board_effect (board_sub a) (Render n))
        (board_shown a ++ (if bool_decide (lobbyName a = n) then [] else board_toasts n))
        (roomInfo_step (info a) (InfoLife (Render n))) (profiles a).

Definition app_step (a : App) (ev : AppEvent) : App :=
  match ev with
  | AuthReport fb => settle (page_mounted a) (with_auth (auth_listener fb (auth a)) a)
  | SignOutClick ok => settle (page_mounted a) (with_auth (signOut ok (auth a)) a)
  | RoomNameSet n => if page_mounted a then set_room n a else a
  | CardEvent ev => with_info (roomInfo_step (info a) ev) a
  | SignInClick popup ok =>
      if login_shown a then with_profiles (signIn popup ok (profiles a)) a else a
  end.

Definition app_run (a : App) (evs : list AppEvent) : App := foldl app_step a evs.
End App.

(** ** Takeover of a room seen from the boards *)

Section Takeover.
Context `{MovementTables}.
Context (lobbyName : string) (fuel : nat).

(** The second write of [createRoom] (room.tsx 84-90) on a room that
    exists: [setDoc] replaces the board document, and every listener is
    sent the new one. *)
Definition sys_reseed (s : Sys) (d : RoomDoc) : Sys :=
  mkSys (Some d) (notify d (clients s)).

(** A [Board] mounts in the room (chessboard.tsx 163-185): a new client
    whose listener is first sent the document as it is. *)
Definition sys_mount (s : Sys) : Sys :=
  mkSys (server s) (clients s ++ [client_init lobbyName (server s)]).

(** The events of a room: a step of [Sync], a [createRoom] of the room's
    name, a board mounting. *)
Inductive RoomLabel :=
  | SyncStep (l : Label)
  | CreateRoomAgain
  | BoardMount.

Definition room_step (s : Sys) (rl : RoomLabel) : option Sys :=
  match rl with
  | SyncStep l => sys_step lobbyName fuel s l
  | CreateRoomAgain => Some (sys_reseed s createRoom_seed)
  | BoardMount => Some (sys_mount s)
  end.

Definition room_rel (s s' : Sys) : Prop := exists rl, room_step s rl = Some s'.

Fixpoint room_run (s : Sys) (ls : list RoomLabel) : option Sys :=
  match ls with
  | [] => Some s
  | l :: ls' => s' ← room_step s l; room_run s' ls'
  end.

Lemma room_run_rtc s ls s' : room_run s ls = Some s' -> rtc room_rel s s'.
Proof.
  revert s. induction ls as [|l ls IH]; intros s Hs; simpl in Hs; [by injection Hs as ->|].
  destruct (room_step s l) as [s1|] eqn:E; [|done]. simpl in Hs.
  apply rtc_l with s1; [by exists l|by apply IH].
Qed.

End Takeover.

#[export] Instance Label_eq_dec : EqDecision Label.
Proof. solve_decision. Defined.

#[export] Instance RoomLabel_eq_dec : EqDecision RoomLabel.
Proof. solve_decision. Defined.

Section LateMount.
Context `{MovementTables}.
Context (lobbyName : string) (fuel : nat).
Hypothesis Hlobby : lobbyName <> "".

Lemma sys_mount_inv s : sys_inv s -> sys_inv (sys_mount lobbyName s).
Proof using Hlobby.
  intros (r & Hs & Hw & Hall). exists r. split_and!; [done|done|]. simpl.
  apply Forall_app. split; [done|]. constructor; [|done]. rewrite Hs.
  by apply client_init_inv.
Qed.

Lemma room_step_inv s rl s' :
  rl <> CreateRoomAgain -> sys_inv s -> room_step lobbyName fuel s rl = Some s' -> sys_inv s'.
Proof using Hlobby.
  intros Hrl Hs. destruct rl as [l| |]; simpl; [|done|].
  - intros Hl. by eapply sys_step_inv.
  - intros [= <-]. by apply sys_mount_inv.
Qed.

Lemma room_run_inv s ls s' :
  CreateRoomAgain ∉ ls -> sys_inv s -> room_run lobbyName fuel s ls = Some s' -> sys_inv s'.
Proof using Hlobby.
  revert s. induction ls as [|rl ls IH]; intros s Hn Hs Hr; simpl in Hr.
  - by injection Hr as <-.
  - apply not_elem_of_cons in Hn as [Hrl Hn].
    destruct (room_step lobbyName fuel s rl) as [s1|] eqn:E; [|done].
    apply (IH s1); [done| |done]. by eapply room_step_inv.
Qed.
End LateMount.

(** ** Invariant of the shell *)

(** One listener of the provider; the listener of [Board] is the one of
    its current dependencies, which are [lobbyName] while [RootPage] is
    mounted; [lobbyName] is [roomName]. *)
Definition shell_inv (a : App) : Prop :=
  clean_state auth_effect (auth_sub a) /\ deps (auth_sub a) = Some tt /\
  clean_state board_effect (board_sub a) /\
  deps (board_sub a) = (if page_mounted a then Some (lobbyName a) else None) /\
  lobbyName a = roomName a.

(** The card's listeners and queries only grow, and React never holds a
    cleanup for it. *)
Definition info_grows (st st' : InfoState) : Prop :=
  pending_cleanup (group_sub st') = None /\
  active (group_sub st) `prefix_of` active (group_sub st') /\
  user_queries st `prefix_of` user_queries st'.

Lemma clean_state_init {D} `{EqDecision D} (e : SubscriptionEffect D) :
  clean_state e eff_init.
Proof. done. Qed.

Lemma info_grows_refl st : pending_cleanup (group_sub st) = None -> info_grows st st.
Proof. intros Hp. split; [done|split; reflexivity]. Qed.

Lemma info_grows_trans st1 st2 st3 :
  info_grows st1 st2 -> info_grows st2 st3 -> info_grows st1 st3.
Proof. intros (_ & H1 & H2) (Hp & H3 & H4). split_and!; [done|by etrans|by etrans]. Qed.

Lemma roomInfo_step_grows st ev :
  pending_cleanup (group_sub st) = None -> info_grows st (roomInfo_step st ev).
Proof.
  intros Hp. destruct ev as [lev|[g|]|[|u us]]; unfold info_grows; cbn.
  - destruct (eff_step_no_cleanup roomInfo_group_effect _ lev eq_refl Hp)
      as [? (added & -> & _)]. split_and!; [done|by exists added|done].
  - split_and!; [done|done|by exists [users g]].
  - done.
  - done.
  - done.
Qed.

Section ShellLemmas.
Variable strict : bool.

Lemma shell_inv_init r0 : shell_inv (app_init strict r0).
Proof.
  split_and!.
  - apply (clean_state_step _ eff_init (Mount strict tt)); [done|apply clean_state_init].
  - by apply (deps_mount auth_effect eff_init).
  - apply clean_state_init.
  - done.
  - done.
Qed.

(** Mounting or unmounting the page to follow the router keeps the
    invariant, given where the listener of [Board] was. *)
Lemma shell_inv_sync (was : bool) (a : App) :
  clean_state auth_effect (auth_sub a) -> deps (auth_sub a) = Some tt ->
  clean_state board_effect (board_sub a) ->
  deps (board_sub a) = (if was then Some (lobbyName a) else None) ->
  lobbyName a = roomName a ->
  shell_inv (sync_page strict was a).
Proof.
  intros Ha1 Ha2 Hb1 Hb2 Hlr. unfold sync_page.
  destruct was, (page_mounted a) eqn:Hm; cbn [andb negb].
  - split_and!; try done. by rewrite Hm.
  - unfold shell_inv, unmount_page, page_mounted in *.
    cbn [auth_sub board_sub lobbyName roomName auth route] in *. rewrite Hm.
    split_and!; try done.
    + by apply clean_state_step.
    + by eapply deps_unmount.
  - unfold shell_inv, mount_page, page_mounted in *.
    cbn [auth_sub board_sub lobbyName roomName auth route] in *. rewrite Hm.
    split_and!; try done.
    + by apply clean_state_step.
    + by apply deps_mount.
  - split_and!; try done. by rewrite Hm.
Qed.

Lemma shell_inv_settle (was : bool) (a : App) :
  clean_state auth_effect (auth_sub a) -> deps (auth_sub a) = Some tt ->
  clean_state board_effect (board_sub a) ->
  deps (board_sub a) = (if was then Some (lobbyName a) else None) ->
  lobbyName a = roomName a ->
  shell_inv (settle strict was a).
Proof.
  intros Ha1 Ha2 Hb1 Hb2 Hlr. unfold settle.
  destruct (shell_inv_sync was a Ha1 Ha2 Hb1 Hb2 Hlr) as (H1 & H2 & H3 & H4 & H5).
  by apply shell_inv_sync.
Qed.

Lemma shell_inv_step a ev : shell_inv a -> shell_inv (app_step strict a ev).
Proof.
  intros (Ha1 & Ha2 & Hb1 & Hb2 & Hlr). destruct ev as [fb|ok|n|cev|popup sok]; cbn [app_step].
  - by apply shell_inv_settle.
  - by apply shell_inv_settle.
  - destruct (page_mounted a) eqn:Hm; [|by split_and!; rewrite ?Hm].
    unfold shell_inv, set_room, page_mounted in *.
    cbn [auth_sub board_sub lobbyName roomName auth route] in *. rewrite Hm.
    split_and!; try done.
    + by apply clean_state_step.
    + by eapply deps_render.
  - split_and!; try done.
  - destruct (login_shown a); [|done]. split_and!; try done.
Qed.

Lemma shell_inv_run a evs : shell_inv a -> shell_inv (app_run strict a evs).
Proof.
  unfold app_run. revert a. induction evs as [|ev evs IH]; intros a Ha; [done|].
  simpl. by apply IH, shell_inv_step.
Qed.

Lemma sync_page_grows was a :
  pending_cleanup (group_sub (info a)) = None ->
  info_grows (info a) (info (sync_page strict was a)).
Proof.
  intros Hp. unfold sync_page. destruct was, (page_mounted a); cbn [andb negb].
  - by apply info_grows_refl.
  - by apply roomInfo_step_grows.
  - by apply (roomInfo_step_grows (mkInfo _ _ None)).
  - by apply info_grows_refl.
Qed.

Lemma settle_grows was a :
  pending_cleanup (group_sub (info a)) = None ->
  info_grows (info a) (info (settle strict was a)).
Proof.
  intros Hp. unfold settle. pose proof (sync_page_grows was a Hp) as H1.
  eapply info_grows_trans; [exact H1|]. apply (sync_page_grows _ (with_route _ _)), H1.
Qed.

Lemma app_step_info a ev :
  pending_cleanup (group_sub (info a)) = None ->
  info_grows (info a) (info (app_step strict a ev)).
Proof.
  intros Hp. destruct ev as [fb|ok|n|cev|popup sok]; cbn [app_step].
  - by apply (settle_grows _ (with_auth _ a)).
  - by apply (settle_grows _ (with_auth _ a)).
  - destruct (page_mounted a); [by apply roomInfo_step_grows|by apply info_grows_refl].
  - by apply roomInfo_step_grows.
  - destruct (login_shown a); by apply info_grows_refl.
Qed.
End ShellLemmas.

Lemma app_run_info strict a evs :
  pending_cleanup (group_sub (info a)) = None ->
  info_grows (info a) (info (app_run strict a evs)).
Proof.
  unfold app_run. revert a. induction evs as [|ev evs IH]; intros a Hp; simpl.
  - by apply info_grows_refl.
  - pose proof (app_step_info strict a ev Hp) as H1.
    eapply info_grows_trans; [exact H1|]. apply IH, H1.
Qed.

(** ** Theorems of the shell *)

(** C15: Whatever the user does (signing in and out, choosing rooms) and
    whether or not [StrictMode] mounts twice, the provider holds exactly
    one Firebase listener, [lobbyName] is [roomName], and [Board] listens
    to exactly one room document, the current one, while [RootPage] is
    shown with a room, and to none otherwise. *)
Theorem board_listens_to_current_room (strict : bool) (r0 : Route) (evs : list AppEvent) :
  let a := app_run strict (app_init strict r0) evs in
  active (auth_sub a) = [tt] /\ lobbyName a = roomName a /\
  active (board_sub a) =
    if page_mounted a && negb (bool_decide (lobbyName a = "")) then [lobbyName a] else [].
Proof.
  cbv zeta. destruct (shell_inv_run strict (app_init strict r0) evs (shell_inv_init strict r0))
    as ([Ha1 _] & Ha2 & [Hb1 _] & Hb2 & Hlr).
  split_and!; [by rewrite Ha1, Ha2|done|].
  rewrite Hb1, Hb2. unfold expected. destruct (page_mounted _); simpl; [|done].
  by destruct (bool_decide _).
Qed.

(** C24: The room card's listeners are never closed: along any run of the
    application its open group listeners and its [users] queries only
    grow. In particular, signing out unmounts [RootPage] and closes the
    board's listener, but the card still listens to the room it showed. *)
Theorem roomInfo_listeners_never_closed (strict : bool) (r0 : Route)
    (evs1 evs2 : list AppEvent) :
  (let a1 := app_run strict (app_init strict r0) evs1 in
   let a2 := app_run strict a1 evs2 in
   active (group_sub (info a1)) `prefix_of` active (group_sub (info a2)) /\
   user_queries (info a1) `prefix_of` user_queries (info a2)) /\
  (let a := app_run strict (app_init strict LoginRoute)
              [AuthReport (Some (mkFbUser "u1" None None None)); RoomNameSet "r";
               SignOutClick true] in
   page_mounted a = false /\ active (board_sub a) = [] /\
   active (group_sub (info a)) = ["r"%string]).
Proof.
  split; [cbv zeta|by destruct strict; vm_compute].
  destruct (app_run_info strict (app_init strict r0) evs1 eq_refl) as (Hp & _).
  by destruct (app_run_info strict _ evs2 Hp) as (_ & ? & ?).
Qed.

Section TakeoverTheorem.
Local Open Scope string_scope.

(** C13: A second [createRoom] of a room's name replaces the board
    document while boards listen to it, and the replacement has no key of
    a piece. A board that moved [pawn5] keeps it where it moved it; a
    board mounted afterwards shows it on its initial square. Both have
    delivered every snapshot and finished every handler, yet they
    disagree: convergence (C5) does not survive a takeover. *)
Theorem takeover_desynchronises_boards :
  exists s cl0 cl1,
    rtc (room_rel "lobby" 8) (sys_init "lobby" 1 (Some createRoom_seed)) s /\
    server s = Some createRoom_seed /\ clients s = [cl0; cl1] /\
    inbox cl0 = [] /\ Forall (fun l => l = []) (inflight cl0) /\
    inbox cl1 = [] /\ Forall (fun l => l = []) (inflight cl1) /\
    obj_get "pawn5" (piecePositions (board cl0)) = Some ⟨5, 4⟩ /\
    obj_get "pawn5" (piecePositions (board cl1)) = Some ⟨6, 4⟩.
Proof.
  set (tr := (map SyncStep [Click 0 6 4 true; Exec 0 0; Exec 0 0; Click 0 5 4 false;
                           Exec 0 1; Exec 0 1; Exec 0 1; Deliver 0; Deliver 0] ++
             [CreateRoomAgain; SyncStep (Deliver 0); BoardMount; SyncStep (Deliver 1)])%list).
  destruct (room_run "lobby" 8 (sys_init "lobby" 1 (Some createRoom_seed)) tr) as [s|] eqn:E;
    [|vm_compute in E; discriminate].
  exists s. pose proof (room_run_rtc _ _ _ _ _ E) as Hr.
  vm_compute in E. injection E as <-.
  do 2 eexists. split; [exact Hr|]. split_and!; try reflexivity; repeat constructor.
Qed.
End TakeoverTheorem.

Section LateMountTheorem.
Context `{MovementTables}.
Context (lobbyName : string) (fuel : nat).
Hypothesis Hlobby : lobbyName <> "".

(** C14: A [Board] that mounts in a room at any time, after any moves,
    writes and deliveries of the boards already there and as long as the
    room is not created again, refines the contract of the board document
    (C4) once it has run its snapshots and handlers: it shows the initial
    positions overwritten by the server document. *)
Theorem late_board_refines r0 n ls s c cl :
  obj_wf (doc_positions r0) -> CreateRoomAgain ∉ ls ->
  room_run lobbyName fuel (sys_init lobbyName n (Some r0)) ls = Some s ->
  clients s !! c = Some cl -> inbox cl = [] -> Forall (fun l => l = []) (inflight cl) ->
  exists r, server s = Some r /\
    obj_equiv (piecePositions (board cl)) (obj_spread initialPositions (doc_positions r)).
Proof using Hlobby.
  intros Hw Hn Hr. apply settled_spread.
  eapply room_run_inv; [done|done| |done]. by apply sys_init_inv.
Qed.
End LateMountTheorem.

Section LateMountWitness.
Local Open Scope string_scope.

(** One board moves [pawn5] to (5, 4) and settles; a second board mounts
    and runs its first snapshot. *)
Definition late_trace : list RoomLabel :=
  (map SyncStep [Click 0 6 4 true; Exec 0 0; Exec 0 0; Click 0 5 4 false;
                 Exec 0 1; Exec 0 1; Exec 0 1; Deliver 0; Deliver 0] ++
   [BoardMount; SyncStep (Deliver 1)])%list.

Definition late_after : Sys :=
  default (sys_init "lobby" 1 None) (room_run "lobby" 8 (sys_init "lobby" 1 (Some createRoom_seed)) late_trace).

Lemma late_board_refines_witness :
  exists r, server late_after = Some r /\
    obj_equiv (piecePositions (board (demo_client late_after 1)))
              (obj_spread initialPositions (doc_positions r)).
Proof.
  apply (late_board_refines "lobby" 8 ltac:(discriminate) createRoom_seed 1 late_trace
           late_after 1 (demo_client late_after 1)).
  - apply createRoom_seed_wf.
  - apply (bool_decide_unpack _). vm_compute. reflexivity.
  - vm_compute. reflexivity.
  - vm_compute. reflexivity.
  - vm_compute. reflexivity.
  - vm_compute. repeat constructor.
Defined.
End LateMountWitness.

(** ** Signing in *)

(** From the login page: once Firebase reports that nobody is signed in,
    the login page is shown; a click whose popup succeeds writes the
    profile of the account, and Firebase's report of the user sends the
    browser to [/], where [RootPage] mounts with no room and [Board] with
    no listener. *)
Theorem sign_in_flow (strict : bool) (u : FbUser) :
  let a := app_run strict (app_init strict LoginRoute)
             [AuthReport None; SignInClick (Some u) true; AuthReport (Some u)] in
  route a = IndexRoute /\ page_mounted a = true /\
  profiles a !! uid u = Some (user_of u) /\ roomName a = "" /\ active (board_sub a) = [].
Proof.
  cbv zeta. destruct strict; simpl; (split_and!; [done|done| |done|done]).
  all: by rewrite lookup_empty, lookup_insert_eq.
Qed.

(** ** Opening [/] signed out *)

(** A visitor who is not signed in and opens [/] ends on [/login], but
    [AuthenticatedLayout] renders its [<Outlet />] before its guard runs:
    [RootPage] mounts for one render, so [Board]'s effect shows "You are
    not in a lobby" (twice in a development build) before the redirect. *)
Theorem signed_out_visitor_sees_board_toast (strict : bool) :
  let a := app_run strict (app_init strict IndexRoute) [AuthReport None] in
  route a = LoginRoute /\ page_mounted a = false /\ active (board_sub a) = [] /\
  board_shown a = (if strict then [Toast "You are not in a lobby"; Toast "You are not in a lobby"]
                   else [Toast "You are not in a lobby"]).
Proof. destruct strict; vm_compute; auto. Qed.
